(** * Swagger endpoint script generator: a shallow embedding of [core.py]

    The development follows the Python module function by function:
    [fetch_spec], [list_endpoints], [generate_script], the four renderers
    [generate_python_code], [generate_csharp_code], [generate_javascript_code],
    [generate_php_code], [save_script], and the generation loop of the desktop
    form ([on_generate_script] of [main.pyw]).

    Modelling conventions.
    - A Python [str] is a [string]; case mapping is the ASCII one, which is
      what [str.lower], [str.upper] and [str.capitalize] do on ASCII text.
    - A parsed document is a [json] value; a [dict] is the list of its items
      in insertion order, keys being strings.
    - A Python exception is a value of [error]; a function that may raise
      returns a [result].
    - The disk is what the program does to it: the list of the writes made,
      each of which the file system may refuse. *)

From Stdlib Require Import String Ascii List Bool Arith Lia.
From Stdlib Require DecimalString.
Import ListNotations.
Open Scope list_scope.
Open Scope string_scope.

Set Implicit Arguments.
Set Warnings "-register-all".

(** ** Exceptions and the error monad *)

Inductive error : Type :=
| KeyError (key : string)
| IndexError
| TypeError
| AttributeError
| FetchError (url : string) (status_code : nat)
| ParseError (message : string)
| UnsupportedLanguage (message : string)
| OSError (filename : string)
| Unmodelled.

Inductive result (A : Type) : Type :=
| Ok (a : A)
| Err (e : error).
Arguments Ok {A} a.
Arguments Err {A} e.

Definition bind {A B : Type} (r : result A) (k : A -> result B) : result B :=
  match r with
  | Ok a => k a
  | Err e => Err e
  end.

Notation "x <- r ;; k" := (bind r (fun x => k))
  (at level 61, r at next level, right associativity).

Definition is_ok {A : Type} (r : result A) : bool :=
  match r with Ok _ => true | Err _ => false end.

(** ** Python string operations *)

Module PyStr.

Definition is_upper (c : ascii) : bool :=
  let n := nat_of_ascii c in ((65 <=? n) && (n <=? 90))%nat.

Definition is_lower (c : ascii) : bool :=
  let n := nat_of_ascii c in ((97 <=? n) && (n <=? 122))%nat.

Definition lower_char (c : ascii) : ascii :=
  if is_upper c then ascii_of_nat (nat_of_ascii c + 32) else c.

Definition upper_char (c : ascii) : ascii :=
  if is_lower c then ascii_of_nat (nat_of_ascii c - 32) else c.

Fixpoint lower (s : string) : string :=
  match s with
  | EmptyString => EmptyString
  | String c s' => String (lower_char c) (lower s')
  end.

Fixpoint upper (s : string) : string :=
  match s with
  | EmptyString => EmptyString
  | String c s' => String (upper_char c) (upper s')
  end.

(** [str.capitalize]: first character upper-cased, the rest lower-cased. *)
Definition capitalize (s : string) : string :=
  match s with
  | EmptyString => EmptyString
  | String c s' => String (upper_char c) (lower s')
  end.

(** [s.startswith(p)] *)
Fixpoint startswith (p s : string) : bool :=
  match p with
  | EmptyString => true
  | String a p' =>
      match s with
      | EmptyString => false
      | String b s' => Ascii.eqb a b && startswith p' s'
      end
  end.

(** [s.endswith(suf)] *)
Fixpoint endswith (suf s : string) : bool :=
  String.eqb s suf ||
  match s with
  | EmptyString => false
  | String _ s' => endswith suf s'
  end.

(** [p in s] *)
Fixpoint contains (p s : string) : bool :=
  startswith p s ||
  match s with
  | EmptyString => false
  | String _ s' => contains p s'
  end.

(** Membership of a character in a string. *)
Fixpoint has_char (c : ascii) (s : string) : bool :=
  match s with
  | EmptyString => false
  | String a s' => Ascii.eqb c a || has_char c s'
  end.

(** [sep.join(l)] *)
Fixpoint join (sep : string) (l : list string) : string :=
  match l with
  | [] => EmptyString
  | [x] => x
  | x :: rest => x ++ sep ++ join sep rest
  end.

(** [s.replace(old, new)] for a non-empty [old]: the text is scanned from the
    left; at an occurrence of [old] the replacement is emitted and the scan
    resumes after the occurrence ([skip] counts the characters of the
    occurrence still to be passed over). *)
Fixpoint replace_from (old new : string) (skip : nat) (s : string) : string :=
  match s with
  | EmptyString => EmptyString
  | String c s' =>
      match skip with
      | S k => replace_from old new k s'
      | O =>
          if startswith old s
          then new ++ replace_from old new (String.length old - 1) s'
          else String c (replace_from old new 0 s')
      end
  end.

Definition replace (old new s : string) : string := replace_from old new 0 s.

End PyStr.
Import PyStr.

(** ** Parsed documents *)

Inductive json : Type :=
| JNull
| JBool (b : bool)
| JNum (n : nat)   (* numbers matter to the generator only through truthiness *)
| JStr (s : string)
| JArr (items : list json)
| JObj (items : list (string * json)).

(** Python truthiness of a parsed value ([if servers:]). *)
Definition truthy (v : json) : bool :=
  match v with
  | JNull => false
  | JBool b => b
  | JNum n => negb (Nat.eqb n 0)
  | JStr s => negb (String.eqb s "")
  | JArr l => match l with [] => false | _ => true end
  | JObj l => match l with [] => false | _ => true end
  end.

(** Dictionaries as item lists. *)
Module Dict.

Fixpoint lookup {V : Type} (k : string) (d : list (string * V)) : option V :=
  match d with
  | [] => None
  | (k', v) :: rest => if String.eqb k k' then Some v else lookup k rest
  end.

(** [d.get(k, default)] *)
Definition get {V : Type} (d : list (string * V)) (k : string) (default : V) : V :=
  match lookup k d with
  | Some v => v
  | None => default
  end.

(** [d[k] = v]: an existing key keeps its position, a new key goes last. *)
Fixpoint set {V : Type} (d : list (string * V)) (k : string) (v : V) : list (string * V) :=
  match d with
  | [] => [(k, v)]
  | (k', v') :: rest =>
      if String.eqb k k' then (k, v) :: rest else (k', v') :: set rest k v
  end.

End Dict.

(** [v.get(k, default)] on a parsed value: only a dict has [get]. *)
Definition py_get (v : json) (k : string) (default : json) : result json :=
  match v with
  | JObj d => Ok (Dict.get d k default)
  | _ => Err AttributeError
  end.

(** [v.items()] *)
Definition py_items (v : json) : result (list (string * json)) :=
  match v with
  | JObj d => Ok d
  | _ => Err AttributeError
  end.

(** [v[k]] with a string key. *)
Definition py_getitem (v : json) (k : string) : result json :=
  match v with
  | JObj d =>
      match Dict.lookup k d with
      | Some x => Ok x
      | None => Err (KeyError k)
      end
  | _ => Err TypeError
  end.

(** [v[0]] *)
Definition py_index0 (v : json) : result json :=
  match v with
  | JArr (x :: _) => Ok x
  | JArr [] => Err IndexError
  | JStr (String c _) => Ok (JStr (String c EmptyString))
  | JStr EmptyString => Err IndexError
  | JObj _ => Err (KeyError "0")
  | _ => Err TypeError
  end.

(** Iteration [for x in v]. *)
Definition py_iter (v : json) : result (list json) :=
  match v with
  | JArr l => Ok l
  | JObj d => Ok (map (fun kv => JStr (fst kv)) d)
  | JStr s => Ok (map (fun c => JStr (String c EmptyString)) (list_ascii_of_string s))
  | _ => Err TypeError
  end.

(** The text fields the generator splices into strings (URL parts, parameter
    names) are strings in every OpenAPI document; a document that puts another
    kind of value there is outside the model. *)
Definition as_str (v : json) : result string :=
  match v with
  | JStr s => Ok s
  | _ => Err Unmodelled
  end.

(** ** Endpoint extraction *)

Record Endpoint : Type := mkEndpoint {
  method : string;
  path : string;
  summary : json;
  operationId : json;
  parameters : json
}.

Definition http_methods : list string :=
  ["get"; "post"; "put"; "delete"; "patch"; "options"; "head"].

Definition is_http_method (m : string) : bool :=
  existsb (String.eqb (lower m)) http_methods.

(** The inner loop of [list_endpoints]: the methods of one path. *)
Fixpoint methods_loop (path : string) (methods : list (string * json))
    (endpoints : list Endpoint) : result (list Endpoint) :=
  match methods with
  | [] => Ok endpoints
  | (method, operation) :: rest =>
      if negb (is_http_method method) then methods_loop path rest endpoints
      else
        summary <- py_get operation "summary" (JStr "") ;;
        parameters <- py_get operation "parameters" (JArr []) ;;
        operationId <- py_get operation "operationId" (JStr "") ;;
        methods_loop path rest
          (endpoints ++ [mkEndpoint (upper method) path summary operationId parameters])%list
  end.

(** The outer loop of [list_endpoints]: the paths of the document. *)
Fixpoint paths_loop (paths : list (string * json)) (endpoints : list Endpoint)
    : result (list Endpoint) :=
  match paths with
  | [] => Ok endpoints
  | (path, methods) :: rest =>
      ms <- py_items methods ;;
      endpoints' <- methods_loop path ms endpoints ;;
      paths_loop rest endpoints'
  end.

Definition list_endpoints (spec : json) : result (list Endpoint) :=
  paths <- py_get spec "paths" (JObj []) ;;
  ps <- py_items paths ;;
  paths_loop ps [].

(** ** Parameter binding *)

(** The mutable locals of [generate_script] while it walks the parameters. *)
Record Binding : Type := mkBinding {
  path_params : list (string * string);
  query_params : list (string * string);
  header_params : list (string * string);
  body_param : option string;
  form_params : list (string * string)
}.

Definition empty_binding : Binding := mkBinding [] [] [] None [].

(** Base URL: [servers[0]['url']] when [servers] is truthy, else the
    Swagger 2 synthesis [f"{schemes[0]}://{host}{base_path}"]. *)
Definition base_url (spec : json) : result string :=
  servers <- py_get spec "servers" (JArr []) ;;
  if truthy servers then
    s0 <- py_index0 servers ;;
    u <- py_getitem s0 "url" ;;
    as_str u
  else
    host <- py_get spec "host" (JStr "") ;;
    base_path <- py_get spec "basePath" (JStr "") ;;
    schemes <- py_get spec "schemes" (JArr [JStr "https"]) ;;
    scheme0 <- py_index0 schemes ;;
    scheme <- as_str scheme0 ;;
    host <- as_str host ;;
    base_path <- as_str base_path ;;
    Ok (scheme ++ "://" ++ host ++ base_path).

(** [v == 'literal'] for a parsed value [v]. *)
Definition py_eq_str (v : json) (s : string) : bool :=
  match v with
  | JStr x => String.eqb x s
  | _ => false
  end.

(** One iteration of the parameter loop. *)
Definition bind_param (param_values : list (string * string)) (b : Binding)
    (param : json) : result Binding :=
  name_v <- py_getitem param "name" ;;
  name <- as_str name_v ;;
  let value := Dict.get param_values name "" in
  loc <- py_getitem param "in" ;;
  if py_eq_str loc "path" then
    Ok (mkBinding (b.(path_params) ++ [(name, value)])%list b.(query_params)
          b.(header_params) b.(body_param) b.(form_params))
  else if py_eq_str loc "query" then
    Ok (mkBinding b.(path_params) (Dict.set b.(query_params) name value)
          b.(header_params) b.(body_param) b.(form_params))
  else if py_eq_str loc "header" then
    Ok (mkBinding b.(path_params) b.(query_params)
          (Dict.set b.(header_params) name value) b.(body_param) b.(form_params))
  else if py_eq_str loc "body" then
    Ok (mkBinding b.(path_params) b.(query_params) b.(header_params)
          (Some value) b.(form_params))
  else if py_eq_str loc "formData" then
    Ok (mkBinding b.(path_params) b.(query_params) b.(header_params)
          b.(body_param) (Dict.set b.(form_params) name value))
  else Ok b.

Fixpoint bind_params (param_values : list (string * string)) (b : Binding)
    (params : list json) : result Binding :=
  match params with
  | [] => Ok b
  | param :: rest =>
      b' <- bind_param param_values b param ;;
      bind_params param_values b' rest
  end.

(** [f"{{{name}}}"] *)
Definition placeholder (name : string) : string := "{" ++ name ++ "}".

(** The substitution loop: one [url.replace] per path parameter, in order. *)
Fixpoint substitute_path (path_params : list (string * string)) (url : string) : string :=
  match path_params with
  | [] => url
  | (name, value) :: rest =>
      substitute_path rest (replace (placeholder name) value url)
  end.

(** The bound request shape handed to a renderer. *)
Record Request : Type := mkRequest {
  req_url : string;
  req_method : string;
  req_query : list (string * string);
  req_headers : list (string * string);
  req_body : option string;
  req_form : list (string * string)
}.

(** Lines 69-109 of [generate_script]: everything before the dispatch on the
    language. *)
Definition bind_request (spec : json) (endpoint : Endpoint)
    (param_values : list (string * string)) : result Request :=
  base <- base_url spec ;;
  let method := lower endpoint.(method) in
  let path := endpoint.(path) in
  paths <- py_getitem spec "paths" ;;
  item <- py_getitem paths path ;;
  operation <- py_getitem item method ;;
  let url := base ++ path in
  parameters <- py_get operation "parameters" (JArr []) ;;
  params <- py_iter parameters ;;
  b <- bind_params param_values empty_binding params ;;
  let url := substitute_path b.(path_params) url in
  Ok (mkRequest url method b.(query_params) b.(header_params) b.(body_param)
        b.(form_params)).

(** ** Code renderers *)

(** The two characters the generated sources need that a string literal
    cannot hold directly. *)
Definition nl : string := String "010"%char EmptyString.
Definition dq : string := String "034"%char EmptyString.

(** Truthiness of the renderer arguments: a dict is true when non-empty, the
    body is true when it is a non-empty string ([None] is false). *)
Definition nonempty {A : Type} (l : list A) : bool :=
  match l with [] => false | _ => true end.

Definition body_truthy (body : option string) : bool :=
  match body with
  | Some s => negb (String.eqb s "")
  | None => false
  end.

(** The text an f-string gives for the body: [str(body_param)]. *)
Definition body_text (body : option string) : string :=
  match body with
  | Some s => s
  | None => "None"
  end.

(** A [for k, v in d.items(): code += line] loop. *)
Definition emit_each (line : string * string -> string)
    (d : list (string * string)) (code : string) : string :=
  fold_left (fun code kv => code ++ line kv) d code.

(** ['&'.join(f"{k}={v}" for k, v in query_params.items())] *)
Definition query_string (query_params : list (string * string)) : string :=
  join "&" (map (fun kv => fst kv ++ "=" ++ snd kv) query_params).

(** [json.dumps] of a dict of strings (default separators, ASCII output). *)
Module JsonDumps.

Definition hex_digit (n : nat) : ascii :=
  if (n <? 10)%nat then ascii_of_nat (48 + n) else ascii_of_nat (87 + n).

Definition escape_char (c : ascii) : string :=
  let n := nat_of_ascii c in
  if (n =? 34)%nat then "\" ++ dq
  else if (n =? 92)%nat then "\\"
  else if (n =? 10)%nat then "\n"
  else if (n =? 13)%nat then "\r"
  else if (n =? 9)%nat then "\t"
  else if (n =? 8)%nat then "\b"
  else if (n =? 12)%nat then "\f"
  else if ((32 <=? n) && (n <=? 126))%nat then String c EmptyString
  else "\u00" ++ String (hex_digit (n / 16)) (String (hex_digit (n mod 16)) EmptyString).

Fixpoint escape (s : string) : string :=
  match s with
  | EmptyString => EmptyString
  | String c s' => escape_char c ++ escape s'
  end.

Definition dumps_str (s : string) : string := dq ++ escape s ++ dq.

Definition dumps (d : list (string * string)) : string :=
  "{" ++ join ", " (map (fun kv => dumps_str (fst kv) ++ ": " ++ dumps_str (snd kv)) d) ++ "}".

End JsonDumps.

Definition generate_python_code (url method : string)
    (query_params header_params : list (string * string))
    (body_param : option string) (form_params : list (string * string)) : string :=
  let code := "import requests" ++ nl ++ nl in
  let code := code ++ "url = '" ++ url ++ "'" ++ nl in
  let code :=
    if nonempty query_params
    then code ++ "params = " ++ JsonDumps.dumps query_params ++ nl
    else code ++ "params = {}" ++ nl in
  let code :=
    if nonempty header_params
    then code ++ "headers = " ++ JsonDumps.dumps header_params ++ nl
    else code ++ "headers = {}" ++ nl in
  let code :=
    if body_truthy body_param
    then code ++ "json_body = " ++ body_text body_param ++ nl
    else code ++ "json_body = None" ++ nl in
  let code :=
    if nonempty form_params
    then code ++ "data = " ++ JsonDumps.dumps form_params ++ nl
    else code ++ "data = None" ++ nl in
  let code := code ++ "response = requests." ++ method ++ "(" ++ nl in
  let code := code ++ "    url," ++ nl in
  let code := code ++ "    params=params," ++ nl in
  let code := code ++ "    headers=headers," ++ nl in
  let code :=
    if body_truthy body_param then code ++ "    json=json_body," ++ nl else code in
  let code :=
    if nonempty form_params then code ++ "    data=data," ++ nl else code in
  let code := code ++ ")" ++ nl in
  let code := code ++ "print('Status Code:', response.status_code)" ++ nl in
  let code := code ++ "print('Response Body:', response.text)" ++ nl in
  code.

Definition generate_csharp_code (url method : string)
    (query_params header_params : list (string * string))
    (body_param : option string) (form_params : list (string * string)) : string :=
  let code := "using System;" ++ nl ++ "using System.Net.Http;" ++ nl
              ++ "using System.Threading.Tasks;" ++ nl ++ "using Newtonsoft.Json;"
              ++ nl ++ nl in
  let code := code ++ "class Program" ++ nl ++ "{" ++ nl in
  let code := code ++ "    static async Task Main(string[] args)" ++ nl ++ "    {" ++ nl in
  let code := code ++ "        var client = new HttpClient();" ++ nl in
  let code := code ++ "        var url = " ++ dq ++ url ++ dq ++ ";" ++ nl in
  let code :=
    if nonempty query_params
    then code ++ "        url += " ++ dq ++ "?" ++ query_string query_params ++ dq ++ ";" ++ nl
    else code in
  let code :=
    if nonempty header_params
    then emit_each (fun kv => "        client.DefaultRequestHeaders.Add(" ++ dq ++ fst kv
                              ++ dq ++ ", " ++ dq ++ snd kv ++ dq ++ ");" ++ nl)
           header_params code
    else code in
  let code :=
    if body_truthy body_param then
      let code := code ++ "        var jsonBody = " ++ body_text body_param ++ ";" ++ nl in
      code ++ "        var content = new StringContent(JsonConvert.SerializeObject(jsonBody), System.Text.Encoding.UTF8, "
           ++ dq ++ "application/json" ++ dq ++ ");" ++ nl
    else if nonempty form_params then
      let code := code ++ "        var content = new FormUrlEncodedContent(new[]" ++ nl
                       ++ "        {" ++ nl in
      let code :=
        emit_each (fun kv => "            new KeyValuePair<string, string>(" ++ dq ++ fst kv
                             ++ dq ++ ", " ++ dq ++ snd kv ++ dq ++ ")," ++ nl)
          form_params code in
      code ++ "        });" ++ nl
    else code ++ "        HttpContent content = null;" ++ nl in
  let code := code ++ "        var response = await client." ++ capitalize method
                   ++ "Async(url, content);" ++ nl in
  let code := code ++ "        var responseString = await response.Content.ReadAsStringAsync();" ++ nl in
  let code := code ++ "        Console.WriteLine($" ++ dq ++ "Status Code: {response.StatusCode}"
                   ++ dq ++ ");" ++ nl in
  let code := code ++ "        Console.WriteLine($" ++ dq ++ "Response Body: {responseString}"
                   ++ dq ++ ");" ++ nl in
  let code := code ++ "    }" ++ nl ++ "}" ++ nl in
  code.

Definition generate_javascript_code (url method : string)
    (query_params header_params : list (string * string))
    (body_param : option string) (form_params : list (string * string)) : string :=
  let code := "const fetch = require('node-fetch');" ++ nl ++ nl in
  let code := code ++ "let url = '" ++ url ++ "';" ++ nl in
  let code :=
    if nonempty query_params
    then code ++ "url += '?" ++ query_string query_params ++ "';" ++ nl
    else code in
  let code := code ++ "const options = {" ++ nl in
  let code := code ++ "    method: '" ++ upper method ++ "'," ++ nl in
  let code :=
    if nonempty header_params then
      let code := code ++ "    headers: {" ++ nl in
      let code :=
        emit_each (fun kv => "        '" ++ fst kv ++ "': '" ++ snd kv ++ "'," ++ nl)
          header_params code in
      code ++ "    }," ++ nl
    else code in
  let code :=
    if body_truthy body_param
    then code ++ "    body: JSON.stringify(" ++ body_text body_param ++ ")," ++ nl
    else if nonempty form_params then
      let code := code ++ "    body: new URLSearchParams({" ++ nl in
      let code :=
        emit_each (fun kv => "        '" ++ fst kv ++ "': '" ++ snd kv ++ "'," ++ nl)
          form_params code in
      code ++ "    })," ++ nl
    else code in
  let code := code ++ "};" ++ nl in
  let code := code ++ "fetch(url, options)" ++ nl in
  let code := code ++ "    .then(response => response.text())" ++ nl in
  let code := code ++ "    .then(text => {" ++ nl in
  let code := code ++ "        console.log('Response Body:', text);" ++ nl in
  let code := code ++ "    })" ++ nl in
  let code := code ++ "    .catch(err => console.error('Error:', err));" ++ nl in
  code.

Definition generate_php_code (url method : string)
    (query_params header_params : list (string * string))
    (body_param : option string) (form_params : list (string * string)) : string :=
  let code := "<?php" ++ nl in
  let code := code ++ "$ch = curl_init();" ++ nl in
  let code :=
    if nonempty query_params
    then code ++ "$url = '" ++ url ++ "?" ++ query_string query_params ++ "';" ++ nl
    else code ++ "$url = '" ++ url ++ "';" ++ nl in
  let code := code ++ "curl_setopt($ch, CURLOPT_URL, $url);" ++ nl in
  let code := code ++ "curl_setopt($ch, CURLOPT_CUSTOMREQUEST, '" ++ upper method ++ "');" ++ nl in
  let code := code ++ "curl_setopt($ch, CURLOPT_RETURNTRANSFER, true);" ++ nl in
  let code :=
    if nonempty header_params then
      let code := code ++ "$headers = [" ++ nl in
      let code :=
        emit_each (fun kv => "    '" ++ fst kv ++ ": " ++ snd kv ++ "'," ++ nl)
          header_params code in
      let code := code ++ "];" ++ nl in
      code ++ "curl_setopt($ch, CURLOPT_HTTPHEADER, $headers);" ++ nl
    else code in
  let code :=
    if body_truthy body_param then
      let code := code ++ "$data = json_encode(" ++ body_text body_param ++ ");" ++ nl in
      code ++ "curl_setopt($ch, CURLOPT_POSTFIELDS, $data);" ++ nl
    else if nonempty form_params then
      let code := code ++ "$data = http_build_query([" ++ nl in
      let code :=
        emit_each (fun kv => "    '" ++ fst kv ++ "' => '" ++ snd kv ++ "'," ++ nl)
          form_params code in
      let code := code ++ "]);" ++ nl in
      code ++ "curl_setopt($ch, CURLOPT_POSTFIELDS, $data);" ++ nl
    else code in
  let code := code ++ "$response = curl_exec($ch);" ++ nl in
  let code := code ++ "curl_close($ch);" ++ nl in
  let code := code ++ "echo 'Response Body: ' . $response;" ++ nl in
  let code := code ++ "?>" ++ nl in
  code.

(** ** Script generation *)

Definition generate_script (spec : json) (endpoint : Endpoint)
    (param_values : list (string * string)) (language : string) : result string :=
  r <- bind_request spec endpoint param_values ;;
  let render f :=
    Ok (f r.(req_url) r.(req_method) r.(req_query) r.(req_headers) r.(req_body)
          r.(req_form)) in
  if String.eqb language "Python" then render generate_python_code
  else if String.eqb language "C#" then render generate_csharp_code
  else if String.eqb language "JavaScript" then render generate_javascript_code
  else if String.eqb language "PHP" then render generate_php_code
  else Err (UnsupportedLanguage ("Unsupported language: " ++ language)).

(** ** Specification loading *)

(** What [requests.get] hands back, as far as [fetch_spec] reads it;
    [content_type] is [response.headers.get('Content-Type', '')]. *)
Record Response : Type := mkResponse {
  status_code : nat;
  content_type : string;
  text : string
}.

(** Outcome of a parser: the document, or the message of the exception
    ([json.JSONDecodeError], [yaml.YAMLError]). *)
Inductive parsed : Type :=
| Parsed (doc : json)
| Unparsed (message : string).

Section Loader.

(** The HTTP client and the two parsers are libraries; [fetch_spec] is
    modelled over any behaviour of theirs. *)
Variable requests_get : string -> Response.
Variable json_loads : string -> parsed.
Variable yaml_safe_load : string -> parsed.

Definition wants_json (content_type url : string) : bool :=
  contains "application/json" content_type || endswith ".json" url.

Definition wants_yaml (content_type url : string) : bool :=
  contains "application/yaml" content_type
  || contains "application/x-yaml" content_type
  || (endswith ".yaml" url || endswith ".yml" url).

Definition fetch_spec (url : string) : result json :=
  let response := requests_get url in
  if negb (Nat.eqb response.(status_code) 200)
  then Err (FetchError url response.(status_code))
  else
    let content_type := lower response.(content_type) in
    let text := response.(text) in
    if wants_json content_type url then
      match json_loads text with
      | Parsed spec => Ok spec
      | Unparsed e => Err (ParseError ("Failed to parse JSON specification: " ++ e))
      end
    else if wants_yaml content_type url then
      match yaml_safe_load text with
      | Parsed spec => Ok spec
      | Unparsed e => Err (ParseError ("Failed to parse YAML specification: " ++ e))
      end
    else
      match json_loads text with
      | Parsed spec => Ok spec
      | Unparsed _ =>
          match yaml_safe_load text with
          | Parsed spec => Ok spec
          | Unparsed e =>
              Err (ParseError ("Failed to parse specification as JSON or YAML: " ++ e))
          end
      end.

End Loader.

(** ** The generation loop of the desktop form *)

Module Gui.

(** What running the form leaves on disk is recorded as the list of writes
    made, oldest first: the path opened and the text that reached the file. *)
Definition write : Type := (string * string)%type.

(** What [open(filename, 'w')] followed by [file.write(code)] does: the text
    is stored, or [open] raises [e] and the disk is untouched, or [write]
    raises [e] after [open] has truncated the file, leaving [partial] in
    it. *)
Inductive io : Type :=
| Stored
| OpenFails (e : error)
| WriteFails (partial : string) (e : error).

(** The file system as the form meets it: the outcome of storing a text at a
    path, after the writes made so far. *)
Definition disk : Type := list write -> string -> string -> io.

(** [save_script]: the writes made, and the exception raised if any. *)
Definition save_script (io_of : disk) (code filename : string) (log : list write)
    : list write * option error :=
  match io_of log filename code with
  | Stored => ((log ++ [(filename, code)])%list, None)
  | OpenFails e => (log, Some e)
  | WriteFails partial e => ((log ++ [(filename, partial)])%list, Some e)
  end.

Definition get_file_extension (language : string) : string :=
  Dict.get [("Python", "pyw"); ("C#", "cs"); ("JavaScript", "js"); ("PHP", "php")]
    language "txt".

(** [os.path.join] of a directory and a file name. *)
Definition path_join (dir name : string) : string :=
  if startswith "/" name then name
  else if String.eqb dir "" || endswith "/" dir then dir ++ name
  else dir ++ "/" ++ name.

(** An [operationId] as a dictionary key: [True] and [1] are the same key,
    lists and objects are unhashable. *)
Inductive key : Type :=
| KNone
| KNum (n : nat)
| KStr (s : string).

Definition key_of (v : json) : result key :=
  match v with
  | JNull => Ok KNone
  | JBool b => Ok (KNum (if b then 1 else 0))
  | JNum n => Ok (KNum n)
  | JStr s => Ok (KStr s)
  | JArr _ | JObj _ => Err TypeError
  end.

Definition key_eqb (a b : key) : bool :=
  match a, b with
  | KNone, KNone => true
  | KNum n, KNum m => Nat.eqb n m
  | KStr s, KStr t => String.eqb s t
  | _, _ => false
  end.

(** [self.param_values.get(operation_id, {})]. *)
Fixpoint values_for (param_values : list (json * list (string * string))) (k : key)
    : list (string * string) :=
  match param_values with
  | [] => []
  | (stored, values) :: rest =>
      match key_of stored with
      | Ok k' => if key_eqb k' k then values else values_for rest k
      | Err _ => values_for rest k
      end
  end.

(** [f"{operation_id}"] of a hashable [operationId]. *)
Definition py_str (v : json) : string :=
  match v with
  | JStr s => s
  | JNum n => DecimalString.NilZero.string_of_uint (Nat.to_uint n)
  | JBool true => "True"
  | JBool false => "False"
  | JNull => "None"
  | JArr _ | JObj _ => ""
  end.

Inductive outcome : Type :=
| Success
| Failed (operation_id : string) (e : error)
| Crashed (e : error)
| NoSelection
| NoOutputDir.

(** The [for endpoint in self.selected_endpoints] loop of
    [on_generate_script]. The lookup of the parameter values stands before
    the [try]: an unhashable [operationId] ends the handler with the
    exception. An exception of [generate_script] or of [save_script] is
    reported and ends the loop. *)
Fixpoint generate_loop (io_of : disk) (spec : json)
    (param_values : list (json * list (string * string)))
    (language : string) (separate_files : bool) (output_dir cwd : string)
    (selected_endpoints : list Endpoint) (log : list write) : list write * outcome :=
  match selected_endpoints with
  | [] => (log, Success)
  | endpoint :: rest =>
      let operation_id := endpoint.(operationId) in
      match key_of operation_id with
      | Err e => (log, Crashed e)
      | Ok k =>
          match generate_script spec endpoint (values_for param_values k) language with
          | Err e => (log, Failed (py_str operation_id) e)
          | Ok code =>
              let filepath :=
                if separate_files
                then path_join output_dir
                       (py_str operation_id ++ "." ++ get_file_extension language)
                else path_join cwd
                       ("generated_script." ++ get_file_extension language) in
              match save_script io_of code filepath log with
              | (log', Some e) => (log', Failed (py_str operation_id) e)
              | (log', None) =>
                  generate_loop io_of spec param_values language separate_files
                    output_dir cwd rest log'
              end
          end
      end
  end.

(** [on_generate_script]: nothing is generated without a selection, nor, in
    separate-files mode, without an output directory ([output_dir] is what the
    directory dialog returned, empty when it was cancelled). *)
Definition on_generate_script (io_of : disk) (spec : json)
    (param_values : list (json * list (string * string)))
    (language : string) (separate_files : bool) (output_dir cwd : string)
    (selected_endpoints : list Endpoint) (log : list write) : list write * outcome :=
  match selected_endpoints with
  | [] => (log, NoSelection)
  | _ =>
      if separate_files && String.eqb output_dir "" then (log, NoOutputDir)
      else generate_loop io_of spec param_values language separate_files output_dir cwd
             selected_endpoints log
  end.

End Gui.

(** * Specification-side definitions

    The notions the properties are stated with, and the example documents
    they are tried on. *)

(** ** Declared endpoints *)

(** The declarative reading of the extractor: the operations of a path item
    are its entries under an HTTP-verb key, each described with the defaults
    for the fields it lacks; the endpoints of a document are those of its
    paths, in order. *)
Definition field_or (default : json) (k : string) (op : list (string * json)) : json :=
  match Dict.lookup k op with
  | Some v => v
  | None => default
  end.

Definition declared_endpoint (path method : string) (op : list (string * json)) : Endpoint :=
  mkEndpoint (upper method) path
    (field_or (JStr "") "summary" op)
    (field_or (JStr "") "operationId" op)
    (field_or (JArr []) "parameters" op).

Definition fields_of (v : json) : list (string * json) :=
  match v with
  | JObj d => d
  | _ => []
  end.

Definition declared_operations (path : string) (item : json) : list Endpoint :=
  map (fun kv => declared_endpoint path (fst kv) (fields_of (snd kv)))
    (filter (fun kv => is_http_method (fst kv)) (fields_of item)).

Definition declared_endpoints (paths : list (string * json)) : list Endpoint :=
  flat_map (fun kv => declared_operations (fst kv) (snd kv)) paths.

(** Every (path, key) pair of the document, in declaration order. *)
Definition declared_pairs (paths : list (string * json)) : list (string * string) :=
  flat_map (fun kv => map (fun mo => (fst kv, fst mo)) (fields_of (snd kv))) paths.

(** The shape of a document's [paths]: each path maps to a dict, and under it
    each HTTP-verb key maps to a dict. *)
Definition operations_shaped (methods : list (string * json)) : Prop :=
  Forall (fun kv => is_http_method (fst kv) = true -> exists op, snd kv = JObj op) methods.

Definition paths_shaped (paths : list (string * json)) : Prop :=
  Forall (fun kv => exists ms, snd kv = JObj ms /\ operations_shaped ms) paths.

(** ** Example documents *)

(** A Swagger 2 document with a shared [parameters] block, an operation
    under an upper-case verb, and a vendor extension. *)
Definition pets_item : list (string * json) :=
  [("parameters", JArr []);
   ("GET", JObj [("summary", JStr "List pets"); ("operationId", JStr "listPets")]);
   ("post", JObj [("operationId", JStr "addPet")]);
   ("x-internal", JBool true)].

Definition petstore_paths : list (string * json) :=
  [("/pets", JObj pets_item);
   ("/pets/{id}", JObj
      [("delete", JObj
          [("parameters", JArr [JObj [("name", JStr "id"); ("in", JStr "path")]])])])].

Definition petstore : list (string * json) :=
  [("swagger", JStr "2.0"); ("paths", JObj petstore_paths)].

Definition swagger2_doc : list (string * json) :=
  [("host", JStr "api.example.com"); ("basePath", JStr "/v1");
   ("schemes", JArr [JStr "https"])].

Definition id_param : json := JObj [("name", JStr "id"); ("in", JStr "path")].

Definition payload_param (n : string) : json := JObj [("name", JStr n); ("in", JStr "body")].

Definition list_pets : Endpoint :=
  mkEndpoint "GET" "/pets" (JStr "List pets") (JStr "listPets") (JArr []).

Definition openapi3_doc : list (string * json) :=
  [("servers", JArr [JObj [("url", JStr "http://x")]]);
   ("paths", JObj [("/y", JObj [("post", JObj [("operationId", JStr "createY")])])])].

Definition create_y : Endpoint :=
  mkEndpoint "POST" "/y" (JStr "") (JStr "createY") (JArr []).

(** ** Language dispatch *)

(** The four recognised language names. *)
Definition languages : list string := ["Python"; "C#"; "JavaScript"; "PHP"].

(** The renderer the dispatch selects for a recognised language. *)
Definition renderer_of (language : string) (r : Request) : string :=
  let render f :=
    f r.(req_url) r.(req_method) r.(req_query) r.(req_headers) r.(req_body) r.(req_form) in
  if String.eqb language "Python" then render generate_python_code
  else if String.eqb language "C#" then render generate_csharp_code
  else if String.eqb language "JavaScript" then render generate_javascript_code
  else render generate_php_code.

(** The unsupported-language error, told from the lookup and type errors
    raised before the dispatch. *)
Definition is_unsupported (e : error) : bool :=
  match e with
  | UnsupportedLanguage _ => true
  | _ => false
  end.

Definition raises_no_unsupported {A : Type} (r : result A) : Prop :=
  forall e, r = Err e -> is_unsupported e = false.

(** ** Format policy *)

(** The policy in the specification's words: the formats to try, in order. *)
Inductive format : Type := Json | Yaml.

Definition chosen_formats (content_type url : string) : list format :=
  if contains "application/json" content_type || endswith ".json" url then [Json]
  else if contains "application/yaml" content_type
          || contains "application/x-yaml" content_type
          || (endswith ".yaml" url || endswith ".yml" url)
  then [Yaml]
  else [Json; Yaml].

Definition parse_with (json_loads yaml_safe_load : string -> parsed) (f : format)
    (text : string) : parsed :=
  match f with
  | Json => json_loads text
  | Yaml => yaml_safe_load text
  end.

Definition failure_prefix (formats : list format) : string :=
  match formats with
  | [Json] => "Failed to parse JSON specification: "
  | [Yaml] => "Failed to parse YAML specification: "
  | _ => "Failed to parse specification as JSON or YAML: "
  end.

(** The chosen formats are tried in order; the first success is the document,
    and when all fail the error carries the message of the last parser. *)
Fixpoint parse_first (json_loads yaml_safe_load : string -> parsed)
    (prefix : string) (formats : list format) (text : string) : result json :=
  match formats with
  | [] => Err (ParseError prefix)
  | f :: rest =>
      match parse_with json_loads yaml_safe_load f text with
      | Parsed doc => Ok doc
      | Unparsed e =>
          match rest with
          | [] => Err (ParseError (prefix ++ e))
          | _ => parse_first json_loads yaml_safe_load prefix rest text
          end
      end
  end.

(** ** Placeholders *)

(** No occurrence of [old] starts at a position of [w] in [w ++ q]. *)
Fixpoint no_start (old w q : string) : bool :=
  match w with
  | EmptyString => true
  | String c w' => negb (startswith old (w ++ q)) && no_start old w' q
  end.

(** A parameter name without braces, as OpenAPI path templating has them. *)
Definition brace_free (name : string) : bool :=
  negb (has_char "{" name) && negb (has_char "}" name).

(** ** Reporting code *)

(** The last statements each renderer appends. *)
Definition python_report : string :=
  "print('Status Code:', response.status_code)" ++ nl
  ++ "print('Response Body:', response.text)" ++ nl.

Definition csharp_report : string :=
  "        Console.WriteLine($" ++ dq ++ "Status Code: {response.StatusCode}" ++ dq ++ ");" ++ nl
  ++ "        Console.WriteLine($" ++ dq ++ "Response Body: {responseString}" ++ dq ++ ");" ++ nl
  ++ "    }" ++ nl ++ "}" ++ nl.

Definition javascript_report : string :=
  "fetch(url, options)" ++ nl
  ++ "    .then(response => response.text())" ++ nl
  ++ "    .then(text => {" ++ nl
  ++ "        console.log('Response Body:', text);" ++ nl
  ++ "    })" ++ nl
  ++ "    .catch(err => console.error('Error:', err));" ++ nl.

Definition php_report : string :=
  "$response = curl_exec($ch);" ++ nl
  ++ "curl_close($ch);" ++ nl
  ++ "echo 'Response Body: ' . $response;" ++ nl
  ++ "?>" ++ nl.

(** Code that prints the status code has to read it: [response.status_code],
    [response.StatusCode], [response.status], or [curl_getinfo] with a
    [CURLINFO_] constant. *)
Definition reads_status (code : string) : bool :=
  contains "tatus" code || contains "curl_getinfo" code || contains "CURLINFO" code.

Definition prints_body (code : string) : bool := contains "Response Body" code.

(** ** Segments of generated text *)

(** The loop [emit_each] appends the lines of the items, in order. *)
Definition lines (line : string * string -> string) (d : list (string * string)) : string :=
  fold_right (fun kv acc => line kv ++ acc) "" d.

(** Occurrences of a token cannot run across a character the token does not
    hold; text is checked segment by segment, cut at such characters. *)
Fixpoint last_char (s : string) : option ascii :=
  match s with
  | EmptyString => None
  | String c EmptyString => Some c
  | String _ s' => last_char s'
  end.

Definition ends_sep (p lit : string) : bool :=
  match last_char lit with
  | Some c => negb (has_char c p)
  | None => false
  end.

Definition starts_sep (p lit : string) : bool :=
  match lit with
  | String c _ => negb (has_char c p)
  | EmptyString => false
  end.

(** The caller's text: URL, method as the renderer spells it, query, body
    and form strings, none holding the token. *)
Definition pairs_free (p : string) (d : list (string * string)) : Prop :=
  Forall (fun kv => contains p (fst kv) = false /\ contains p (snd kv) = false) d.

Record text_free (p url method_text : string) (query : list (string * string))
    (body : option string) (form : list (string * string)) : Prop := mkTextFree {
  url_free : contains p url = false;
  method_free : contains p method_text = false;
  query_free : pairs_free p query;
  body_free : contains p (body_text body) = false;
  form_free : pairs_free p form
}.

(** ** Well-formed parameters and documents *)

(** The upper-case spellings a descriptor's method can take. *)
Definition upper_methods : list string :=
  ["GET"; "POST"; "PUT"; "DELETE"; "PATCH"; "OPTIONS"; "HEAD"].

(** A parameter object as the binding loop reads it: a string [name] and
    some [in]. *)
Definition param_is (param : json) (view : string * json) : Prop :=
  py_getitem param "name" = Ok (JStr (fst view))
  /\ py_getitem param "in" = Ok (snd view).

Definition param_ok (param : json) : Prop := exists view, param_is param view.

(** The names declared at a location, in declaration order. *)
Definition names_at (loc : string) (views : list (string * json)) : list string :=
  map fst (filter (fun v => py_eq_str (snd v) loc) views).

Definition declares (loc : string) (views : list (string * json)) (n : string) : bool :=
  existsb (String.eqb n) (names_at loc views).

(** The binding after one well-formed parameter: the bucket its [in]
    selects. *)
Definition bucket (param_values : list (string * string)) (b : Binding)
    (name : string) (loc : json) : Binding :=
  let value := Dict.get param_values name "" in
  if py_eq_str loc "path" then
    mkBinding (b.(path_params) ++ [(name, value)])%list b.(query_params)
      b.(header_params) b.(body_param) b.(form_params)
  else if py_eq_str loc "query" then
    mkBinding b.(path_params) (Dict.set b.(query_params) name value)
      b.(header_params) b.(body_param) b.(form_params)
  else if py_eq_str loc "header" then
    mkBinding b.(path_params) b.(query_params)
      (Dict.set b.(header_params) name value) b.(body_param) b.(form_params)
  else if py_eq_str loc "body" then
    mkBinding b.(path_params) b.(query_params) b.(header_params)
      (Some value) b.(form_params)
  else if py_eq_str loc "formData" then
    mkBinding b.(path_params) b.(query_params) b.(header_params)
      b.(body_param) (Dict.set b.(form_params) name value)
  else b.

Definition bucket_all (param_values : list (string * string))
    (views : list (string * json)) (b : Binding) : Binding :=
  fold_left (fun b v => bucket param_values b (fst v) (snd v)) views b.

(** The three maps of a binding hold no key twice. *)
Definition unique_keys (b : Binding) : Prop :=
  NoDup (map fst b.(query_params))
  /\ NoDup (map fst b.(header_params))
  /\ NoDup (map fst b.(form_params)).

(** An operation whose [parameters] the binding loop can walk. *)
Definition operation_ready (operation : json) : Prop :=
  exists op params,
    operation = JObj op
    /\ Dict.get op "parameters" (JArr []) = JArr params
    /\ Forall param_ok params.

(** A path item with unique keys whose operations sit under lower-case verb
    keys. *)
Definition item_ready (item : json) : Prop :=
  exists ms,
    item = JObj ms
    /\ NoDup (map fst ms)
    /\ Forall (fun kv => is_http_method (fst kv) = true ->
                         lower (fst kv) = fst kv /\ operation_ready (snd kv)) ms.

Definition paths_ready (paths : list (string * json)) : Prop :=
  NoDup (map fst paths) /\ Forall (fun kv => item_ready (snd kv)) paths.

(** ** Payload tokens *)

(** The caller's text of a request without body: URL, method as the renderer
    spells it, query, header and form strings, none holding the token. *)
Record bodyless_text_free (p url method_text : string)
    (query headers form : list (string * string)) : Prop := mkBodylessTextFree {
  bl_url_free : contains p url = false;
  bl_method_free : contains p method_text = false;
  bl_query_free : pairs_free p query;
  bl_headers_free : pairs_free p headers;
  bl_form_free : pairs_free p form
}.

(** The string without its last character. *)
Fixpoint init (s : string) : string :=
  match s with
  | EmptyString => EmptyString
  | String _ EmptyString => EmptyString
  | String c s' => String c (init s')
  end.

(** [c] occurs in [p] at its last position only, if at all. *)
Definition only_last (c : ascii) (p : string) : bool := negb (has_char c (init p)).

(** The items of a dumped dictionary, between the braces. *)
Definition dumped_items (d : list (string * string)) : string :=
  join ", " (map (fun kv => JsonDumps.dumps_str (fst kv) ++ ": "
                            ++ JsonDumps.dumps_str (snd kv)) d).

(** ** Written files *)

Definition extensions : list string := ["pyw"; "cs"; "js"; "php"].

(** The file [on_generate_script] writes an endpoint's script to. *)
Definition script_path (language : string) (separate_files : bool)
    (output_dir cwd : string) (operation_id : json) : string :=
  if separate_files
  then Gui.path_join output_dir
         (Gui.py_str operation_id ++ "." ++ Gui.get_file_extension language)
  else Gui.path_join cwd ("generated_script." ++ Gui.get_file_extension language).

(** The script the form generates for an endpoint, with the parameter values
    stored under its [operationId]. *)
Definition script_of (spec : json) (param_values : list (json * list (string * string)))
    (language : string) (endpoint : Endpoint) : result string :=
  k <- Gui.key_of endpoint.(operationId) ;;
  generate_script spec endpoint (Gui.values_for param_values k) language.

Definition read_five : Endpoint :=
  mkEndpoint "GET" "/a" (JStr "") (JNum 5) (JArr []).

Definition read_sub : Endpoint :=
  mkEndpoint "GET" "/b" (JStr "") (JStr "sub/readB") (JArr []).

(** A file system on which every write goes through. *)
Definition always_stored : Gui.disk := fun _ _ _ => Gui.Stored.

(** A file system without the directory [dir]: opening a file under it
    fails. *)
Definition missing_dir (dir : string) : Gui.disk :=
  fun _ filename _ =>
    if startswith dir filename then Gui.OpenFails (OSError filename) else Gui.Stored.

(** An operation whose [operationId] is a number, and one whose
    [operationId] names a file in a subdirectory. *)
Definition odd_ids_doc : list (string * json) :=
  [("servers", JArr [JObj [("url", JStr "http://x")]]);
   ("paths", JObj
      [("/a", JObj [("get", JObj [("operationId", JNum 5)])]);
       ("/b", JObj [("get", JObj [("operationId", JStr "sub/readB")])])])].


(** ** The bound request *)

(** The last name of a list, if any. *)
Definition last_of (l : list string) : option string :=
  match rev l with
  | [] => None
  | n :: _ => Some n
  end.

(** The substitution list of the path parameters among [views]: each name
    with [param_values.get(name, '')], in declaration order. *)
Definition path_bindings (param_values : list (string * string))
    (views : list (string * json)) : list (string * string) :=
  map (fun n => (n, Dict.get param_values n "")) (names_at "path" views).

(** A parameter with a name but without [in]. *)
Definition no_in_doc : list (string * json) :=
  [("host", JStr "h");
   ("paths", JObj
      [("/items", JObj
          [("get", JObj
              [("parameters", JArr
                  [JObj [("name", JStr "q"); ("in", JStr "query")];
                   JObj [("name", JStr "limit")]])])])])].

(** An operation with a parameter at every location, two of them in the
    body. *)
Definition order_doc : list (string * json) :=
  [("host", JStr "h");
   ("paths", JObj
      [("/orders/{id}", JObj
          [("post", JObj
              [("parameters", JArr
                  [JObj [("name", JStr "id"); ("in", JStr "path")];
                   JObj [("name", JStr "q"); ("in", JStr "query")];
                   JObj [("name", JStr "X-Trace"); ("in", JStr "header")];
                   JObj [("name", JStr "draft"); ("in", JStr "body")];
                   JObj [("name", JStr "note"); ("in", JStr "formData")];
                   JObj [("name", JStr "order"); ("in", JStr "body")];
                   JObj [("name", JStr "sid"); ("in", JStr "cookie")]])])])])].

Definition post_order : Endpoint :=
  mkEndpoint "POST" "/orders/{id}" (JStr "") (JStr "") (JArr []).

Definition order_views : list (string * json) :=
  [("id", JStr "path"); ("q", JStr "query"); ("X-Trace", JStr "header");
   ("draft", JStr "body"); ("note", JStr "formData"); ("order", JStr "body");
   ("sid", JStr "cookie")].

(** Path parameters whose names hold braces. *)
Definition braces_doc : list (string * json) :=
  [("host", JStr "h");
   ("paths", JObj
      [("/a{}{}{}", JObj
          [("get", JObj
              [("parameters", JArr [JObj [("name", JStr "}{"); ("in", JStr "path")]])])]);
       ("/{x}{x}", JObj
          [("get", JObj
              [("parameters", JArr
                  [JObj [("name", JStr "x}{x"); ("in", JStr "path")]])])])])].

Definition get_overlapping : Endpoint :=
  mkEndpoint "GET" "/a{}{}{}" (JStr "") (JStr "") (JArr []).

Definition get_spanning : Endpoint :=
  mkEndpoint "GET" "/{x}{x}" (JStr "") (JStr "") (JArr []).

(** ** Further example documents *)

(** A query parameter declared twice, a path parameter, and a parameter at a
    location the generator does not know. *)
Definition search_doc : list (string * json) :=
  [("host", JStr "h");
   ("paths", JObj
      [("/items/{id}", JObj
          [("get", JObj
              [("parameters", JArr
                  [JObj [("name", JStr "q"); ("in", JStr "query")];
                   JObj [("name", JStr "id"); ("in", JStr "path")];
                   JObj [("name", JStr "q"); ("in", JStr "query")];
                   JObj [("name", JStr "lang"); ("in", JStr "query")];
                   JObj [("name", JStr "trace"); ("in", JStr "cookie")]])])])])].

Definition get_item : Endpoint :=
  mkEndpoint "GET" "/items/{id}" (JStr "") (JStr "") (JArr []).

(** A [$ref] parameter and a parameter that is not an object. *)
Definition ref_doc : list (string * json) :=
  [("host", JStr "h");
   ("paths", JObj
      [("/items", JObj
          [("get", JObj
              [("parameters", JArr
                  [JObj [("name", JStr "q"); ("in", JStr "query")];
                   JObj [("$ref", JStr "#/components/parameters/limit")];
                   JNull])])])])].

Definition get_items : Endpoint :=
  mkEndpoint "GET" "/items" (JStr "") (JStr "") (JArr []).

(** Two operations. *)
Definition two_ops_doc : list (string * json) :=
  [("servers", JArr [JObj [("url", JStr "http://x")]]);
   ("paths", JObj
      [("/a", JObj [("get", JObj [("operationId", JStr "readA")])]);
       ("/b", JObj [("get", JObj [("operationId", JStr "readB")])])])].

(** * Properties *)

Unset Implicit Arguments.

(** ** Endpoint extraction *)

Lemma methods_loop_declared (path : string) (ms : list (string * json)) :
  operations_shaped ms ->
  forall acc,
    methods_loop path ms acc = Ok (acc ++ declared_operations path (JObj ms))%list.
Proof.
  unfold declared_operations; simpl.
  induction 1 as [| [m op] ms Hop Hms IH]; intros acc; simpl.
  - now rewrite app_nil_r.
  - destruct (is_http_method m) eqn:Hm; simpl.
    + destruct (Hop Hm) as [d Hd]. simpl in Hd. subst op. simpl.
      rewrite IH, <- app_assoc. reflexivity.
    + apply IH.
Qed.

Lemma paths_loop_declared (ps : list (string * json)) :
  paths_shaped ps ->
  forall acc, paths_loop ps acc = Ok (acc ++ declared_endpoints ps)%list.
Proof.
  induction 1 as [| [p item] ps Hitem Hps IH]; intros acc; simpl.
  - now rewrite app_nil_r.
  - destruct Hitem as [ms [Hms Hshape]]. simpl in Hms. subst item. simpl.
    rewrite (methods_loop_declared p ms Hshape). simpl.
    rewrite IH, <- app_assoc. reflexivity.
Qed.

Lemma list_endpoints_of_shaped (doc paths : list (string * json)) :
  Dict.lookup "paths" doc = Some (JObj paths) ->
  paths_shaped paths ->
  list_endpoints (JObj doc) = Ok (declared_endpoints paths).
Proof.
  intros Hl Hs. unfold list_endpoints, py_get, Dict.get. rewrite Hl. simpl.
  now rewrite (paths_loop_declared paths Hs).
Qed.

Lemma declared_operations_pairs (p : string) (item : json) :
  map (fun e => (e.(path), e.(method))) (declared_operations p item)
  = map (fun pm => (fst pm, upper (snd pm)))
      (filter (fun pm => is_http_method (snd pm))
         (map (fun mo => (p, fst mo)) (fields_of item))).
Proof.
  unfold declared_operations.
  induction (fields_of item) as [| [m op] l IH]; simpl; [reflexivity |].
  destruct (is_http_method m); simpl; now rewrite IH.
Qed.

Lemma declared_endpoints_pairs (ps : list (string * json)) :
  map (fun e => (e.(path), e.(method))) (declared_endpoints ps)
  = map (fun pm => (fst pm, upper (snd pm)))
      (filter (fun pm => is_http_method (snd pm)) (declared_pairs ps)).
Proof.
  unfold declared_endpoints, declared_pairs.
  induction ps as [| [p item] ps IH]; simpl; [reflexivity |].
  rewrite map_app, filter_app, map_app, IH, declared_operations_pairs.
  reflexivity.
Qed.

(** C4. On a document whose [paths] has the path/method/operation shape,
    [list_endpoints] returns, without error, exactly the declared endpoints:
    one descriptor for each (path, key) pair whose key is an HTTP verb in any
    letter case and none for the other keys, in declaration order, with the
    method upper-cased; a missing [summary], [operationId] or [parameters]
    reads as [''], [''], [[]]; a document without [paths] has no endpoint. *)
Theorem list_endpoints_declared :
  (forall (doc paths : list (string * json)),
      Dict.lookup "paths" doc = Some (JObj paths) ->
      paths_shaped paths ->
      list_endpoints (JObj doc) = Ok (declared_endpoints paths)
      /\ map (fun e => (e.(path), e.(method))) (declared_endpoints paths)
         = map (fun pm => (fst pm, upper (snd pm)))
             (filter (fun pm => is_http_method (snd pm)) (declared_pairs paths)))
  /\ (forall doc, Dict.lookup "paths" doc = None -> list_endpoints (JObj doc) = Ok [])
  /\ (forall m, is_http_method m = true <-> In (lower m) http_methods)
  /\ (forall p m op,
        (declared_endpoint p m op).(method) = upper m
        /\ (declared_endpoint p m op).(path) = p
        /\ (Dict.lookup "summary" op = None ->
            (declared_endpoint p m op).(summary) = JStr "")
        /\ (Dict.lookup "operationId" op = None ->
            (declared_endpoint p m op).(operationId) = JStr "")
        /\ (Dict.lookup "parameters" op = None ->
            (declared_endpoint p m op).(parameters) = JArr [])
        /\ (forall v, Dict.lookup "summary" op = Some v ->
            (declared_endpoint p m op).(summary) = v)
        /\ (forall v, Dict.lookup "operationId" op = Some v ->
            (declared_endpoint p m op).(operationId) = v)
        /\ (forall v, Dict.lookup "parameters" op = Some v ->
            (declared_endpoint p m op).(parameters) = v)).
Proof.
  split; [| split; [| split]].
  - intros doc paths Hl Hs. split.
    + now apply list_endpoints_of_shaped.
    + apply declared_endpoints_pairs.
  - intros doc Hl. unfold list_endpoints, py_get, Dict.get. now rewrite Hl.
  - intros m. unfold is_http_method. rewrite existsb_exists. split.
    + intros [x [Hin Hx]]. apply String.eqb_eq in Hx. now subst.
    + intros Hin. exists (lower m). split; [assumption | apply String.eqb_refl].
  - intros p m op. unfold declared_endpoint, field_or; simpl.
    repeat split; intros; try rewrite H; reflexivity.
Qed.

Lemma petstore_shaped : paths_shaped petstore_paths.
Proof.
  repeat first
    [ apply Forall_nil
    | apply Forall_cons
    | (eexists; split; [reflexivity |])
    | (intros H; vm_compute in H; first [discriminate H | eexists; reflexivity]) ].
Defined.

Lemma list_endpoints_declared_witness :
  list_endpoints (JObj petstore)
  = Ok [mkEndpoint "GET" "/pets" (JStr "List pets") (JStr "listPets") (JArr []);
        mkEndpoint "POST" "/pets" (JStr "") (JStr "addPet") (JArr []);
        mkEndpoint "DELETE" "/pets/{id}" (JStr "") (JStr "")
          (JArr [JObj [("name", JStr "id"); ("in", JStr "path")]])].
Proof.
  exact (proj1 (proj1 list_endpoints_declared petstore petstore_paths eq_refl
                  petstore_shaped)).
Defined.

(** ** Base URL resolution *)

(** C6, as stated, fails: the [servers] key may be present with an empty
    list; then there is no [servers[0]] and the code takes the Swagger 2
    branch. *)
Lemma base_url_servers_present_but_empty :
  Dict.lookup "servers" (("servers", JArr []) :: swagger2_doc) = Some (JArr [])
  /\ py_index0 (JArr []) = Err IndexError
  /\ base_url (JObj (("servers", JArr []) :: swagger2_doc))
     = Ok "https://api.example.com/v1".
Proof. repeat split. Qed.

(** C6, amended. The base URL is [servers[0].url] when [servers] is present
    and truthy (a non-empty list); when [servers] is absent or falsy it is
    [schemes[0] + '://' + host + basePath], where an absent [basePath] or
    [host] reads as the empty string and absent [schemes] as [['https']];
    [host] is not checked to be non-empty. *)
Theorem base_url_resolution :
  forall doc : list (string * json),
    (forall s0 rest u,
        Dict.lookup "servers" doc = Some (JArr (JObj s0 :: rest)) ->
        Dict.lookup "url" s0 = Some (JStr u) ->
        base_url (JObj doc) = Ok u)
    /\ (forall host base_path scheme rest,
          truthy (Dict.get doc "servers" (JArr [])) = false ->
          Dict.get doc "host" (JStr "") = JStr host ->
          Dict.get doc "basePath" (JStr "") = JStr base_path ->
          Dict.get doc "schemes" (JArr [JStr "https"]) = JArr (JStr scheme :: rest) ->
          base_url (JObj doc) = Ok (scheme ++ "://" ++ host ++ base_path))
    /\ (Dict.lookup "servers" doc = None ->
        truthy (Dict.get doc "servers" (JArr [])) = false)
    /\ (Dict.lookup "host" doc = None -> Dict.get doc "host" (JStr "") = JStr "")
    /\ (Dict.lookup "basePath" doc = None -> Dict.get doc "basePath" (JStr "") = JStr "")
    /\ (Dict.lookup "schemes" doc = None ->
        Dict.get doc "schemes" (JArr [JStr "https"]) = JArr [JStr "https"]).
Proof.
  intros doc. repeat split.
  - intros s0 rest u Hs Hu. unfold base_url, py_get, Dict.get. rewrite Hs. simpl.
    now rewrite Hu.
  - intros host bp scheme rest Ht Hh Hb Hsch. unfold base_url, py_get. simpl.
    rewrite Ht. simpl. now rewrite Hsch, Hh, Hb.
  - intros H. unfold Dict.get. now rewrite H.
  - intros H. unfold Dict.get. now rewrite H.
  - intros H. unfold Dict.get. now rewrite H.
  - intros H. unfold Dict.get. now rewrite H.
Qed.

Lemma base_url_resolution_witness :
  base_url (JObj swagger2_doc) = Ok "https://api.example.com/v1"
  /\ base_url (JObj [("servers", JArr [JObj [("url", JStr "http://x")]])]) = Ok "http://x"
  /\ base_url (JObj []) = Ok "https://".
Proof.
  split; [| split].
  - exact (proj1 (proj2 (base_url_resolution swagger2_doc))
             "api.example.com" "/v1" "https" [] eq_refl eq_refl eq_refl eq_refl).
  - exact (proj1 (base_url_resolution [("servers", JArr [JObj [("url", JStr "http://x")]])])
             [("url", JStr "http://x")] [] "http://x" eq_refl eq_refl).
  - exact (proj1 (proj2 (base_url_resolution [])) "" "" "https" []
             eq_refl eq_refl eq_refl eq_refl).
Defined.

(** ** Parameter bucketing *)

Lemma bind_params_app (pv : list (string * string)) (l1 l2 : list json) :
  forall b,
    bind_params pv b (l1 ++ l2)
    = (b1 <- bind_params pv b l1 ;; bind_params pv b1 l2).
Proof.
  induction l1 as [| p l1 IH]; intros b; simpl; [reflexivity |].
  destruct (bind_param pv b p); simpl; [apply IH | reflexivity].
Qed.

(** A parameter that is not located in the body leaves the body value alone. *)
Lemma bind_param_keeps_body (pv : list (string * string)) (b b' : Binding) (p : json) :
  (forall loc, py_getitem p "in" = Ok loc -> py_eq_str loc "body" = false) ->
  bind_param pv b p = Ok b' ->
  b'.(body_param) = b.(body_param).
Proof.
  unfold bind_param. intros Hloc.
  destruct (py_getitem p "name") as [nv |]; simpl; [| discriminate].
  destruct (as_str nv) as [n |]; simpl; [| discriminate].
  destruct (py_getitem p "in") as [loc |]; simpl; [| discriminate].
  rewrite (Hloc loc eq_refl).
  repeat match goal with
         | |- context [if ?c then _ else _] => destruct c
         end; intros H; injection H as <-; reflexivity.
Qed.

Lemma bind_params_keep_body (pv : list (string * string)) (l : list json) :
  Forall (fun p => forall loc, py_getitem p "in" = Ok loc -> py_eq_str loc "body" = false) l ->
  forall b b', bind_params pv b l = Ok b' -> b'.(body_param) = b.(body_param).
Proof.
  induction 1 as [| p l Hp Hl IH]; intros b b'; simpl.
  - intros H; injection H as <-; reflexivity.
  - destruct (bind_param pv b p) as [b1 |] eqn:E; simpl; [| discriminate].
    intros H. rewrite (IH _ _ H). eapply bind_param_keeps_body; eassumption.
Qed.

(** ** Operation lookup and language dispatch *)

Lemma lower_upper_char (c : ascii) : lower_char (upper_char c) = lower_char c.
Proof.
  destruct c as [[] [] [] [] [] [] [] []]; reflexivity.
Qed.

Lemma lower_upper (s : string) : lower (upper s) = lower s.
Proof.
  induction s as [| c s IH]; simpl; [reflexivity |].
  now rewrite lower_upper_char, IH.
Qed.

Lemma lookup_In {V : Type} (k : string) (d : list (string * V)) (v : V) :
  Dict.lookup k d = Some v -> In (k, v) d.
Proof.
  induction d as [| [k' v'] d IH]; simpl; [discriminate |].
  destruct (String.eqb_spec k k') as [-> | Hne].
  - intros H; injection H as ->. now left.
  - intros H. right. now apply IH.
Qed.

Lemma declared_operations_In (p m : string) (op : json) (item : list (string * json)) :
  In (m, op) item -> is_http_method m = true ->
  In (declared_endpoint p m (fields_of op)) (declared_operations p (JObj item)).
Proof.
  intros Hin Hm. unfold declared_operations.
  apply (in_map (fun kv => declared_endpoint p (fst kv) (fields_of (snd kv)))
           _ (m, op)).
  apply filter_In. split; assumption.
Qed.

Lemma declared_endpoints_In (p : string) (item : json) (e : Endpoint)
    (paths : list (string * json)) :
  In (p, item) paths -> In e (declared_operations p item) ->
  In e (declared_endpoints paths).
Proof.
  intros Hin He. unfold declared_endpoints. apply in_flat_map.
  exists (p, item). split; assumption.
Qed.

(** What a successful binding has read: the operation stored under the
    lower-cased method at the endpoint's path. *)
Lemma bind_request_reads_lowercase (doc : json) (ep : Endpoint)
    (pv : list (string * string)) (r : Request) :
  bind_request doc ep pv = Ok r ->
  exists paths item op,
    py_getitem doc "paths" = Ok paths
    /\ py_getitem paths ep.(path) = Ok item
    /\ py_getitem item (lower ep.(method)) = Ok op.
Proof.
  unfold bind_request. intros H.
  destruct (base_url doc); simpl in H; [| discriminate].
  destruct (py_getitem doc "paths") as [paths |] eqn:E1; simpl in H; [| discriminate].
  destruct (py_getitem paths (path ep)) as [item |] eqn:E2; simpl in H; [| discriminate].
  destruct (py_getitem item (lower (method ep))) as [op |] eqn:E3; simpl in H;
    [| discriminate].
  exists paths, item, op. auto.
Qed.

Lemma generate_script_ok_bound (doc : json) (ep : Endpoint)
    (pv : list (string * string)) (lang src : string) :
  generate_script doc ep pv lang = Ok src ->
  exists r, bind_request doc ep pv = Ok r.
Proof.
  unfold generate_script. destruct (bind_request doc ep pv) as [r |]; simpl.
  - intros _. now exists r.
  - discriminate.
Qed.

(** C10. [generate_script] ignores the descriptor's [parameters] (and
    [summary], [operationId]): it reads the operation again from
    [paths[path][lower(method)]]. So when a path item declares an operation
    under a key that is an HTTP verb in some other letter case and has no
    entry under the lower-cased key, [list_endpoints] lists a descriptor for
    it and [generate_script] on that descriptor fails, with [KeyError] of the
    lower-cased key once the base URL is resolved. A call that returns source
    text has found the lower-cased key at the endpoint's path. *)
Theorem generate_script_rereads_operation :
  (forall doc m p s o ps s' o' ps' pv lang,
      generate_script doc (mkEndpoint m p s o ps) pv lang
      = generate_script doc (mkEndpoint m p s' o' ps') pv lang)
  /\ (forall (doc paths item : list (string * json)) (p m : string) (op : json),
        Dict.lookup "paths" doc = Some (JObj paths) ->
        paths_shaped paths ->
        Dict.lookup p paths = Some (JObj item) ->
        In (m, op) item ->
        is_http_method m = true ->
        Dict.lookup (lower m) item = None ->
        let ep := declared_endpoint p m (fields_of op) in
        (exists eps, list_endpoints (JObj doc) = Ok eps /\ In ep eps)
        /\ (forall pv lang, is_ok (generate_script (JObj doc) ep pv lang) = false)
        /\ (forall pv lang base,
              base_url (JObj doc) = Ok base ->
              generate_script (JObj doc) ep pv lang = Err (KeyError (lower m))))
  /\ (forall doc ep pv lang src,
        generate_script doc ep pv lang = Ok src ->
        exists paths item op,
          py_getitem doc "paths" = Ok paths
          /\ py_getitem paths ep.(path) = Ok item
          /\ py_getitem item (lower ep.(method)) = Ok op).
Proof.
  split; [| split].
  - reflexivity.
  - intros doc paths item p m op Hpaths Hshape Hp Hin Hm Hlow ep.
    assert (Hbind : forall pv,
               bind_request (JObj doc) ep pv
               = (base <- base_url (JObj doc) ;; Err (KeyError (lower m)))).
    { intros pv. unfold bind_request. destruct (base_url (JObj doc)); simpl; [| reflexivity].
      rewrite Hpaths. simpl. rewrite Hp. simpl.
      rewrite lower_upper, Hlow. reflexivity. }
    split; [| split].
    + exists (declared_endpoints paths). split.
      * now apply list_endpoints_of_shaped.
      * apply declared_endpoints_In with (p := p) (item := JObj item).
        -- now apply lookup_In.
        -- now apply declared_operations_In.
    + intros pv lang. unfold generate_script. rewrite Hbind.
      destruct (base_url (JObj doc)); reflexivity.
    + intros pv lang base Hbase. unfold generate_script. rewrite Hbind, Hbase.
      reflexivity.
  - intros doc ep pv lang src H.
    destruct (generate_script_ok_bound _ _ _ _ _ H) as [r Hr].
    eapply bind_request_reads_lowercase; eassumption.
Qed.

Lemma generate_script_rereads_operation_witness :
  (exists eps, list_endpoints (JObj petstore) = Ok eps /\ In list_pets eps)
  /\ generate_script (JObj petstore) list_pets [] "Python" = Err (KeyError "get").
Proof.
  pose proof (proj1 (proj2 generate_script_rereads_operation)
                petstore petstore_paths pets_item "/pets" "GET"
                (JObj [("summary", JStr "List pets"); ("operationId", JStr "listPets")])
                eq_refl petstore_shaped eq_refl (or_intror (or_introl eq_refl))
                eq_refl eq_refl) as H.
  destruct H as [H1 [_ H3]]. split.
  - exact H1.
  - exact (H3 [] "Python" "https://" eq_refl).
Defined.

Lemma generate_script_dispatch (spec : json) (ep : Endpoint)
    (pv : list (string * string)) (lang : string) (r : Request) :
  bind_request spec ep pv = Ok r ->
  (In lang languages -> generate_script spec ep pv lang = Ok (renderer_of lang r))
  /\ (~ In lang languages ->
      generate_script spec ep pv lang
      = Err (UnsupportedLanguage ("Unsupported language: " ++ lang))).
Proof.
  intros Hr. unfold generate_script, renderer_of. rewrite Hr. simpl.
  destruct (String.eqb_spec lang "Python") as [-> | H1];
    [split; [reflexivity | intros H; exfalso; apply H; simpl; auto] |].
  destruct (String.eqb_spec lang "C#") as [-> | H2];
    [split; [reflexivity | intros H; exfalso; apply H; simpl; auto] |].
  destruct (String.eqb_spec lang "JavaScript") as [-> | H3];
    [split; [reflexivity | intros H; exfalso; apply H; simpl; auto] |].
  destruct (String.eqb_spec lang "PHP") as [-> | H4];
    [split; [reflexivity | intros H; exfalso; apply H; simpl; auto 6] |].
  split; [| reflexivity].
  simpl. intros [H | [H | [H | [H | []]]]]; congruence.
Qed.

Lemma bind_no_unsupported {A B : Type} (r : result A) (k : A -> result B) :
  raises_no_unsupported r ->
  (forall a, raises_no_unsupported (k a)) ->
  raises_no_unsupported (bind r k).
Proof.
  intros Hr Hk e. destruct r as [a | e']; simpl.
  - apply Hk.
  - intros H; injection H as <-. now apply Hr.
Qed.

Lemma ok_no_unsupported {A : Type} (a : A) : raises_no_unsupported (Ok a).
Proof. intros e H; discriminate H. Qed.

Lemma py_get_no_unsupported v k d : raises_no_unsupported (py_get v k d).
Proof. intros e; destruct v; simpl; intros H; inversion H; reflexivity. Qed.

Lemma py_getitem_no_unsupported v k : raises_no_unsupported (py_getitem v k).
Proof.
  intros e; destruct v; simpl; try (intros H; inversion H; reflexivity).
  destruct (Dict.lookup k items); intros H; inversion H; reflexivity.
Qed.

Lemma py_index0_no_unsupported v : raises_no_unsupported (py_index0 v).
Proof.
  intros e; destruct v as [| | | s | l | d]; simpl; try (intros H; inversion H; reflexivity).
  - destruct s; intros H; inversion H; reflexivity.
  - destruct l; intros H; inversion H; reflexivity.
Qed.

Lemma py_iter_no_unsupported v : raises_no_unsupported (py_iter v).
Proof. intros e; destruct v; simpl; intros H; inversion H; reflexivity. Qed.

Lemma as_str_no_unsupported v : raises_no_unsupported (as_str v).
Proof. intros e; destruct v; simpl; intros H; inversion H; reflexivity. Qed.

Create HintDb unsupported.
#[local] Hint Resolve ok_no_unsupported py_get_no_unsupported py_getitem_no_unsupported
  py_index0_no_unsupported py_iter_no_unsupported as_str_no_unsupported : unsupported.

Ltac no_unsupported :=
  repeat first
    [ apply bind_no_unsupported; [solve [auto with unsupported] | intros ?]
    | solve [auto with unsupported]
    | match goal with
      | |- raises_no_unsupported (if ?c then _ else _) => destruct c
      end ].

Lemma base_url_no_unsupported spec : raises_no_unsupported (base_url spec).
Proof. unfold base_url. no_unsupported. Qed.

Lemma bind_param_no_unsupported pv b p : raises_no_unsupported (bind_param pv b p).
Proof. unfold bind_param. no_unsupported. Qed.

Lemma bind_params_no_unsupported pv l :
  forall b, raises_no_unsupported (bind_params pv b l).
Proof.
  induction l as [| p l IH]; intros b; simpl.
  - apply ok_no_unsupported.
  - apply bind_no_unsupported; [apply bind_param_no_unsupported | intros; apply IH].
Qed.

Lemma bind_request_no_unsupported spec ep pv :
  raises_no_unsupported (bind_request spec ep pv).
Proof.
  unfold bind_request.
  apply bind_no_unsupported; [apply base_url_no_unsupported | intros ?].
  do 5 (apply bind_no_unsupported; [solve [auto with unsupported] | intros ?]).
  apply bind_no_unsupported; [apply bind_params_no_unsupported | intros ?].
  apply ok_no_unsupported.
Qed.

(** C8, as stated, fails on a descriptor that [list_endpoints] itself lists:
    the operation lookup precedes the dispatch, so a recognised language may
    get no source text, and an unrecognised one an error other than the
    unsupported-language one. *)
Lemma generate_script_lookup_precedes_dispatch :
  (exists eps, list_endpoints (JObj petstore) = Ok eps /\ In list_pets eps)
  /\ generate_script (JObj petstore) list_pets [] "Python" = Err (KeyError "get")
  /\ generate_script (JObj petstore) list_pets [] "Rust" = Err (KeyError "get")
  /\ generate_script (JObj []) list_pets [] "Rust" = Err (KeyError "paths").
Proof.
  split; [| repeat split].
  exists (declared_endpoints petstore_paths). split.
  - exact (list_endpoints_of_shaped petstore petstore_paths eq_refl petstore_shaped).
  - simpl. auto.
Qed.

(** C8, amended. Whenever the request binds (the operation is found and its
    parameters are read), [generate_script] returns source text for each of
    the four recognised names and fails with the unsupported-language error
    exactly for the other names; that error is never raised for a recognised
    name, and an unrecognised name always fails. A failing call writes no
    file: the generation loop stops at it with the disk as it was, whatever
    the file system does, and with an unrecognised name it writes nothing at
    all. *)
Theorem generate_script_language_dispatch :
  forall (spec : json) (ep : Endpoint) (lang : string),
    (forall pv r,
        bind_request spec ep pv = Ok r ->
        (In lang languages -> exists src, generate_script spec ep pv lang = Ok src)
        /\ (generate_script spec ep pv lang
            = Err (UnsupportedLanguage ("Unsupported language: " ++ lang))
            <-> ~ In lang languages))
    /\ (forall pv e,
          generate_script spec ep pv lang = Err e ->
          is_unsupported e = true -> ~ In lang languages)
    /\ (forall pv, ~ In lang languages -> is_ok (generate_script spec ep pv lang) = false)
    /\ (forall io_of pvs separate_files output_dir cwd rest log k e,
          Gui.key_of ep.(operationId) = Ok k ->
          generate_script spec ep (Gui.values_for pvs k) lang = Err e ->
          Gui.generate_loop io_of spec pvs lang separate_files output_dir cwd (ep :: rest) log
          = (log, Gui.Failed (Gui.py_str ep.(operationId)) e))
    /\ (forall io_of pvs separate_files output_dir cwd eps log,
          ~ In lang languages ->
          fst (Gui.on_generate_script io_of spec pvs lang separate_files output_dir cwd
                 eps log)
          = log).
Proof.
  intros spec ep lang.
  assert (Hfail : forall ep' pv, ~ In lang languages ->
                            is_ok (generate_script spec ep' pv lang) = false).
  { intros ep' pv Hnot. destruct (bind_request spec ep' pv) as [r | e] eqn:Hb.
    - now rewrite (proj2 (generate_script_dispatch _ _ _ lang _ Hb) Hnot).
    - unfold generate_script. now rewrite Hb. }
  split; [| split; [| split; [| split]]].
  - intros pv r Hb. destruct (generate_script_dispatch _ _ _ lang _ Hb) as [Hin Hout].
    split.
    + intros H. eexists. now apply Hin.
    + split.
      * intros Herr Hmem. rewrite (Hin Hmem) in Herr. discriminate Herr.
      * exact Hout.
  - intros pv e Herr Hun Hmem.
    destruct (bind_request spec ep pv) as [r | e'] eqn:Hb.
    + rewrite (proj1 (generate_script_dispatch _ _ _ lang _ Hb) Hmem) in Herr.
      discriminate Herr.
    + unfold generate_script in Herr. rewrite Hb in Herr. simpl in Herr.
      injection Herr as <-.
      rewrite (bind_request_no_unsupported spec ep pv e' Hb) in Hun. discriminate Hun.
  - intros pv. apply Hfail.
  - intros io_of pvs sep out cwd rest log k e Hid Herr.
    cbn [Gui.generate_loop]. now rewrite Hid, Herr.
  - intros io_of pvs sep out cwd eps log Hnot. destruct eps as [| ep' rest].
    + reflexivity.
    + unfold Gui.on_generate_script.
      destruct (sep && String.eqb out ""); [reflexivity |]. cbn [Gui.generate_loop].
      destruct (Gui.key_of (operationId ep')) as [k |]; [| reflexivity].
      specialize (Hfail ep' (Gui.values_for pvs k) Hnot).
      destruct (generate_script spec ep' (Gui.values_for pvs k) lang);
        [discriminate Hfail | reflexivity].
Qed.

Lemma generate_script_language_dispatch_witness :
  (exists src, generate_script (JObj openapi3_doc) create_y [] "PHP" = Ok src)
  /\ generate_script (JObj openapi3_doc) create_y [] "Rust"
     = Err (UnsupportedLanguage "Unsupported language: Rust")
  /\ fst (Gui.on_generate_script (fun _ _ _ => Gui.Stored) (JObj openapi3_doc) [] "Rust"
            false "" "/tmp" [create_y] [("/tmp/kept.txt", "x")])
     = [("/tmp/kept.txt", "x")].
Proof.
  pose proof (generate_script_language_dispatch (JObj openapi3_doc) create_y "PHP") as Hphp.
  pose proof (generate_script_language_dispatch (JObj openapi3_doc) create_y "Rust") as Hrust.
  assert (Hnot : ~ In "Rust" languages).
  { simpl. intros [H | [H | [H | [H | []]]]]; discriminate H. }
  split; [| split].
  - apply (proj1 (proj1 Hphp [] _ eq_refl)). simpl. auto.
  - apply (proj2 (proj1 Hrust [] _ eq_refl)). exact Hnot.
  - apply (proj2 (proj2 (proj2 (proj2 Hrust)))). exact Hnot.
Defined.


(** ** Format detection *)

Lemma chosen_formats_cases (ct url : string) :
  (wants_json ct url = true /\ chosen_formats ct url = [Json])
  \/ (wants_json ct url = false /\ wants_yaml ct url = true
      /\ chosen_formats ct url = [Yaml])
  \/ (wants_json ct url = false /\ wants_yaml ct url = false
      /\ chosen_formats ct url = [Json; Yaml]).
Proof.
  unfold chosen_formats, wants_json, wants_yaml.
  destruct (contains "application/json" ct || endswith ".json" url); [now left |].
  destruct (contains "application/yaml" ct || contains "application/x-yaml" ct
            || (endswith ".yaml" url || endswith ".yml" url)); [right; now left |].
  right; now right.
Qed.

(** C9. After a 200 response, [fetch_spec] parses as JSON when the
    (lower-cased) content type contains [application/json] or the URL ends in
    [.json]; otherwise as YAML when the content type contains
    [application/yaml] or [application/x-yaml] or the URL ends in [.yaml] or
    [.yml]; otherwise as JSON and, on failure, as YAML. It fails with a parse
    error exactly when every format so chosen fails, and the error message
    ends with the message of the last parser tried. *)
Theorem fetch_spec_format_policy :
  forall (requests_get : string -> Response) (json_loads yaml_safe_load : string -> parsed)
         (url : string),
    (requests_get url).(status_code) = 200 ->
    let ct := lower (requests_get url).(content_type) in
    let body := (requests_get url).(text) in
    let fetched := fetch_spec requests_get json_loads yaml_safe_load url in
    let formats := chosen_formats ct url in
    fetched = parse_first json_loads yaml_safe_load (failure_prefix formats) formats body
    /\ (contains "application/json" ct = true \/ endswith ".json" url = true ->
        formats = [Json])
    /\ (contains "application/json" ct = false -> endswith ".json" url = false ->
        contains "application/yaml" ct = true
        \/ contains "application/x-yaml" ct = true
        \/ endswith ".yaml" url = true \/ endswith ".yml" url = true ->
        formats = [Yaml])
    /\ (contains "application/json" ct = false -> endswith ".json" url = false ->
        contains "application/yaml" ct = false ->
        contains "application/x-yaml" ct = false ->
        endswith ".yaml" url = false -> endswith ".yml" url = false ->
        formats = [Json; Yaml])
    /\ ((exists msg, fetched = Err (ParseError msg))
        <-> Forall (fun f => exists e,
                        parse_with json_loads yaml_safe_load f body = Unparsed e) formats)
    /\ (forall e, fetched = Err e ->
        exists msg_e, e = ParseError (failure_prefix formats ++ msg_e)
                      /\ parse_with json_loads yaml_safe_load (last formats Json) body
                         = Unparsed msg_e)
    /\ (forall doc, fetched = Ok doc ->
        exists f, In f formats /\ parse_with json_loads yaml_safe_load f body = Parsed doc).
Proof.
  intros get jl yl url Hstatus ct body fetched formats.
  assert (Hrun : fetched = parse_first jl yl (failure_prefix formats) formats body).
  { unfold fetched, fetch_spec. rewrite Hstatus. simpl.
    fold ct. fold body. unfold formats.
    destruct (chosen_formats_cases ct url) as [[Hj ->] | [[Hj [Hy ->]] | [Hj [Hy ->]]]];
      rewrite Hj; try rewrite Hy; simpl.
    - destruct (jl body); reflexivity.
    - destruct (yl body); reflexivity.
    - destruct (jl body); [reflexivity |]. destruct (yl body); reflexivity. }
  split; [exact Hrun |].
  split; [| split; [| split]].
  - intros H. unfold formats, chosen_formats.
    destruct H as [-> | ->]; [reflexivity | now rewrite orb_true_r].
  - intros H1 H2 H. unfold formats, chosen_formats. rewrite H1, H2. simpl.
    destruct H as [-> | [-> | [-> | ->]]]; simpl; rewrite ?orb_true_r; reflexivity.
  - intros H1 H2 H3 H4 H5 H6. unfold formats, chosen_formats.
    now rewrite H1, H2, H3, H4, H5, H6.
  - rewrite Hrun. clear Hrun fetched. unfold formats.
    destruct (chosen_formats_cases ct url) as [[_ ->] | [[_ [_ ->]] | [_ [_ ->]]]];
      simpl; unfold parse_with.
    + split; [| split].
      * split.
        -- intros [msg H]. destruct (jl body) as [d | e]; [discriminate H |].
           repeat constructor. now exists e.
        -- intros H. inversion H as [| f l [e He] _]; subst. rewrite He. eauto.
      * intros e H. destruct (jl body) as [d | m]; [discriminate H |].
        injection H as <-. eauto.
      * intros doc H. destruct (jl body) as [d | m] eqn:E; [| discriminate H].
        injection H as <-. exists Json. simpl. auto.
    + split; [| split].
      * split.
        -- intros [msg H]. destruct (yl body) as [d | e]; [discriminate H |].
           repeat constructor. now exists e.
        -- intros H. inversion H as [| f l [e He] _]; subst. rewrite He. eauto.
      * intros e H. destruct (yl body) as [d | m]; [discriminate H |].
        injection H as <-. eauto.
      * intros doc H. destruct (yl body) as [d | m] eqn:E; [| discriminate H].
        injection H as <-. exists Yaml. simpl. auto.
    + split; [| split].
      * split.
        -- intros [msg H]. destruct (jl body) as [d | e]; [discriminate H |].
           destruct (yl body) as [d | e']; [discriminate H |].
           repeat constructor; eauto.
        -- intros H. inversion H as [| f l [e He] Hrest]; subst.
           inversion Hrest as [| f' l' [e' He'] _]; subst.
           rewrite He, He'. eauto.
      * intros e H. destruct (jl body) as [d | m]; [discriminate H |].
        destruct (yl body) as [d | m']; [discriminate H |].
        injection H as <-. eauto.
      * intros doc H. destruct (jl body) as [d | m] eqn:E.
        -- injection H as <-. exists Json. simpl. auto.
        -- destruct (yl body) as [d | m'] eqn:E'; [| discriminate H].
           injection H as <-. exists Yaml. simpl. auto.
Qed.

Lemma fetch_spec_format_policy_witness :
  fetch_spec (fun _ => mkResponse 200 "Text/Plain" "openapi: 3.0.0")
    (fun _ => Unparsed "Expecting value: line 1 column 1 (char 0)")
    (fun _ => Parsed (JObj [("openapi", JStr "3.0.0")]))
    "http://example.com/spec"
  = Ok (JObj [("openapi", JStr "3.0.0")])
  /\ fetch_spec (fun _ => mkResponse 200 "Application/JSON; charset=utf-8" "openapi: 3.0.0")
       (fun _ => Unparsed "Expecting value: line 1 column 1 (char 0)")
       (fun _ => Parsed (JObj [("openapi", JStr "3.0.0")]))
       "http://example.com/spec"
     = Err (ParseError
         "Failed to parse JSON specification: Expecting value: line 1 column 1 (char 0)").
Proof.
  split.
  - exact (proj1 (fetch_spec_format_policy
                    (fun _ => mkResponse 200 "Text/Plain" "openapi: 3.0.0")
                    (fun _ => Unparsed "Expecting value: line 1 column 1 (char 0)")
                    (fun _ => Parsed (JObj [("openapi", JStr "3.0.0")]))
                    "http://example.com/spec" eq_refl)).
  - exact (proj1 (fetch_spec_format_policy
                    (fun _ => mkResponse 200 "Application/JSON; charset=utf-8"
                                "openapi: 3.0.0")
                    (fun _ => Unparsed "Expecting value: line 1 column 1 (char 0)")
                    (fun _ => Parsed (JObj [("openapi", JStr "3.0.0")]))
                    "http://example.com/spec" eq_refl)).
Defined.

(** ** Strings: concatenation, prefixes, occurrences *)

Lemma append_nil_r (s : string) : s ++ "" = s.
Proof. induction s as [| c s IH]; simpl; [reflexivity | now rewrite IH]. Qed.

Lemma append_assoc (a b c : string) : (a ++ b) ++ c = a ++ b ++ c.
Proof. induction a as [| x a IH]; simpl; [reflexivity | now rewrite IH]. Qed.

Lemma length_append (a b : string) :
  String.length (a ++ b) = String.length a + String.length b.
Proof. induction a as [| x a IH]; simpl; [reflexivity | now rewrite IH]. Qed.

Lemma has_char_app (c : ascii) (a b : string) :
  has_char c (a ++ b) = has_char c a || has_char c b.
Proof.
  induction a as [| x a IH]; simpl; [reflexivity |].
  now rewrite IH, orb_assoc.
Qed.

Lemma startswith_app (p s : string) : startswith p (p ++ s) = true.
Proof.
  induction p as [| x p IH]; simpl; [reflexivity |].
  now rewrite Ascii.eqb_refl, IH.
Qed.

Lemma startswith_length (p s : string) :
  startswith p s = true -> String.length p <= String.length s.
Proof.
  revert s. induction p as [| x p IH]; intros s; simpl; [lia |].
  destruct s as [| y s]; [discriminate |].
  intros H. apply andb_true_iff in H as [_ H]. apply IH in H. simpl. lia.
Qed.

(** A character that does not occur in [p] ends every match of [p]: whether
    [p] starts [a ++ c :: b] is decided inside [a]. *)
Lemma startswith_sep (p : string) :
  forall (a : string) (c : ascii) (b : string),
    has_char c p = false ->
    startswith p (a ++ String c b) = startswith p a.
Proof.
  induction p as [| x p IH]; intros a c b Hc; simpl; [reflexivity |].
  simpl in Hc. apply orb_false_iff in Hc as [Hx Hp].
  destruct a as [| y a]; simpl.
  - rewrite Ascii.eqb_sym, Hx. reflexivity.
  - now rewrite (IH a c b Hp).
Qed.

Lemma contains_sep (p a : string) (c : ascii) (b : string) :
  has_char c p = false ->
  contains p (a ++ String c b) = contains p a || contains p b.
Proof.
  intros Hc. induction a as [| y a IH].
  - simpl. destruct p as [| x p]; [reflexivity |].
    simpl in Hc. apply orb_false_iff in Hc as [Hx _].
    simpl. now rewrite Ascii.eqb_sym, Hx.
  - change (contains p (String y a ++ String c b))
      with (startswith p (String y a ++ String c b) || contains p (a ++ String c b)).
    rewrite (startswith_sep p (String y a) c b Hc), IH.
    change (contains p (String y a)) with (startswith p (String y a) || contains p a).
    now rewrite !orb_assoc.
Qed.

Lemma contains_tail (p : string) (c : ascii) (s : string) :
  contains p (String c s) = false -> contains p s = false.
Proof.
  change (contains p (String c s)) with (startswith p (String c s) || contains p s).
  intros H. now apply orb_false_iff in H.
Qed.

Lemma contains_not_startswith (p s : string) :
  contains p s = false -> startswith p s = false.
Proof.
  destruct s; simpl; intros H; now apply orb_false_iff in H.
Qed.

Lemma endswith_app (pre suf : string) : endswith suf (pre ++ suf) = true.
Proof.
  induction pre as [| c pre IH]; simpl.
  - destruct suf; simpl; now rewrite ?String.eqb_refl, ?Ascii.eqb_refl.
  - now rewrite IH, orb_true_r.
Qed.

(** ** [str.replace] *)

Section Replace.

Variables (old new : string).

Lemma replace_from_skip (u rest : string) :
  replace_from old new (String.length u) (u ++ rest) = replace_from old new 0 rest.
Proof.
  induction u as [| c u IH]; simpl; [| exact IH].
  destruct rest; reflexivity.
Qed.

(** No occurrence: the text is returned as it is. *)
Lemma replace_no_occurrence (s : string) :
  contains old s = false -> replace old new s = s.
Proof.
  unfold replace. induction s as [| c s IH]; intros H; [reflexivity |].
  pose proof (contains_not_startswith _ _ H) as Hs.
  apply contains_tail in H.
  change (replace_from old new 0 (String c s))
    with (if startswith old (String c s)
          then new ++ replace_from old new (String.length old - 1) s
          else String c (replace_from old new 0 s)).
  now rewrite Hs, (IH H).
Qed.

(** Positions of [w] at which no occurrence starts are copied. *)
Lemma replace_copies (w q : string) :
  no_start old w q = true -> replace old new (w ++ q) = w ++ replace old new q.
Proof.
  unfold replace. induction w as [| c w IH]; intros H; [reflexivity |].
  simpl in H. apply andb_true_iff in H as [H1 H2]. apply negb_true_iff in H1.
  change (replace_from old new 0 (String c w ++ q))
    with (if startswith old (String c (w ++ q))
          then new ++ replace_from old new (String.length old - 1) (w ++ q)
          else String c (replace_from old new 0 (w ++ q))).
  now rewrite H1, (IH H2).
Qed.

End Replace.

Section ReplaceHeaded.

(** The searched text starts with a character that it does not repeat, as a
    placeholder [{name}] does when the name holds no opening brace. *)
Variables (c : ascii) (t new : string).
Hypothesis c_fresh : has_char c t = false.

Local Abbreviation old := (String c t).

Lemma startswith_headed (a b : string) :
  a <> "" -> startswith old (a ++ String c b) = startswith old a.
Proof.
  destruct a as [| y a]; [congruence |]. intros _. simpl.
  now rewrite (startswith_sep t a c b c_fresh).
Qed.

(** At an occurrence: the replacement, then the rest of the text. *)
Lemma replace_at_occurrence (rest : string) :
  replace old new (old ++ rest) = new ++ replace old new rest.
Proof.
  unfold replace.
  change (replace_from (String c t) new 0 (String c t ++ rest))
    with (if startswith (String c t) (String c t ++ rest)
          then new ++ replace_from (String c t) new (String.length (String c t) - 1)
                        (t ++ rest)
          else String c (replace_from (String c t) new 0 (t ++ rest))).
  rewrite startswith_app.
  replace (String.length (String c t) - 1) with (String.length t) by (simpl; lia).
  now rewrite replace_from_skip.
Qed.

(** The scan never runs across the head character: replacing in
    [u ++ c :: v] is replacing in [u], then in [c :: v]. *)
Lemma replace_from_split (u v : string) :
  forall k, k <= String.length u ->
    replace_from old new k (u ++ String c v)
    = replace_from old new k u ++ replace_from old new 0 (String c v).
Proof.
  induction u as [| y u IH]; intros k Hk.
  - simpl in Hk. assert (k = 0) by lia. subst k. reflexivity.
  - destruct k as [| k].
    + change (replace_from old new 0 (String y u ++ String c v))
        with (if startswith old (String y u ++ String c v)
              then new ++ replace_from old new (String.length old - 1) (u ++ String c v)
              else String y (replace_from old new 0 (u ++ String c v))).
      change (replace_from old new 0 (String y u))
        with (if startswith old (String y u)
              then new ++ replace_from old new (String.length old - 1) u
              else String y (replace_from old new 0 u)).
      rewrite startswith_headed by discriminate.
      destruct (startswith old (String y u)) eqn:Hs.
      * apply startswith_length in Hs. simpl in Hs.
        rewrite IH by (simpl; lia).
        now rewrite append_assoc.
      * rewrite IH by lia. reflexivity.
    + simpl in Hk. simpl. apply IH. lia.
Qed.

Lemma replace_split (u v : string) :
  replace old new (u ++ String c v)
  = replace old new u ++ replace old new (String c v).
Proof. unfold replace. apply replace_from_split. lia. Qed.

(** Text without occurrence, an occurrence, more text. *)
Lemma replace_piece (p rest : string) :
  contains old p = false ->
  replace old new (p ++ old ++ rest) = p ++ new ++ replace old new rest.
Proof.
  intros Hp.
  change (p ++ old ++ rest) with (p ++ String c (t ++ rest)).
  rewrite replace_split, (replace_no_occurrence old new p Hp).
  change (String c (t ++ rest)) with (old ++ rest).
  now rewrite replace_at_occurrence.
Qed.

(** [s.replace(old, new) == new.join(s.split(old))] *)
Lemma replace_join (pieces : list string) :
  Forall (fun p => contains old p = false) pieces ->
  replace old new (join old pieces) = join new pieces.
Proof.
  induction 1 as [| p pieces Hp Hrest IH]; [reflexivity |].
  destruct pieces as [| p' pieces].
  - simpl. now apply replace_no_occurrence.
  - change (join old (p :: p' :: pieces)) with (p ++ old ++ join old (p' :: pieces)).
    change (join new (p :: p' :: pieces)) with (p ++ new ++ join new (p' :: pieces)).
    now rewrite (replace_piece p _ Hp), IH.
Qed.

End ReplaceHeaded.

(** ** Path substitution *)

Lemma brace_free_spec (name : string) :
  brace_free name = true -> has_char "{" name = false /\ has_char "}" name = false.
Proof.
  unfold brace_free. intros H. apply andb_true_iff in H as [H1 H2].
  now apply negb_true_iff in H1; apply negb_true_iff in H2.
Qed.

Lemma placeholder_headed (name : string) :
  has_char "{" name = false ->
  placeholder name = String "{" (name ++ "}") /\ has_char "{" (name ++ "}") = false.
Proof.
  intros H. split; [reflexivity |]. now rewrite has_char_app, H.
Qed.

(** Two names without the closing character that match up to it are equal. *)
Lemma startswith_closing (c : ascii) (a : string) :
  forall x q,
    has_char c a = false -> has_char c x = false ->
    startswith (a ++ String c "") (x ++ String c q) = true -> a = x.
Proof.
  induction a as [| z a IH]; intros x q Ha Hx; destruct x as [| y x]; simpl.
  - reflexivity.
  - simpl in Hx. apply orb_false_iff in Hx as [Hy _].
    rewrite Hy. discriminate.
  - simpl in Ha. apply orb_false_iff in Ha as [Hz _].
    rewrite Ascii.eqb_sym, Hz. discriminate.
  - simpl in Ha, Hx.
    apply orb_false_iff in Ha as [_ Ha]. apply orb_false_iff in Hx as [_ Hx].
    intros H. apply andb_true_iff in H as [Hzy H].
    apply Ascii.eqb_eq in Hzy. subst y. f_equal. exact (IH x q Ha Hx H).
Qed.

Lemma no_start_fresh (c : ascii) (t w q : string) :
  has_char c w = false -> no_start (String c t) w q = true.
Proof.
  induction w as [| y w IH]; intros H; [reflexivity |].
  simpl in H. apply orb_false_iff in H as [Hy Hw].
  simpl. now rewrite Hy, (IH Hw).
Qed.

(** Another name's placeholder is passed over. *)
Lemma placeholder_copied (a x q : string) :
  brace_free a = true -> brace_free x = true -> a <> x ->
  no_start (placeholder a) (placeholder x) q = true.
Proof.
  intros Ha Hx Hne.
  apply brace_free_spec in Ha as [Ha1 Ha2]. apply brace_free_spec in Hx as [Hx1 Hx2].
  change (placeholder x) with (String "{" (x ++ "}")).
  change (no_start (placeholder a) (String "{" (x ++ "}")) q)
    with (negb (startswith (placeholder a) (String "{" (x ++ "}") ++ q))
          && no_start (placeholder a) (x ++ "}") q).
  apply andb_true_iff. split.
  - apply negb_true_iff.
    destruct (startswith (placeholder a) (String "{" (x ++ "}") ++ q)) eqn:E;
      [| reflexivity].
    exfalso. apply Hne.
    change (startswith (a ++ "}") ((x ++ "}") ++ q) = true) in E.
    rewrite append_assoc in E.
    exact (startswith_closing "}" a x q Ha2 Hx2 E).
  - change (placeholder a) with (String "{" (a ++ "}")).
    apply no_start_fresh. now rewrite has_char_app, Hx1.
Qed.

Lemma replace_keeps_placeholder (a value x p q : string) :
  brace_free a = true -> brace_free x = true -> a <> x ->
  replace (placeholder a) value (p ++ placeholder x ++ q)
  = replace (placeholder a) value p ++ placeholder x
    ++ replace (placeholder a) value q.
Proof.
  intros Ha Hx Hne.
  destruct (placeholder_headed a (proj1 (brace_free_spec a Ha))) as [Hpa Hfresh].
  rewrite Hpa.
  change (p ++ placeholder x ++ q) with (p ++ String "{" ((x ++ "}") ++ q)).
  rewrite (replace_split "{" (a ++ "}") value Hfresh).
  f_equal.
  change (String "{" ((x ++ "}") ++ q)) with (placeholder x ++ q).
  rewrite <- Hpa.
  apply replace_copies. now apply placeholder_copied.
Qed.

Lemma substitute_path_app (l1 l2 : list (string * string)) :
  forall url, substitute_path (l1 ++ l2) url = substitute_path l2 (substitute_path l1 url).
Proof.
  induction l1 as [| [n v] l1 IH]; intros url; simpl; [reflexivity | apply IH].
Qed.

Lemma substitute_keeps_placeholder (x : string) (pps : list (string * string)) :
  brace_free x = true ->
  Forall (fun pp => brace_free (fst pp) = true /\ fst pp <> x) pps ->
  forall p q, exists p' q',
    substitute_path pps (p ++ placeholder x ++ q) = p' ++ placeholder x ++ q'.
Proof.
  intros Hx. induction 1 as [| [n v] pps [Hn Hne] Hrest IH]; intros p q.
  - now exists p, q.
  - simpl in Hn, Hne.
    change (substitute_path ((n, v) :: pps) (p ++ placeholder x ++ q))
      with (substitute_path pps (replace (placeholder n) v (p ++ placeholder x ++ q))).
    rewrite (replace_keeps_placeholder n v x p q Hn Hx Hne).
    apply IH.
Qed.

Lemma substitute_no_placeholder (url : string) (pps : list (string * string)) :
  Forall (fun pp => contains (placeholder (fst pp)) url = false) pps ->
  substitute_path pps url = url.
Proof.
  induction 1 as [| [n v] pps Hn Hrest IH]; [reflexivity |].
  simpl in Hn.
  change (substitute_path ((n, v) :: pps) url)
    with (substitute_path pps (replace (placeholder n) v url)).
  now rewrite (replace_no_occurrence _ v url Hn).
Qed.

(** ** Finding a segment in generated text *)

Ltac right_nest := rewrite ?append_assoc.

Lemma contains_prefix (p s : string) : startswith p s = true -> contains p s = true.
Proof. destruct s; simpl; intros ->; reflexivity. Qed.

Lemma contains_app_skip (p a b : string) :
  contains p b = true -> contains p (a ++ b) = true.
Proof.
  intros H. induction a as [| c a IH]; [exact H |].
  change (contains p (String c a ++ b))
    with (startswith p (String c (a ++ b)) || contains p (a ++ b)).
  now rewrite IH, orb_true_r.
Qed.

Ltac find_segment :=
  repeat first
    [ (apply contains_prefix; reflexivity)
    | apply contains_app_skip ].

(** ** Renderers: payload precedence *)

(** In the C#, JavaScript and PHP renderers the form branch is the [elif] of
    the body branch: with a body, the form parameters do not reach the
    output. *)
Lemma body_over_form_elif (url method : string) (query headers : list (string * string))
    (body : option string) (form : list (string * string)) :
  body_truthy body = true ->
  generate_csharp_code url method query headers body form
  = generate_csharp_code url method query headers body []
  /\ generate_javascript_code url method query headers body form
     = generate_javascript_code url method query headers body []
  /\ generate_php_code url method query headers body form
     = generate_php_code url method query headers body [].
Proof.
  intros Hb.
  unfold generate_csharp_code, generate_javascript_code, generate_php_code.
  rewrite Hb. repeat split.
Qed.

(** In the Python renderer the two payload tests are independent: with a body
    and a form, the call gets both arguments. *)
Lemma python_passes_both_payloads (url method : string)
    (query headers : list (string * string)) (body : option string)
    (form : list (string * string)) :
  body_truthy body = true -> nonempty form = true ->
  contains ("    json=json_body," ++ nl ++ "    data=data," ++ nl)
    (generate_python_code url method query headers body form) = true.
Proof.
  intros Hb Hf. unfold generate_python_code. cbv zeta. rewrite Hb, Hf.
  destruct (nonempty query); destruct (nonempty headers); right_nest; find_segment.
Qed.

(** C1 at a request with both a body and a form parameter: the Python
    renderer, whose two payload tests are independent [if]s, emits the form
    dictionary and passes [data=data] next to [json=json_body]. *)
Theorem python_emits_body_and_form :
  generate_python_code "http://x/y" "post" [] [] (Some "{'a': 1}") [("f", "v")]
  = "import requests" ++ nl ++ nl
    ++ "url = 'http://x/y'" ++ nl
    ++ "params = {}" ++ nl
    ++ "headers = {}" ++ nl
    ++ "json_body = {'a': 1}" ++ nl
    ++ "data = {" ++ dq ++ "f" ++ dq ++ ": " ++ dq ++ "v" ++ dq ++ "}" ++ nl
    ++ "response = requests.post(" ++ nl
    ++ "    url," ++ nl
    ++ "    params=params," ++ nl
    ++ "    headers=headers," ++ nl
    ++ "    json=json_body," ++ nl
    ++ "    data=data," ++ nl
    ++ ")" ++ nl
    ++ "print('Status Code:', response.status_code)" ++ nl
    ++ "print('Response Body:', response.text)" ++ nl.
Proof. reflexivity. Qed.

(** ** Renderers: the reporting code *)

Ltac regroup_once :=
  match goal with
  | |- (?x ++ ?a) ++ ?b = _ => rewrite (append_assoc x a b)
  end.

(** C2, as stated, fails: the JavaScript and PHP sources print the response
    body only; nothing in them reads the status code. *)
Lemma javascript_php_report_body_only :
  reads_status
    (generate_javascript_code "http://x/y" "post" [("a", "1")] [] None [("f", "v")]) = false
  /\ reads_status
       (generate_php_code "http://x/y" "post" [("a", "1")] [] None [("f", "v")]) = false
  /\ generate_php_code "http://x/y" "post" [] [] None []
     = "<?php" ++ nl
       ++ "$ch = curl_init();" ++ nl
       ++ "$url = 'http://x/y';" ++ nl
       ++ "curl_setopt($ch, CURLOPT_URL, $url);" ++ nl
       ++ "curl_setopt($ch, CURLOPT_CUSTOMREQUEST, 'POST');" ++ nl
       ++ "curl_setopt($ch, CURLOPT_RETURNTRANSFER, true);" ++ nl
       ++ "$response = curl_exec($ch);" ++ nl
       ++ "curl_close($ch);" ++ nl
       ++ "echo 'Response Body: ' . $response;" ++ nl
       ++ "?>" ++ nl.
Proof. repeat split. Qed.

(** C2, amended. For every input, each renderer's output ends with its
    reporting code, which prints the response body text. The Python and C#
    reporting code also prints the status code; the JavaScript and PHP
    reporting code does not read it. *)
Theorem renderers_end_with_report :
  forall (url method : string) (query headers : list (string * string))
         (body : option string) (form : list (string * string)),
    (exists pre, generate_python_code url method query headers body form
                 = pre ++ python_report)
    /\ (exists pre, generate_csharp_code url method query headers body form
                    = pre ++ csharp_report)
    /\ (exists pre, generate_javascript_code url method query headers body form
                    = pre ++ javascript_report)
    /\ (exists pre, generate_php_code url method query headers body form
                    = pre ++ php_report)
    /\ (prints_body python_report = true /\ prints_body csharp_report = true
        /\ prints_body javascript_report = true /\ prints_body php_report = true)
    /\ (reads_status python_report = true /\ reads_status csharp_report = true)
    /\ (reads_status javascript_report = false /\ reads_status php_report = false).
Proof.
  intros url method query headers body form.
  split; [| split; [| split; [| split]]].
  - eexists. unfold generate_python_code. cbv zeta. regroup_once. reflexivity.
  - eexists. unfold generate_csharp_code. cbv zeta. do 2 regroup_once. reflexivity.
  - eexists. unfold generate_javascript_code. cbv zeta. do 5 regroup_once. reflexivity.
  - eexists. unfold generate_php_code. cbv zeta. do 3 regroup_once. reflexivity.
  - repeat split.
Qed.

(** ** Renderers: header code *)

Lemma emit_each_lines (line : string * string -> string) (d : list (string * string)) :
  forall code, emit_each line d code = code ++ lines line d.
Proof.
  unfold emit_each. induction d as [| kv d IH]; intros code; simpl.
  - now rewrite append_nil_r.
  - now rewrite IH, append_assoc.
Qed.

Lemma last_char_split (s : string) (c : ascii) :
  last_char s = Some c -> exists a, s = a ++ String c "".
Proof.
  induction s as [| x s IH]; [discriminate |].
  destruct s as [| y s].
  - simpl. intros H; injection H as ->. now exists "".
  - intros H. destruct (IH H) as [a Ha]. exists (String x a). simpl. now rewrite <- Ha.
Qed.

Lemma free_lit_app (p lit rest : string) :
  ends_sep p lit = true ->
  contains p lit = false -> contains p rest = false ->
  contains p (lit ++ rest) = false.
Proof.
  unfold ends_sep. destruct (last_char lit) as [c |] eqn:E; [| discriminate].
  intros Hc Hlit Hrest. apply negb_true_iff in Hc.
  destruct (last_char_split lit c E) as [a ->].
  rewrite append_assoc. change (String c "" ++ rest) with (String c rest).
  rewrite (contains_sep p a c "" Hc) in Hlit.
  apply orb_false_iff in Hlit as [Ha _].
  now rewrite (contains_sep p a c rest Hc), Ha, Hrest.
Qed.

Lemma free_app_lit (p u lit rest : string) :
  starts_sep p lit = true ->
  contains p u = false -> contains p (lit ++ rest) = false ->
  contains p (u ++ lit ++ rest) = false.
Proof.
  destruct lit as [| c lit]; [discriminate |].
  unfold starts_sep. intros Hc Hu Hrest. apply negb_true_iff in Hc.
  change (String c lit ++ rest) with (String c (lit ++ rest)) in *.
  apply contains_tail in Hrest.
  now rewrite (contains_sep p u c (lit ++ rest) Hc), Hu, Hrest.
Qed.

Ltac free_segments :=
  repeat first
    [ assumption
    | reflexivity
    | apply free_lit_app; [reflexivity | reflexivity |]
    | apply free_app_lit; [reflexivity | assumption |] ].

Section Tokens.

Variable p : string.
Hypothesis amp : has_char "&" p = false.
Hypothesis equals : has_char "=" p = false.
Hypothesis token_nonempty : contains p "" = false.

Lemma query_string_free (q : list (string * string)) :
  pairs_free p q -> contains p (query_string q) = false.
Proof.
  unfold query_string.
  induction 1 as [| [k v] q [Hk Hv] Hq IH]; [exact token_nonempty |].
  simpl in Hk, Hv.
  assert (Hkv : contains p (k ++ "=" ++ v) = false).
  { change (k ++ "=" ++ v) with (k ++ String "=" v).
    now rewrite (contains_sep p k "=" v equals), Hk, Hv. }
  destruct q as [| kv' q]; [exact Hkv |].
  change (join "&" (map (fun kv => fst kv ++ "=" ++ snd kv) ((k, v) :: kv' :: q)))
    with ((k ++ "=" ++ v)
          ++ String "&" (join "&" (map (fun kv => fst kv ++ "=" ++ snd kv) (kv' :: q)))).
  now rewrite (contains_sep p _ "&" _ amp), Hkv, IH.
Qed.

End Tokens.

Lemma javascript_lines_free (d : list (string * string)) :
  pairs_free "headers" d ->
  contains "headers"
    (lines (fun kv => "        '" ++ fst kv ++ "': '" ++ snd kv ++ "'," ++ nl) d) = false.
Proof.
  induction 1 as [| [k v] d [Hk Hv] Hd IH]; [reflexivity |].
  simpl in Hk, Hv.
  change (lines (fun kv => "        '" ++ fst kv ++ "': '" ++ snd kv ++ "'," ++ nl)
            ((k, v) :: d))
    with (("        '" ++ k ++ "': '" ++ v ++ "'," ++ nl)
          ++ lines (fun kv => "        '" ++ fst kv ++ "': '" ++ snd kv ++ "'," ++ nl) d).
  right_nest. free_segments.
Qed.

Lemma javascript_no_header_code (url method : string) (query : list (string * string))
    (body : option string) (form : list (string * string)) :
  text_free "headers" url (upper method) query body form ->
  contains "headers" (generate_javascript_code url method query [] body form) = false.
Proof.
  intros [Hurl Hmethod Hquery Hbody Hform].
  apply (query_string_free "headers" eq_refl eq_refl eq_refl) in Hquery.
  apply javascript_lines_free in Hform.
  unfold generate_javascript_code. cbv zeta.
  change (nonempty (@nil (string * string))) with false. cbv iota.
  rewrite ?emit_each_lines.
  destruct (nonempty query); destruct (body_truthy body); try destruct (nonempty form);
    right_nest; free_segments.
Qed.

Lemma csharp_lines_free (d : list (string * string)) :
  pairs_free "Headers" d ->
  contains "Headers"
    (lines (fun kv => "            new KeyValuePair<string, string>(" ++ dq ++ fst kv
                      ++ dq ++ ", " ++ dq ++ snd kv ++ dq ++ ")," ++ nl) d) = false.
Proof.
  induction 1 as [| [k v] d [Hk Hv] Hd IH]; [reflexivity |].
  simpl in Hk, Hv.
  change (lines (fun kv => "            new KeyValuePair<string, string>(" ++ dq ++ fst kv
                           ++ dq ++ ", " ++ dq ++ snd kv ++ dq ++ ")," ++ nl)
            ((k, v) :: d))
    with (("            new KeyValuePair<string, string>(" ++ dq ++ k
           ++ dq ++ ", " ++ dq ++ v ++ dq ++ ")," ++ nl)
          ++ lines (fun kv => "            new KeyValuePair<string, string>(" ++ dq ++ fst kv
                              ++ dq ++ ", " ++ dq ++ snd kv ++ dq ++ ")," ++ nl) d).
  right_nest. free_segments.
Qed.

Lemma csharp_no_header_code (url method : string) (query : list (string * string))
    (body : option string) (form : list (string * string)) :
  text_free "Headers" url (capitalize method) query body form ->
  contains "Headers" (generate_csharp_code url method query [] body form) = false.
Proof.
  intros [Hurl Hmethod Hquery Hbody Hform].
  apply (query_string_free "Headers" eq_refl eq_refl eq_refl) in Hquery.
  apply csharp_lines_free in Hform.
  unfold generate_csharp_code. cbv zeta.
  change (nonempty (@nil (string * string))) with false. cbv iota.
  rewrite ?emit_each_lines.
  destruct (nonempty query); destruct (body_truthy body); try destruct (nonempty form);
    right_nest; free_segments.
Qed.

Lemma php_lines_free (p : string) (d : list (string * string)) :
  p = "headers" \/ p = "HEADER" ->
  pairs_free p d ->
  contains p (lines (fun kv => "    '" ++ fst kv ++ "' => '" ++ snd kv ++ "'," ++ nl) d)
  = false.
Proof.
  intros Hp.
  induction 1 as [| [k v] d [Hk Hv] Hd IH]; [destruct Hp as [-> | ->]; reflexivity |].
  simpl in Hk, Hv.
  change (lines (fun kv => "    '" ++ fst kv ++ "' => '" ++ snd kv ++ "'," ++ nl)
            ((k, v) :: d))
    with (("    '" ++ k ++ "' => '" ++ v ++ "'," ++ nl)
          ++ lines (fun kv => "    '" ++ fst kv ++ "' => '" ++ snd kv ++ "'," ++ nl) d).
  right_nest. destruct Hp as [-> | ->]; free_segments.
Qed.

Lemma php_no_header_code (p url method : string) (query : list (string * string))
    (body : option string) (form : list (string * string)) :
  p = "headers" \/ p = "HEADER" ->
  text_free p url (upper method) query body form ->
  contains p (generate_php_code url method query [] body form) = false.
Proof.
  intros Hp [Hurl Hmethod Hquery Hbody Hform].
  apply (php_lines_free p form Hp) in Hform.
  assert (Hq : contains p (query_string query) = false).
  { destruct Hp as [-> | ->]; now apply query_string_free. }
  clear Hquery.
  unfold generate_php_code. cbv zeta.
  change (nonempty (@nil (string * string))) with false. cbv iota.
  rewrite ?emit_each_lines.
  destruct (nonempty query); destruct (body_truthy body); try destruct (nonempty form);
    right_nest; destruct Hp as [-> | ->]; free_segments.
Qed.

Lemma python_header_code (url method : string) (query : list (string * string))
    (body : option string) (form : list (string * string)) :
  contains ("headers = {}" ++ nl)
    (generate_python_code url method query [] body form) = true
  /\ contains ("    headers=headers," ++ nl)
       (generate_python_code url method query [] body form) = true.
Proof.
  unfold generate_python_code. cbv zeta.
  change (nonempty (@nil (string * string))) with false. cbv iota.
  destruct (nonempty query); destruct (body_truthy body); destruct (nonempty form);
    right_nest; split; find_segment.
Qed.

(** C3, as stated, fails: with no header parameter the Python renderer still
    emits an empty header dictionary and passes it to the call. *)
Lemma python_headers_always_emitted :
  generate_python_code "http://x/y" "post" [("a", "1")] [] None [("f", "v")]
  = "import requests" ++ nl ++ nl
    ++ "url = 'http://x/y'" ++ nl
    ++ "params = {" ++ dq ++ "a" ++ dq ++ ": " ++ dq ++ "1" ++ dq ++ "}" ++ nl
    ++ "headers = {}" ++ nl
    ++ "json_body = None" ++ nl
    ++ "data = {" ++ dq ++ "f" ++ dq ++ ": " ++ dq ++ "v" ++ dq ++ "}" ++ nl
    ++ "response = requests.post(" ++ nl
    ++ "    url," ++ nl
    ++ "    params=params," ++ nl
    ++ "    headers=headers," ++ nl
    ++ "    data=data," ++ nl
    ++ ")" ++ nl
    ++ "print('Status Code:', response.status_code)" ++ nl
    ++ "print('Response Body:', response.text)" ++ nl
  /\ contains "headers"
       (generate_python_code "http://x/y" "post" [("a", "1")] [] None [("f", "v")]) = true.
Proof. split; reflexivity. Qed.

(** C3, amended. With an empty header map, the C#, JavaScript and PHP
    outputs hold no header code: whenever the caller's own text (URL, method,
    query, body, form) is free of the language's header token
    ([Headers] of [DefaultRequestHeaders]; [headers]; [headers] and [HEADER]
    of [CURLOPT_HTTPHEADER]), so is the whole output. The Python output
    always holds the lines [headers = {}] and [headers=headers,]. *)
Theorem empty_headers_no_header_code :
  forall (url method : string) (query : list (string * string))
         (body : option string) (form : list (string * string)),
    (text_free "Headers" url (capitalize method) query body form ->
     contains "Headers" (generate_csharp_code url method query [] body form) = false)
    /\ (text_free "headers" url (upper method) query body form ->
        contains "headers" (generate_javascript_code url method query [] body form) = false)
    /\ (text_free "headers" url (upper method) query body form ->
        contains "headers" (generate_php_code url method query [] body form) = false)
    /\ (text_free "HEADER" url (upper method) query body form ->
        contains "HEADER" (generate_php_code url method query [] body form) = false)
    /\ contains ("headers = {}" ++ nl)
         (generate_python_code url method query [] body form) = true
    /\ contains ("    headers=headers," ++ nl)
         (generate_python_code url method query [] body form) = true.
Proof.
  intros url method query body form.
  split; [apply csharp_no_header_code |].
  split; [apply javascript_no_header_code |].
  split; [apply php_no_header_code; now left |].
  split; [apply php_no_header_code; now right |].
  apply python_header_code.
Qed.

Lemma empty_headers_no_header_code_witness :
  contains "Headers"
    (generate_csharp_code "http://x/y" "post" [("a", "1")] [] None [("f", "v")]) = false
  /\ contains "headers"
       (generate_javascript_code "http://x/y" "post" [("a", "1")] [] None [("f", "v")]) = false
  /\ contains "headers"
       (generate_php_code "http://x/y" "post" [("a", "1")] [] None [("f", "v")]) = false
  /\ contains "HEADER"
       (generate_php_code "http://x/y" "post" [("a", "1")] [] None [("f", "v")]) = false.
Proof.
  pose proof (empty_headers_no_header_code "http://x/y" "post" [("a", "1")] None
                [("f", "v")]) as [Hcs [Hjs [Hphp1 [Hphp2 _]]]].
  split; [| split; [| split]].
  - apply Hcs. constructor; try reflexivity; repeat constructor.
  - apply Hjs. constructor; try reflexivity; repeat constructor.
  - apply Hphp1. constructor; try reflexivity; repeat constructor.
  - apply Hphp2. constructor; try reflexivity; repeat constructor.
Defined.

(** * Further properties *)

(** ** Dictionaries *)

Lemma lookup_set_same {V : Type} (d : list (string * V)) (k : string) (v : V) :
  Dict.lookup k (Dict.set d k v) = Some v.
Proof.
  induction d as [| [k' v'] d IH]; simpl.
  - now rewrite String.eqb_refl.
  - destruct (String.eqb k k') eqn:E; simpl.
    + now rewrite String.eqb_refl.
    + now rewrite E.
Qed.

Lemma lookup_set_other {V : Type} (d : list (string * V)) (k k' : string) (v : V) :
  k <> k' -> Dict.lookup k' (Dict.set d k v) = Dict.lookup k' d.
Proof.
  intros Hne. induction d as [| [k0 v0] d IH]; simpl.
  - apply String.eqb_neq in Hne. now rewrite String.eqb_sym, Hne.
  - destruct (String.eqb_spec k k0) as [-> | Hk]; simpl.
    + destruct (String.eqb_spec k' k0) as [-> | _]; [congruence | reflexivity].
    + now rewrite IH.
Qed.

Lemma set_keys {V : Type} (d : list (string * V)) (k : string) (v : V) (k' : string) :
  In k' (map fst (Dict.set d k v)) <-> k' = k \/ In k' (map fst d).
Proof.
  induction d as [| [k0 v0] d IH]; simpl.
  - intuition.
  - destruct (String.eqb_spec k k0) as [-> | Hk]; simpl.
    + intuition.
    + rewrite IH. intuition.
Qed.

Lemma set_keeps_unique {V : Type} (d : list (string * V)) (k : string) (v : V) :
  NoDup (map fst d) -> NoDup (map fst (Dict.set d k v)).
Proof.
  induction d as [| [k0 v0] d IH]; simpl; intros H.
  - repeat constructor. intros [].
  - inversion H as [| x l Hnotin Hd]; subst.
    destruct (String.eqb_spec k k0) as [-> | Hk]; simpl.
    + now constructor.
    + constructor; [| now apply IH].
      rewrite set_keys. intros [-> | Hin]; [congruence | contradiction].
Qed.

Lemma lookup_unique {V : Type} (d : list (string * V)) (k : string) (v : V) :
  NoDup (map fst d) -> In (k, v) d -> Dict.lookup k d = Some v.
Proof.
  induction d as [| [k0 v0] d IH]; simpl; intros Hnd Hin; [contradiction |].
  inversion Hnd as [| x l Hnotin Hd]; subst.
  destruct Hin as [Heq | Hin].
  - injection Heq as -> ->. now rewrite String.eqb_refl.
  - destruct (String.eqb_spec k k0) as [-> | Hk].
    + exfalso. apply Hnotin. apply (in_map fst) in Hin. exact Hin.
    + now apply IH.
Qed.

(** ** Fetching: the status check *)

(** X1. [fetch_spec] fails with the fetch error, carrying the URL and the
    status code, exactly when the status is not 200; the response body is
    then handed to no parser (the result is the same for any parsers). *)
Theorem fetch_spec_status_check :
  forall (requests_get : string -> Response) (json_loads yaml_safe_load : string -> parsed)
         (url : string),
    ((requests_get url).(status_code) <> 200 ->
     forall jl yl,
       fetch_spec requests_get jl yl url
       = Err (FetchError url (requests_get url).(status_code)))
    /\ (forall u n,
          fetch_spec requests_get json_loads yaml_safe_load url = Err (FetchError u n) ->
          u = url /\ n = (requests_get url).(status_code) /\ n <> 200).
Proof.
  intros get jl yl url. split.
  - intros Hne jl' yl'. unfold fetch_spec.
    apply Nat.eqb_neq in Hne. now rewrite Hne.
  - intros u n. unfold fetch_spec.
    destruct (Nat.eqb_spec (status_code (get url)) 200) as [Heq | Hne]; simpl.
    + destruct (wants_json _ url).
      * destruct (jl _); discriminate.
      * destruct (wants_yaml _ url).
        -- destruct (yl _); discriminate.
        -- destruct (jl _); [discriminate |]. destruct (yl _); discriminate.
    + intros H. injection H as <- <-. auto.
Qed.

Lemma fetch_spec_status_check_witness :
  fetch_spec (fun _ => mkResponse 404 "application/json" "{}")
    (fun _ => Parsed (JObj [])) (fun _ => Parsed (JObj []))
    "http://example.com/openapi.json"
  = Err (FetchError "http://example.com/openapi.json" 404).
Proof.
  apply (proj1 (fetch_spec_status_check
                  (fun _ => mkResponse 404 "application/json" "{}")
                  (fun _ => Parsed (JObj [])) (fun _ => Parsed (JObj []))
                  "http://example.com/openapi.json")).
  simpl. discriminate.
Defined.

(** ** Endpoint extraction: failures and normal forms *)

Lemma methods_loop_outcome (p : string) (ms : list (string * json)) :
  forall acc,
    (operations_shaped ms
     /\ methods_loop p ms acc = Ok (acc ++ declared_operations p (JObj ms))%list)
    \/ (~ operations_shaped ms /\ methods_loop p ms acc = Err AttributeError).
Proof.
  induction ms as [| [m op] ms IH]; intros acc.
  - left. split; [constructor |]. simpl. now rewrite app_nil_r.
  - destruct (is_http_method m) eqn:Hm.
    + destruct op as [| b | n | s | l | d];
        try (right; split;
             [ intros H; inversion H as [| x l0 Hx _]; subst;
               destruct (Hx Hm) as [o Ho]; discriminate Ho
             | simpl; rewrite Hm; reflexivity ]).
      destruct (IH (acc ++ [declared_endpoint p m d])%list) as [[Hs Hr] | [Hs Hr]].
      * left. split.
        -- constructor; [intros _; now exists d | exact Hs].
        -- simpl. rewrite Hm. simpl.
           change (methods_loop p ms (acc ++ [declared_endpoint p m d])%list
                   = Ok (acc ++ declared_operations p (JObj ((m, JObj d) :: ms)))%list).
           rewrite Hr. unfold declared_operations. simpl. rewrite Hm. simpl.
           now rewrite <- app_assoc.
      * right. split.
        -- intros H. inversion H; subst. contradiction.
        -- simpl. rewrite Hm. simpl. exact Hr.
    + destruct (IH acc) as [[Hs Hr] | [Hs Hr]].
      * left. split.
        -- constructor; [simpl; intros H; congruence | exact Hs].
        -- simpl. rewrite Hm. simpl. rewrite Hr.
           unfold declared_operations. simpl. now rewrite Hm.
      * right. split.
        -- intros H. inversion H; subst. contradiction.
        -- simpl. rewrite Hm. simpl. exact Hr.
Qed.

Lemma paths_loop_outcome (ps : list (string * json)) :
  forall acc,
    (paths_shaped ps /\ paths_loop ps acc = Ok (acc ++ declared_endpoints ps)%list)
    \/ (~ paths_shaped ps /\ paths_loop ps acc = Err AttributeError).
Proof.
  induction ps as [| [p item] ps IH]; intros acc.
  - left. split; [constructor |]. simpl. now rewrite app_nil_r.
  - destruct item as [| b | n | s | l | ms];
      try (right; split;
           [ intros H; inversion H as [| x l0 [o [Ho _]] _]; subst; discriminate Ho
           | reflexivity ]).
    destruct (methods_loop_outcome p ms acc) as [[Hs Hr] | [Hs Hr]].
    + destruct (IH (acc ++ declared_operations p (JObj ms))%list) as [[Hs' Hr'] | [Hs' Hr']].
      * left. split.
        -- constructor; [now exists ms | exact Hs'].
        -- simpl. rewrite Hr. simpl. rewrite Hr'.
           unfold declared_endpoints. simpl. now rewrite <- app_assoc.
      * right. split.
        -- intros H. inversion H; subst. contradiction.
        -- simpl. rewrite Hr. simpl. exact Hr'.
    + right. split.
      * intros H. inversion H as [| x l0 [o [Ho Hshape]] _]; subst.
        simpl in Ho. injection Ho as <-. contradiction.
      * simpl. now rewrite Hr.
Qed.

Lemma list_endpoints_outcome (doc : json) :
  (exists d ps,
      doc = JObj d /\ Dict.get d "paths" (JObj []) = JObj ps
      /\ paths_shaped ps /\ list_endpoints doc = Ok (declared_endpoints ps))
  \/ list_endpoints doc = Err AttributeError.
Proof.
  destruct doc as [| b | n | s | l | d]; try (right; reflexivity).
  unfold list_endpoints. simpl.
  destruct (Dict.get d "paths" (JObj [])) as [| b | n | s | l | ps] eqn:E;
    try (right; reflexivity).
  simpl. destruct (paths_loop_outcome ps []) as [[Hs Hr] | [Hs Hr]].
  - left. exists d, ps. rewrite Hr. auto.
  - right. exact Hr.
Qed.

(** X2. [list_endpoints] raises nothing but [AttributeError], and it raises
    it exactly when the shape is broken: the document or its [paths] is not
    a dict, a path item is not a dict, or the value under an HTTP-verb key is
    not a dict. Values under other keys are never inspected. Whenever it
    returns, the result is the list of declared endpoints. *)
Theorem list_endpoints_failure :
  forall doc : json,
    (forall e, list_endpoints doc = Err e -> e = AttributeError)
    /\ (forall d ps,
          doc = JObj d -> Dict.get d "paths" (JObj []) = JObj ps ->
          (paths_shaped ps <-> exists eps, list_endpoints doc = Ok eps))
    /\ (forall eps,
          list_endpoints doc = Ok eps ->
          exists d ps,
            doc = JObj d /\ Dict.get d "paths" (JObj []) = JObj ps
            /\ paths_shaped ps /\ eps = declared_endpoints ps)
    /\ (forall d, doc = JObj d ->
        (forall ps, Dict.get d "paths" (JObj []) <> JObj ps) ->
        list_endpoints doc = Err AttributeError).
Proof.
  intros doc. destruct (list_endpoints_outcome doc) as [[d [ps [-> [Hp [Hs Hr]]]]] | Herr].
  - split; [| split; [| split]].
    + intros e H. rewrite Hr in H. discriminate H.
    + intros d' ps' Hd Hp'. injection Hd as <-. rewrite Hp in Hp'. injection Hp' as <-.
      split; [intros _; eauto | intros _; exact Hs].
    + intros eps H. rewrite Hr in H. injection H as <-. exists d, ps. auto.
    + intros d' Hd Hno. injection Hd as <-. exfalso. exact (Hno ps Hp).
  - split; [| split; [| split]].
    + intros e H. rewrite Herr in H. now injection H as <-.
    + intros d ps -> Hp. split.
      * intros Hs. unfold list_endpoints in Herr. simpl in Herr. rewrite Hp in Herr.
        simpl in Herr.
        destruct (paths_loop_outcome ps []) as [[_ Hr] | [Hn _]];
          [rewrite Hr in Herr; discriminate Herr | contradiction].
      * intros [eps H]. rewrite Herr in H. discriminate H.
    + intros eps H. rewrite Herr in H. discriminate H.
    + intros; exact Herr.
Qed.

Lemma list_endpoints_failure_witness :
  list_endpoints (JObj [("paths", JArr [JStr "/pets"])]) = Err AttributeError
  /\ (exists eps,
         list_endpoints
           (JObj [("paths", JObj [("/pets", JObj [("parameters", JNull); ("x-note", JNum 3)])])])
         = Ok eps).
Proof.
  split.
  - apply (proj2 (proj2 (proj2 (list_endpoints_failure
                                  (JObj [("paths", JArr [JStr "/pets"])]))))
             [("paths", JArr [JStr "/pets"])] eq_refl).
    intros ps H. discriminate H.
  - apply (proj1 (proj2 (list_endpoints_failure
             (JObj [("paths", JObj [("/pets", JObj [("parameters", JNull);
                                                     ("x-note", JNum 3)])])])))
             [("paths", JObj [("/pets", JObj [("parameters", JNull); ("x-note", JNum 3)])])]
             [("/pets", JObj [("parameters", JNull); ("x-note", JNum 3)])]
             eq_refl eq_refl).
    repeat first
      [ apply Forall_nil
      | apply Forall_cons
      | (eexists; split; [reflexivity |])
      | (intros H; vm_compute in H; discriminate H) ].
Defined.

Lemma upper_lower_char (c : ascii) : upper_char (lower_char c) = upper_char c.
Proof.
  destruct c as [[] [] [] [] [] [] [] []]; reflexivity.
Qed.

Lemma upper_lower (s : string) : upper (lower s) = upper s.
Proof.
  induction s as [| c s IH]; simpl; [reflexivity |].
  now rewrite upper_lower_char, IH.
Qed.

Lemma upper_of_http_method (m : string) :
  is_http_method m = true -> In (upper m) upper_methods.
Proof.
  unfold is_http_method. rewrite existsb_exists. intros [x [Hin Hx]].
  apply String.eqb_eq in Hx. rewrite <- upper_lower, Hx.
  simpl in Hin.
  repeat (destruct Hin as [<- | Hin]; [simpl; auto 10 |]).
  contradiction.
Qed.

Lemma declared_endpoints_inv (ps : list (string * json)) (e : Endpoint) :
  In e (declared_endpoints ps) ->
  exists p item m op,
    In (p, item) ps /\ In (m, op) (fields_of item) /\ is_http_method m = true
    /\ e = declared_endpoint p m (fields_of op).
Proof.
  unfold declared_endpoints. rewrite in_flat_map.
  intros [[p item] [Hin He]]. unfold declared_operations in He. simpl in He.
  apply in_map_iff in He as [[m op] [Heq Hf]].
  apply filter_In in Hf as [Hf Hm]. simpl in *.
  exists p, item, m, op. auto.
Qed.

(** X3. Every descriptor [list_endpoints] returns has one of the seven
    upper-case verbs as its method, whatever letter case the document used,
    and a path that is a key of the document's [paths]. *)
Theorem list_endpoints_normal_methods :
  forall (doc : json) (eps : list Endpoint) (e : Endpoint),
    list_endpoints doc = Ok eps ->
    In e eps ->
    In e.(method) upper_methods
    /\ is_http_method e.(method) = true
    /\ (exists d ps, doc = JObj d /\ Dict.get d "paths" (JObj []) = JObj ps
                     /\ In e.(path) (map fst ps)).
Proof.
  intros doc eps e Hok Hin.
  destruct (list_endpoints_outcome doc) as [[d [ps [-> [Hp [Hs Hr]]]]] | Herr];
    [| rewrite Herr in Hok; discriminate Hok].
  rewrite Hr in Hok. injection Hok as <-.
  apply declared_endpoints_inv in Hin as [p [item [m [op [Hpi [Hmo [Hm ->]]]]]]].
  simpl. split; [now apply upper_of_http_method |]. split.
  - unfold is_http_method in *. now rewrite lower_upper.
  - exists d, ps. repeat split; auto.
    apply (in_map fst) in Hpi. exact Hpi.
Qed.

Lemma list_endpoints_normal_methods_witness :
  In list_pets.(method) upper_methods
  /\ is_http_method list_pets.(method) = true
  /\ (exists d ps, JObj petstore = JObj d /\ Dict.get d "paths" (JObj []) = JObj ps
                   /\ In list_pets.(path) (map fst ps)).
Proof.
  apply (list_endpoints_normal_methods (JObj petstore)
           [mkEndpoint "GET" "/pets" (JStr "List pets") (JStr "listPets") (JArr []);
            mkEndpoint "POST" "/pets" (JStr "") (JStr "addPet") (JArr []);
            mkEndpoint "DELETE" "/pets/{id}" (JStr "") (JStr "")
              (JArr [JObj [("name", JStr "id"); ("in", JStr "path")]])]
           list_pets eq_refl).
  simpl. auto.
Defined.

(** ** Parameter binding: what the maps hold *)

Lemma bind_param_bucket (pv : list (string * string)) (b : Binding) (p : json)
    (v : string * json) :
  param_is p v -> bind_param pv b p = Ok (bucket pv b (fst v) (snd v)).
Proof.
  intros [Hn Hl]. unfold bind_param, bucket. rewrite Hn. simpl. rewrite Hl. simpl.
  repeat match goal with
         | |- context [if ?c then _ else _] => destruct c
         end; reflexivity.
Qed.

Lemma bind_param_ok_inv (pv : list (string * string)) (b b' : Binding) (p : json) :
  bind_param pv b p = Ok b' ->
  exists v, param_is p v /\ b' = bucket pv b (fst v) (snd v).
Proof.
  unfold bind_param. intros H.
  destruct (py_getitem p "name") as [nv |] eqn:En; simpl in H; [| discriminate].
  destruct nv as [| | | n | |]; simpl in H; try discriminate.
  destruct (py_getitem p "in") as [loc |] eqn:El; simpl in H; [| discriminate].
  exists (n, loc). split; [split; assumption |].
  unfold bucket. simpl.
  repeat match type of H with
         | context [if ?c then _ else _] => destruct c
         end; injection H as <-; reflexivity.
Qed.

Lemma bind_params_views (pv : list (string * string)) (params : list json)
    (views : list (string * json)) :
  Forall2 param_is params views ->
  forall b, bind_params pv b params = Ok (bucket_all pv views b).
Proof.
  induction 1 as [| p v params views Hp Hrest IH]; intros b; [reflexivity |].
  simpl. rewrite (bind_param_bucket pv b p v Hp). simpl. apply IH.
Qed.

Lemma bind_params_ok_inv (pv : list (string * string)) (params : list json) :
  forall b b',
    bind_params pv b params = Ok b' ->
    exists views, Forall2 param_is params views /\ b' = bucket_all pv views b.
Proof.
  induction params as [| p params IH]; intros b b' H.
  - simpl in H. injection H as <-. exists []. split; [constructor | reflexivity].
  - simpl in H. destruct (bind_param pv b p) as [b1 |] eqn:E; simpl in H; [| discriminate].
    apply bind_param_ok_inv in E as [v [Hv ->]].
    destruct (IH _ _ H) as [views [Hviews ->]].
    exists (v :: views). split; [now constructor | reflexivity].
Qed.

Lemma loc_cases (loc : json) :
  loc = JStr "path" \/ loc = JStr "query" \/ loc = JStr "header"
  \/ loc = JStr "body" \/ loc = JStr "formData"
  \/ (py_eq_str loc "path" = false /\ py_eq_str loc "query" = false
      /\ py_eq_str loc "header" = false /\ py_eq_str loc "body" = false
      /\ py_eq_str loc "formData" = false).
Proof.
  destruct loc as [| | | s | |]; try (do 5 right; repeat split; reflexivity).
  simpl.
  destruct (String.eqb_spec s "path") as [-> | _]; [now left |].
  destruct (String.eqb_spec s "query") as [-> | _]; [right; now left |].
  destruct (String.eqb_spec s "header") as [-> | _]; [do 2 right; now left |].
  destruct (String.eqb_spec s "body") as [-> | _]; [do 3 right; now left |].
  destruct (String.eqb_spec s "formData") as [-> | _]; [do 4 right; now left |].
  do 5 right. repeat split.
Qed.

Ltac eval_loc :=
  repeat match goal with
         | |- context [py_eq_str (JStr ?a) ?b] =>
             let v := eval vm_compute in (py_eq_str (JStr a) b) in
             change (py_eq_str (JStr a) b) with v
         end;
  cbv iota.

Ltac split_loc loc :=
  destruct (loc_cases loc) as
    [-> | [-> | [-> | [-> | [-> | [H1 [H2 [H3 [H4 H5]]]]]]]]];
  [eval_loc | eval_loc | eval_loc | eval_loc | eval_loc
   | rewrite ?H1, ?H2, ?H3, ?H4, ?H5].

Lemma bucket_all_cons (pv : list (string * string)) (v : string * json)
    (views : list (string * json)) (b : Binding) :
  bucket_all pv (v :: views) b = bucket_all pv views (bucket pv b (fst v) (snd v)).
Proof. reflexivity. Qed.

Lemma names_at_cons (loc : string) (v : string * json) (views : list (string * json)) :
  names_at loc (v :: views)
  = if py_eq_str (snd v) loc then fst v :: names_at loc views else names_at loc views.
Proof.
  unfold names_at. simpl. now destruct (py_eq_str (snd v) loc).
Qed.

Lemma declares_cons (loc : string) (v : string * json) (views : list (string * json))
    (n : string) :
  declares loc (v :: views) n
  = (py_eq_str (snd v) loc && String.eqb n (fst v)) || declares loc views n.
Proof.
  unfold declares. rewrite names_at_cons.
  destruct (py_eq_str (snd v) loc); reflexivity.
Qed.

Lemma bucket_all_path (pv : list (string * string)) (views : list (string * json)) :
  forall b,
    path_params (bucket_all pv views b)
    = (path_params b
       ++ map (fun n => (n, Dict.get pv n "")) (names_at "path" views))%list.
Proof.
  induction views as [| [n loc] views IH]; intros b.
  - simpl. now rewrite app_nil_r.
  - rewrite bucket_all_cons, IH, names_at_cons. unfold bucket. simpl fst. simpl snd.
    split_loc loc; simpl; rewrite <- ?app_assoc; reflexivity.
Qed.

Lemma lookup_set_eqb {V : Type} (d : list (string * V)) (k n : string) (v : V) :
  Dict.lookup n (Dict.set d k v) = if String.eqb n k then Some v else Dict.lookup n d.
Proof.
  destruct (String.eqb_spec n k) as [-> | Hne].
  - apply lookup_set_same.
  - apply lookup_set_other. congruence.
Qed.

Lemma bucket_all_query (pv : list (string * string)) (views : list (string * json))
    (n : string) :
  forall b,
    Dict.lookup n (query_params (bucket_all pv views b))
    = if declares "query" views n then Some (Dict.get pv n "")
      else Dict.lookup n (query_params b).
Proof.
  induction views as [| [k loc] views IH]; intros b; [reflexivity |].
  rewrite bucket_all_cons, IH, declares_cons. unfold bucket. simpl fst. simpl snd.
  destruct (declares "query" views n); [now rewrite orb_true_r |].
  rewrite orb_false_r.
  split_loc loc; simpl; try reflexivity.
  rewrite lookup_set_eqb. destruct (String.eqb_spec n k) as [-> | _]; reflexivity.
Qed.

Lemma bucket_all_header (pv : list (string * string)) (views : list (string * json))
    (n : string) :
  forall b,
    Dict.lookup n (header_params (bucket_all pv views b))
    = if declares "header" views n then Some (Dict.get pv n "")
      else Dict.lookup n (header_params b).
Proof.
  induction views as [| [k loc] views IH]; intros b; [reflexivity |].
  rewrite bucket_all_cons, IH, declares_cons. unfold bucket. simpl fst. simpl snd.
  destruct (declares "header" views n); [now rewrite orb_true_r |].
  rewrite orb_false_r.
  split_loc loc; simpl; try reflexivity.
  rewrite lookup_set_eqb. destruct (String.eqb_spec n k) as [-> | _]; reflexivity.
Qed.

Lemma bucket_all_form (pv : list (string * string)) (views : list (string * json))
    (n : string) :
  forall b,
    Dict.lookup n (form_params (bucket_all pv views b))
    = if declares "formData" views n then Some (Dict.get pv n "")
      else Dict.lookup n (form_params b).
Proof.
  induction views as [| [k loc] views IH]; intros b; [reflexivity |].
  rewrite bucket_all_cons, IH, declares_cons. unfold bucket. simpl fst. simpl snd.
  destruct (declares "formData" views n); [now rewrite orb_true_r |].
  rewrite orb_false_r.
  split_loc loc; simpl; try reflexivity.
  rewrite lookup_set_eqb. destruct (String.eqb_spec n k) as [-> | _]; reflexivity.
Qed.

Lemma bucket_unique (pv : list (string * string)) (b : Binding) (n : string) (loc : json) :
  unique_keys b -> unique_keys (bucket pv b n loc).
Proof.
  intros [Hq [Hh Hf]]. unfold bucket, unique_keys.
  split_loc loc; simpl; repeat split; auto using set_keeps_unique.
Qed.

Lemma bucket_all_unique (pv : list (string * string)) (views : list (string * json)) :
  forall b, unique_keys b -> unique_keys (bucket_all pv views b).
Proof.
  induction views as [| [n loc] views IH]; intros b Hb; [exact Hb |].
  rewrite bucket_all_cons. apply IH. now apply bucket_unique.
Qed.

Lemma bind_request_found (doc : json) (ep : Endpoint) (pv : list (string * string))
    (base : string) (paths item operation parameters : json) (params : list json) :
  base_url doc = Ok base ->
  py_getitem doc "paths" = Ok paths ->
  py_getitem paths ep.(path) = Ok item ->
  py_getitem item (lower ep.(method)) = Ok operation ->
  py_get operation "parameters" (JArr []) = Ok parameters ->
  py_iter parameters = Ok params ->
  bind_request doc ep pv
  = (b <- bind_params pv empty_binding params ;;
     Ok (mkRequest (substitute_path b.(path_params) (base ++ ep.(path)))
           (lower ep.(method)) b.(query_params) b.(header_params) b.(body_param)
           b.(form_params))).
Proof.
  intros Hb Hp Hi Ho Hps Hit. unfold bind_request.
  rewrite Hb. simpl. rewrite Hp. simpl. rewrite Hi. simpl. rewrite Ho. simpl.
  rewrite Hps. simpl. rewrite Hit. reflexivity.
Qed.

Lemma bind_request_ok_inv (doc : json) (ep : Endpoint) (pv : list (string * string))
    (r : Request) :
  bind_request doc ep pv = Ok r ->
  exists base params b,
    base_url doc = Ok base
    /\ bind_params pv empty_binding params = Ok b
    /\ r = mkRequest (substitute_path b.(path_params) (base ++ ep.(path)))
             (lower ep.(method)) b.(query_params) b.(header_params) b.(body_param)
             b.(form_params).
Proof.
  unfold bind_request. intros H.
  destruct (base_url doc) as [base |]; simpl in H; [| discriminate].
  destruct (py_getitem doc "paths") as [paths |]; simpl in H; [| discriminate].
  destruct (py_getitem paths (path ep)) as [item |]; simpl in H; [| discriminate].
  destruct (py_getitem item (lower (method ep))) as [op |]; simpl in H; [| discriminate].
  destruct (py_get op "parameters" (JArr [])) as [ps |]; simpl in H; [| discriminate].
  destruct (py_iter ps) as [params |]; simpl in H; [| discriminate].
  destruct (bind_params pv empty_binding params) as [b |] eqn:E; simpl in H;
    [| discriminate].
  injection H as <-. exists base, params, b. auto.
Qed.

Lemma empty_binding_unique : unique_keys empty_binding.
Proof. repeat split; constructor. Qed.

(** X4. The query, header and form maps handed to a renderer never hold a
    key twice: a parameter declared again at the same location overwrites the
    earlier entry in place. *)
Theorem bound_maps_unique_keys :
  forall (doc : json) (ep : Endpoint) (pv : list (string * string)) (r : Request),
    bind_request doc ep pv = Ok r ->
    NoDup (map fst r.(req_query))
    /\ NoDup (map fst r.(req_headers))
    /\ NoDup (map fst r.(req_form)).
Proof.
  intros doc ep pv r H.
  apply bind_request_ok_inv in H as [base [params [b [_ [Hb ->]]]]].
  apply bind_params_ok_inv in Hb as [views [_ ->]].
  exact (bucket_all_unique pv views empty_binding empty_binding_unique).
Qed.

Lemma bound_maps_unique_keys_witness :
  bind_request (JObj search_doc) get_item [("q", "rocq"); ("id", "7")]
  = Ok (mkRequest "https://h/items/7" "get" [("q", "rocq"); ("lang", "")] [] None [])
  /\ NoDup (map fst [("q", "rocq"); ("lang", "")]).
Proof.
  split; [reflexivity |].
  exact (proj1 (bound_maps_unique_keys (JObj search_doc) get_item
                  [("q", "rocq"); ("id", "7")]
                  (mkRequest "https://h/items/7" "get" [("q", "rocq"); ("lang", "")]
                     [] None [])
                  eq_refl)).
Defined.

(** X5. For a list of well-formed parameters the binding loop succeeds, and
    its result is determined by names and locations: the substitution list
    holds the path parameters in declaration order (repeats included), and
    each of the query, header and form maps holds exactly the names declared
    at its location, each with [param_values.get(name, '')]. *)
Theorem binding_content :
  forall (pv : list (string * string)) (params : list json)
         (views : list (string * json)),
    Forall2 param_is params views ->
    exists b,
      bind_params pv empty_binding params = Ok b
      /\ b.(path_params)
         = map (fun n => (n, Dict.get pv n "")) (names_at "path" views)
      /\ (forall n, Dict.lookup n b.(query_params)
                    = if declares "query" views n then Some (Dict.get pv n "") else None)
      /\ (forall n, Dict.lookup n b.(header_params)
                    = if declares "header" views n then Some (Dict.get pv n "") else None)
      /\ (forall n, Dict.lookup n b.(form_params)
                    = if declares "formData" views n then Some (Dict.get pv n "")
                      else None).
Proof.
  intros pv params views H. exists (bucket_all pv views empty_binding).
  split; [now apply bind_params_views |].
  split; [apply (bucket_all_path pv views empty_binding) |].
  split; [intros n; apply (bucket_all_query pv views n empty_binding) |].
  split; [intros n; apply (bucket_all_header pv views n empty_binding) |].
  intros n; apply (bucket_all_form pv views n empty_binding).
Qed.

Lemma binding_content_witness :
  exists b,
    bind_params [("q", "rocq"); ("id", "7")] empty_binding
      [JObj [("name", JStr "q"); ("in", JStr "query")];
       JObj [("name", JStr "id"); ("in", JStr "path")];
       JObj [("name", JStr "q"); ("in", JStr "query")];
       JObj [("name", JStr "trace"); ("in", JStr "cookie")]]
    = Ok b
    /\ b.(path_params) = [("id", "7")]
    /\ Dict.lookup "q" b.(query_params) = Some "rocq"
    /\ Dict.lookup "trace" b.(query_params) = None.
Proof.
  destruct (binding_content [("q", "rocq"); ("id", "7")]
              [JObj [("name", JStr "q"); ("in", JStr "query")];
               JObj [("name", JStr "id"); ("in", JStr "path")];
               JObj [("name", JStr "q"); ("in", JStr "query")];
               JObj [("name", JStr "trace"); ("in", JStr "cookie")]]
              [("q", JStr "query"); ("id", JStr "path"); ("q", JStr "query");
               ("trace", JStr "cookie")])
    as [b [Hb [Hp [Hq _]]]].
  - repeat constructor.
  - exists b. split; [exact Hb |]. split; [exact Hp |].
    split; [exact (Hq "q") | exact (Hq "trace")].
Defined.

Lemma bind_param_values_ext (pv pv' : list (string * string)) (b : Binding) (p : json) :
  (forall n, Dict.get pv n "" = Dict.get pv' n "") ->
  bind_param pv b p = bind_param pv' b p.
Proof.
  intros H. unfold bind_param.
  destruct (py_getitem p "name") as [nv |]; simpl; [| reflexivity].
  destruct (as_str nv) as [n |]; simpl; [| reflexivity].
  now rewrite (H n).
Qed.

Lemma bind_params_values_ext (pv pv' : list (string * string)) (params : list json) :
  (forall n, Dict.get pv n "" = Dict.get pv' n "") ->
  forall b, bind_params pv b params = bind_params pv' b params.
Proof.
  intros H. induction params as [| p params IH]; intros b; [reflexivity |].
  simpl. rewrite (bind_param_values_ext pv pv' b p H).
  destruct (bind_param pv' b p); simpl; [apply IH | reflexivity].
Qed.

(** X6. [generate_script] reads the supplied values only through
    [param_values.get(name, '')]: an entry with an empty value is the same as
    no entry, and only the first entry of a name counts. *)
Theorem generate_script_values_ext :
  forall (doc : json) (ep : Endpoint) (pv pv' : list (string * string)) (lang : string),
    (forall n, Dict.get pv n "" = Dict.get pv' n "") ->
    generate_script doc ep pv lang = generate_script doc ep pv' lang.
Proof.
  intros doc ep pv pv' lang H. unfold generate_script, bind_request.
  destruct (base_url doc); simpl; [| reflexivity].
  destruct (py_getitem doc "paths") as [paths |]; simpl; [| reflexivity].
  destruct (py_getitem paths (path ep)) as [item |]; simpl; [| reflexivity].
  destruct (py_getitem item (lower (method ep))) as [op |]; simpl; [| reflexivity].
  destruct (py_get op "parameters" (JArr [])) as [ps |]; simpl; [| reflexivity].
  destruct (py_iter ps) as [params |]; simpl; [| reflexivity].
  now rewrite (bind_params_values_ext pv pv' params H).
Qed.

Lemma generate_script_values_ext_witness :
  generate_script (JObj search_doc) get_item [("id", "7"); ("q", "")] "PHP"
  = generate_script (JObj search_doc) get_item [("id", "7")] "PHP".
Proof.
  apply generate_script_values_ext.
  intros n. unfold Dict.get. simpl.
  destruct (String.eqb n "id"); [reflexivity |].
  destruct (String.eqb n "q"); reflexivity.
Defined.

(** ** Parameter binding: malformed parameters *)

Lemma bind_param_error_any_state (pv : list (string * string)) (b b' : Binding)
    (p : json) (e : error) :
  bind_param pv b p = Err e -> bind_param pv b' p = Err e.
Proof.
  unfold bind_param.
  destruct (py_getitem p "name") as [nv |]; simpl; [| auto].
  destruct (as_str nv) as [n |]; simpl; [| auto].
  destruct (py_getitem p "in") as [loc |]; simpl; [| auto].
  repeat match goal with
         | |- context [if ?c then _ else _] => destruct c
         end; discriminate.
Qed.

Lemma bind_params_ok (pv : list (string * string)) (params : list json) :
  Forall param_ok params ->
  forall b, exists b', bind_params pv b params = Ok b'.
Proof.
  induction 1 as [| p params [v Hv] Hrest IH]; intros b.
  - now exists b.
  - simpl. rewrite (bind_param_bucket pv b p v Hv). simpl. apply IH.
Qed.

Lemma bind_params_first_error (pv : list (string * string))
    (before after : list json) (p : json) (e : error) (b : Binding) :
  Forall param_ok before ->
  bind_param pv empty_binding p = Err e ->
  bind_params pv b (before ++ p :: after) = Err e.
Proof.
  intros Hbefore Hp. rewrite bind_params_app.
  destruct (bind_params_ok pv before Hbefore b) as [b1 ->]. simpl.
  now rewrite (bind_param_error_any_state pv empty_binding b1 p e Hp).
Qed.

(** X7. The first malformed parameter of the operation decides the failure
    of [generate_script], for every language and whatever follows it: a
    parameter object without [name] (a [$ref] parameter, say) raises
    [KeyError('name')], one with a name but without [in] raises
    [KeyError('in')], and a parameter that is not an object raises
    [TypeError]. *)
Theorem malformed_parameter_fails :
  forall (doc : json) (ep : Endpoint) (pv : list (string * string)) (lang base : string)
         (paths item : json) (op : list (string * json))
         (before after : list json) (p : json),
    base_url doc = Ok base ->
    py_getitem doc "paths" = Ok paths ->
    py_getitem paths ep.(path) = Ok item ->
    py_getitem item (lower ep.(method)) = Ok (JObj op) ->
    Dict.get op "parameters" (JArr []) = JArr (before ++ p :: after) ->
    Forall param_ok before ->
    (forall d, p = JObj d -> Dict.lookup "name" d = None ->
               generate_script doc ep pv lang = Err (KeyError "name"))
    /\ (forall d n, p = JObj d -> Dict.lookup "name" d = Some (JStr n) ->
                    Dict.lookup "in" d = None ->
                    generate_script doc ep pv lang = Err (KeyError "in"))
    /\ ((forall d, p <> JObj d) ->
        generate_script doc ep pv lang = Err TypeError).
Proof.
  intros doc ep pv lang base paths item op before after p Hb Hp Hi Ho Hps Hbefore.
  assert (Hgen : forall e, bind_param pv empty_binding p = Err e ->
                           generate_script doc ep pv lang = Err e).
  { intros e He. unfold generate_script.
    rewrite (bind_request_found doc ep pv base paths item (JObj op)
               (JArr (before ++ p :: after)) (before ++ p :: after) Hb Hp Hi Ho);
      [| simpl; now rewrite Hps | reflexivity].
    now rewrite (bind_params_first_error pv before after p e empty_binding Hbefore He). }
  split; [| split].
  - intros d -> Hn. apply Hgen. unfold bind_param. simpl. now rewrite Hn.
  - intros d n -> Hn Hl. apply Hgen. unfold bind_param. simpl. rewrite Hn. simpl.
    now rewrite Hl.
  - intros Hnot. apply Hgen. unfold bind_param.
    destruct p; try reflexivity. exfalso. now apply (Hnot items).
Qed.

Lemma malformed_parameter_fails_witness :
  generate_script (JObj ref_doc) get_items [] "Python" = Err (KeyError "name").
Proof.
  refine (proj1 (malformed_parameter_fails (JObj ref_doc) get_items [] "Python" "https://h"
                  (JObj [("/items", JObj
                            [("get", JObj
                                [("parameters", JArr
                                    [JObj [("name", JStr "q"); ("in", JStr "query")];
                                     JObj [("$ref", JStr "#/components/parameters/limit")];
                                     JNull])])])])
                  (JObj [("get", JObj
                            [("parameters", JArr
                                [JObj [("name", JStr "q"); ("in", JStr "query")];
                                 JObj [("$ref", JStr "#/components/parameters/limit")];
                                 JNull])])])
                  [("parameters", JArr
                      [JObj [("name", JStr "q"); ("in", JStr "query")];
                       JObj [("$ref", JStr "#/components/parameters/limit")];
                       JNull])]
                  [JObj [("name", JStr "q"); ("in", JStr "query")]]
                  [JNull]
                  (JObj [("$ref", JStr "#/components/parameters/limit")])
                  eq_refl eq_refl eq_refl eq_refl eq_refl _)
           [("$ref", JStr "#/components/parameters/limit")] eq_refl eq_refl).
  constructor; [| constructor].
  exists ("q", JStr "query"). split; reflexivity.
Defined.

(** ** Base URL: failures *)

Lemma generate_script_base_error (doc : json) (ep : Endpoint)
    (pv : list (string * string)) (lang : string) (e : error) :
  base_url doc = Err e -> generate_script doc ep pv lang = Err e.
Proof.
  intros H. unfold generate_script, bind_request. now rewrite H.
Qed.

(** X8. The base URL is resolved before anything else and has no fallback:
    when [servers] is a non-empty list whose first entry has no [url],
    [generate_script] raises [KeyError('url')] even if [host] is given; when
    [servers] is absent or empty and [schemes] is an empty list, it raises
    [IndexError] instead of defaulting to [https]. Either way the failure
    does not depend on the endpoint or the language. *)
Theorem base_url_failures :
  forall (d : list (string * json)) (ep : Endpoint) (pv : list (string * string))
         (lang : string),
    (forall s0 rest,
        Dict.lookup "servers" d = Some (JArr (JObj s0 :: rest)) ->
        Dict.lookup "url" s0 = None ->
        generate_script (JObj d) ep pv lang = Err (KeyError "url"))
    /\ (truthy (Dict.get d "servers" (JArr [])) = false ->
        Dict.lookup "schemes" d = Some (JArr []) ->
        generate_script (JObj d) ep pv lang = Err IndexError).
Proof.
  intros d ep pv lang. split.
  - intros s0 rest Hs Hu. apply generate_script_base_error.
    unfold base_url, py_get, Dict.get. rewrite Hs. simpl. now rewrite Hu.
  - intros Ht Hsch. apply generate_script_base_error.
    assert (Hget : Dict.get d "schemes" (JArr [JStr "https"]) = JArr []).
    { unfold Dict.get. now rewrite Hsch. }
    unfold base_url, py_get. simpl. rewrite Ht. simpl. now rewrite Hget.
Qed.

Lemma base_url_failures_witness :
  generate_script
    (JObj [("servers", JArr [JObj [("description", JStr "prod")]]); ("host", JStr "h");
           ("paths", JObj [("/y", JObj [("post", JObj [])])])])
    create_y [] "Python"
  = Err (KeyError "url")
  /\ generate_script
       (JObj [("host", JStr "h"); ("schemes", JArr []);
              ("paths", JObj [("/y", JObj [("post", JObj [])])])])
       create_y [] "Python"
     = Err IndexError.
Proof.
  split.
  - exact (proj1 (base_url_failures
                    [("servers", JArr [JObj [("description", JStr "prod")]]);
                     ("host", JStr "h");
                     ("paths", JObj [("/y", JObj [("post", JObj [])])])]
                    create_y [] "Python")
             [("description", JStr "prod")] [] eq_refl eq_refl).
  - exact (proj2 (base_url_failures
                    [("host", JStr "h"); ("schemes", JArr []);
                     ("paths", JObj [("/y", JObj [("post", JObj [])])])]
                    create_y [] "Python") eq_refl eq_refl).
Defined.

(** ** From extraction to generation *)

Lemma item_ready_shaped (item : json) :
  item_ready item -> exists ms, item = JObj ms /\ operations_shaped ms.
Proof.
  intros [ms [-> [_ Hops]]]. exists ms. split; [reflexivity |].
  unfold operations_shaped. apply Forall_impl with (2 := Hops).
  intros [m op] H Hm. destruct (H Hm) as [_ [o [params [Ho _]]]]. now exists o.
Qed.

Lemma paths_ready_shaped (ps : list (string * json)) :
  paths_ready ps -> paths_shaped ps.
Proof.
  intros [_ H]. unfold paths_shaped. apply Forall_impl with (2 := H).
  intros [p item] Hi. simpl in *. now apply item_ready_shaped.
Qed.

Lemma ready_endpoint_binds (d ps : list (string * json)) (base : string)
    (e : Endpoint) (pv : list (string * string)) :
  Dict.lookup "paths" d = Some (JObj ps) ->
  base_url (JObj d) = Ok base ->
  paths_ready ps ->
  In e (declared_endpoints ps) ->
  exists r, bind_request (JObj d) e pv = Ok r /\ In (upper r.(req_method)) upper_methods.
Proof.
  intros Hpaths Hbase [Hnd Hready] Hin.
  apply declared_endpoints_inv in Hin as [p [item [m [op [Hpi [Hmo [Hm ->]]]]]]].
  pose proof (proj1 (Forall_forall _ _) Hready (p, item) Hpi) as Hitem. simpl in Hitem.
  destruct Hitem as [ms [-> [Hndm Hops]]]. simpl in Hmo.
  pose proof (proj1 (Forall_forall _ _) Hops (m, op) Hmo Hm) as [Hlow Hop].
  simpl in Hlow, Hop. destruct Hop as [o [params [-> [Hparams Hok]]]].
  destruct (bind_params_ok pv params Hok empty_binding) as [b Hb].
  eexists. split.
  - rewrite (bind_request_found (JObj d) (declared_endpoint p m (fields_of (JObj o))) pv
               base (JObj ps) (JObj ms) (JObj o) (JArr params) params Hbase).
    + rewrite Hb. reflexivity.
    + simpl. now rewrite Hpaths.
    + simpl. now rewrite (lookup_unique ps p (JObj ms) Hnd Hpi).
    + simpl. rewrite lower_upper, Hlow.
      now rewrite (lookup_unique ms m (JObj o) Hndm Hmo).
    + simpl. now rewrite Hparams.
    + reflexivity.
  - simpl. rewrite upper_lower. rewrite <- upper_lower.
    rewrite lower_upper, upper_lower. now apply upper_of_http_method.
Qed.

(** X9. On a document whose base URL resolves, whose dicts have unique keys,
    whose operations sit under lower-case verb keys and whose parameters
    each have a string [name] and an [in], [list_endpoints] succeeds and
    [generate_script] returns source text for every descriptor it lists, in
    each of the four languages and for any supplied values. *)
Theorem listed_endpoints_generate :
  forall (d ps : list (string * json)) (base : string),
    Dict.lookup "paths" d = Some (JObj ps) ->
    base_url (JObj d) = Ok base ->
    paths_ready ps ->
    exists eps,
      list_endpoints (JObj d) = Ok eps
      /\ forall e pv lang,
           In e eps -> In lang languages ->
           exists src, generate_script (JObj d) e pv lang = Ok src.
Proof.
  intros d ps base Hpaths Hbase Hready.
  exists (declared_endpoints ps). split.
  - apply list_endpoints_of_shaped; [exact Hpaths | now apply paths_ready_shaped].
  - intros e pv lang He Hlang.
    destruct (ready_endpoint_binds d ps base e pv Hpaths Hbase Hready He) as [r [Hr _]].
    exists (renderer_of lang r).
    exact (proj1 (generate_script_dispatch (JObj d) e pv lang r Hr) Hlang).
Qed.

Lemma search_doc_ready :
  paths_ready
    [("/items/{id}", JObj
        [("get", JObj
            [("parameters", JArr
                [JObj [("name", JStr "q"); ("in", JStr "query")];
                 JObj [("name", JStr "id"); ("in", JStr "path")];
                 JObj [("name", JStr "q"); ("in", JStr "query")];
                 JObj [("name", JStr "lang"); ("in", JStr "query")];
                 JObj [("name", JStr "trace"); ("in", JStr "cookie")]])])])].
Proof.
  split; [repeat constructor; intros [] |].
  constructor; [| constructor]. simpl.
  eexists. split; [reflexivity |]. split; [repeat constructor; intros [] |].
  constructor; [| constructor]. simpl. intros _. split; [reflexivity |].
  eexists. eexists. split; [reflexivity |]. split; [reflexivity |].
  repeat (constructor; [eexists (_, _); split; reflexivity |]). constructor.
Defined.

Lemma listed_endpoints_generate_witness :
  exists eps,
    list_endpoints (JObj search_doc) = Ok eps
    /\ forall e pv lang,
         In e eps -> In lang languages ->
         exists src, generate_script (JObj search_doc) e pv lang = Ok src.
Proof.
  exact (listed_endpoints_generate search_doc _ "https://h" eq_refl eq_refl
           search_doc_ready).
Defined.

(** ** The generation loop: which files it writes *)

Section Loop.

Variable io_of : Gui.disk.
Variables (spec : json) (pvs : list (json * list (string * string))).
Variables (lang : string) (sep : bool) (out cwd : string).

Local Abbreviation loop := (Gui.generate_loop io_of spec pvs lang sep out cwd).
Local Abbreviation target := (script_path lang sep out cwd).

Lemma generate_loop_cons (ep : Endpoint) (rest : list Endpoint) (log : list Gui.write) :
  loop (ep :: rest) log
  = match Gui.key_of ep.(operationId) with
    | Err e => (log, Gui.Crashed e)
    | Ok k =>
        match generate_script spec ep (Gui.values_for pvs k) lang with
        | Err e => (log, Gui.Failed (Gui.py_str ep.(operationId)) e)
        | Ok code =>
            match Gui.save_script io_of code (target ep.(operationId)) log with
            | (log', Some e) => (log', Gui.Failed (Gui.py_str ep.(operationId)) e)
            | (log', None) => loop rest log'
            end
        end
    end.
Proof.
  cbn [Gui.generate_loop]. unfold script_path. destruct sep; reflexivity.
Qed.

Lemma generate_loop_nil (log : list Gui.write) : loop [] log = (log, Gui.Success).
Proof. reflexivity. Qed.

Lemma generate_loop_app (l1 l2 : list Endpoint) :
  forall log,
    loop (l1 ++ l2) log
    = match loop l1 log with
      | (log1, Gui.Success) => loop l2 log1
      | stopped => stopped
      end.
Proof.
  induction l1 as [| ep l1 IH]; intros log; [reflexivity |].
  change ((ep :: l1) ++ l2)%list with (ep :: (l1 ++ l2))%list.
  rewrite !generate_loop_cons.
  destruct (Gui.key_of (operationId ep)) as [k | e]; [| reflexivity].
  destruct (generate_script spec ep (Gui.values_for pvs k) lang) as [code | e];
    [| reflexivity].
  destruct (Gui.save_script io_of code (target (operationId ep)) log) as [log' [e |]];
    [reflexivity | apply IH].
Qed.

(** A successful run generated every script and stored each at its path, in
    the order of the selection. *)
Lemma generate_loop_success_inv (eps : list Endpoint) :
  forall log log',
    loop eps log = (log', Gui.Success) ->
    exists codes,
      Forall2 (fun ep code => script_of spec pvs lang ep = Ok code) eps codes
      /\ log' = (log ++ combine (map (fun ep => target ep.(operationId)) eps) codes)%list.
Proof.
  induction eps as [| ep eps IH]; intros log log' H.
  - rewrite generate_loop_nil in H. injection H as <-. exists []. split; [constructor |].
    simpl. now rewrite app_nil_r.
  - rewrite generate_loop_cons in H.
    destruct (Gui.key_of (operationId ep)) as [k | e] eqn:Hk; [| discriminate H].
    destruct (generate_script spec ep (Gui.values_for pvs k) lang) as [code | e] eqn:Hg;
      [| discriminate H].
    unfold Gui.save_script in H.
    destruct (io_of log (target (operationId ep)) code); try discriminate H.
    destruct (IH _ _ H) as [codes [HF ->]]. exists (code :: codes). split.
    + constructor; [| exact HF]. unfold script_of. rewrite Hk. exact Hg.
    + simpl. now rewrite <- app_assoc.
Qed.

(** Whatever the outcome, the run only adds writes, at most one per selected
    endpoint, each at the path of a selected endpoint whose script was
    generated. *)
Lemma generate_loop_extends (eps : list Endpoint) :
  forall log log' o,
    loop eps log = (log', o) ->
    exists added,
      log' = (log ++ added)%list
      /\ length added <= length eps
      /\ Forall (fun w => exists ep,
                     In ep eps /\ fst w = target ep.(operationId)
                     /\ is_ok (script_of spec pvs lang ep) = true) added.
Proof.
  induction eps as [| ep eps IH]; intros log log' o H.
  - rewrite generate_loop_nil in H. injection H as <- <-. exists [].
    rewrite app_nil_r. repeat split; [simpl; lia | constructor].
  - rewrite generate_loop_cons in H.
    assert (Hnone : (log', o) = (log', o) -> log' = log ->
                    exists added, log' = (log ++ added)%list
                      /\ length added <= length (ep :: eps)
                      /\ Forall (fun w => exists ep',
                             In ep' (ep :: eps) /\ fst w = target ep'.(operationId)
                             /\ is_ok (script_of spec pvs lang ep') = true) added).
    { intros _ ->. exists []. rewrite app_nil_r. repeat split; [simpl; lia | constructor]. }
    destruct (Gui.key_of (operationId ep)) as [k | e] eqn:Hk;
      [| injection H as <- <-; now apply Hnone].
    destruct (generate_script spec ep (Gui.values_for pvs k) lang) as [code | e] eqn:Hg;
      [| injection H as <- <-; now apply Hnone].
    assert (Hgen : is_ok (script_of spec pvs lang ep) = true).
    { unfold script_of. rewrite Hk. simpl. now rewrite Hg. }
    unfold Gui.save_script in H.
    destruct (io_of log (target (operationId ep)) code) as [| e | partial e].
    + destruct (IH _ _ _ H) as [added [-> [Hlen Hall]]].
      exists ((target (operationId ep), code) :: added). split; [| split].
      * now rewrite <- app_assoc.
      * simpl. lia.
      * constructor.
        -- exists ep. simpl. auto.
        -- apply Forall_impl with (2 := Hall).
           intros w [ep' [Hin Hw]]. exists ep'. simpl. auto.
    + injection H as <- <-. now apply Hnone.
    + injection H as <- <-. exists [(target (operationId ep), partial)].
      split; [reflexivity | split; [simpl; lia |]].
      constructor; [| constructor]. exists ep. simpl. auto.
Qed.

End Loop.

Lemma on_generate_script_loop io_of spec pvs lang sep out cwd eps log :
  Gui.on_generate_script io_of spec pvs lang sep out cwd eps log
  = Gui.generate_loop io_of spec pvs lang sep out cwd eps log
  \/ fst (Gui.on_generate_script io_of spec pvs lang sep out cwd eps log) = log
     /\ snd (Gui.on_generate_script io_of spec pvs lang sep out cwd eps log) <> Gui.Success.
Proof.
  unfold Gui.on_generate_script. destruct eps as [| ep eps].
  - right. split; [reflexivity | discriminate].
  - destruct (sep && String.eqb out ""); [right; split; [reflexivity | discriminate] |].
    now left.
Qed.

Lemma generate_loop_always_stored spec pvs lang sep out cwd (eps : list Endpoint) :
  forall codes log,
    Forall2 (fun ep code => script_of spec pvs lang ep = Ok code) eps codes ->
    Gui.generate_loop always_stored spec pvs lang sep out cwd eps log
    = ((log ++ combine (map (fun ep => script_path lang sep out cwd ep.(operationId)) eps)
                 codes)%list, Gui.Success).
Proof.
  induction eps as [| ep eps IH]; intros codes log HF; inversion HF as [| ? code ? cs Hc HF']; subst.
  - simpl. now rewrite app_nil_r.
  - rewrite generate_loop_cons. unfold script_of in Hc.
    destruct (Gui.key_of (operationId ep)) as [k | e]; [| discriminate Hc].
    simpl in Hc. rewrite Hc. unfold Gui.save_script, always_stored.
    rewrite (IH cs _ HF'). simpl. now rewrite <- app_assoc.
Qed.

Lemma generate_script_ok_language (spec : json) (ep : Endpoint)
    (pv : list (string * string)) (lang code : string) :
  generate_script spec ep pv lang = Ok code -> In lang languages.
Proof.
  unfold generate_script. destruct (bind_request spec ep pv); simpl; [| discriminate].
  destruct (String.eqb_spec lang "Python") as [-> | _]; [simpl; auto |].
  destruct (String.eqb_spec lang "C#") as [-> | _]; [simpl; auto |].
  destruct (String.eqb_spec lang "JavaScript") as [-> | _]; [simpl; auto |].
  destruct (String.eqb_spec lang "PHP") as [-> | _]; [simpl; auto 6 |].
  discriminate.
Qed.

Lemma script_of_ok_language spec pvs (lang : string) (ep : Endpoint) :
  is_ok (script_of spec pvs lang ep) = true -> In lang languages.
Proof.
  unfold script_of. destruct (Gui.key_of (operationId ep)) as [k | e]; [| discriminate].
  simpl. destruct (generate_script spec ep (Gui.values_for pvs k) lang) as [code |] eqn:Hg;
    [| discriminate].
  intros _. exact (generate_script_ok_language _ _ _ _ _ Hg).
Qed.

Lemma extension_of_language (lang : string) :
  In lang languages -> In (Gui.get_file_extension lang) extensions.
Proof.
  simpl. intros [<- | [<- | [<- | [<- | []]]]]; vm_compute; auto.
Qed.

Lemma endswith_app_r (suf a b : string) :
  endswith suf b = true -> endswith suf (a ++ b) = true.
Proof.
  intros H. induction a as [| c a IH]; [exact H |].
  change (endswith suf (String c a ++ b))
    with (String.eqb (String c (a ++ b)) suf || endswith suf (a ++ b)).
  now rewrite IH, orb_true_r.
Qed.

Lemma path_join_endswith (suf dir name : string) :
  endswith suf name = true -> endswith suf (Gui.path_join dir name) = true.
Proof.
  intros H. unfold Gui.path_join.
  destruct (startswith "/" name); [exact H |].
  destruct (String.eqb dir "" || endswith "/" dir).
  - now apply endswith_app_r.
  - apply endswith_app_r. now apply (endswith_app_r suf "/" name).
Qed.

Lemma script_path_endswith (lang : string) (sep : bool) (out cwd : string) (id : json) :
  endswith ("." ++ Gui.get_file_extension lang) (script_path lang sep out cwd id) = true.
Proof.
  unfold script_path. destruct sep; apply path_join_endswith.
  - apply endswith_app.
  - apply (endswith_app "generated_script").
Qed.

(** X10. The loop stops at the first endpoint that fails, whether
    [generate_script] raises or the file cannot be written: the writes of the
    endpoints before it stand, none of the later endpoints is generated, and
    the outcome names the failing operation and its error. When [open]
    fails nothing is added; when [write] fails the truncated file is. *)
Theorem generate_loop_fail_fast :
  forall io_of spec pvs lang sep out cwd (done rest : list Endpoint) (bad : Endpoint)
         (log log1 : list Gui.write) (k : Gui.key),
    Gui.generate_loop io_of spec pvs lang sep out cwd done log = (log1, Gui.Success) ->
    Gui.key_of bad.(operationId) = Ok k ->
    (forall e,
        generate_script spec bad (Gui.values_for pvs k) lang = Err e ->
        Gui.generate_loop io_of spec pvs lang sep out cwd (done ++ bad :: rest) log
        = (log1, Gui.Failed (Gui.py_str bad.(operationId)) e))
    /\ (forall code e,
          generate_script spec bad (Gui.values_for pvs k) lang = Ok code ->
          io_of log1 (script_path lang sep out cwd bad.(operationId)) code
          = Gui.OpenFails e ->
          Gui.generate_loop io_of spec pvs lang sep out cwd (done ++ bad :: rest) log
          = (log1, Gui.Failed (Gui.py_str bad.(operationId)) e))
    /\ (forall code partial e,
          generate_script spec bad (Gui.values_for pvs k) lang = Ok code ->
          io_of log1 (script_path lang sep out cwd bad.(operationId)) code
          = Gui.WriteFails partial e ->
          Gui.generate_loop io_of spec pvs lang sep out cwd (done ++ bad :: rest) log
          = ((log1 ++ [(script_path lang sep out cwd bad.(operationId), partial)])%list,
             Gui.Failed (Gui.py_str bad.(operationId)) e)).
Proof.
  intros io_of spec pvs lang sep out cwd done rest bad log log1 k Hdone Hk.
  split; [| split].
  - intros e Herr. rewrite generate_loop_app, Hdone, generate_loop_cons, Hk, Herr.
    reflexivity.
  - intros code e Hg Hio. rewrite generate_loop_app, Hdone, generate_loop_cons, Hk, Hg.
    unfold Gui.save_script. rewrite Hio. reflexivity.
  - intros code partial e Hg Hio.
    rewrite generate_loop_app, Hdone, generate_loop_cons, Hk, Hg.
    unfold Gui.save_script. rewrite Hio. reflexivity.
Qed.

Lemma generate_loop_fail_fast_witness :
  Gui.generate_loop (missing_dir "/out/sub/") (JObj odd_ids_doc) [] "PHP" true "/out" "/cwd"
    ([read_five] ++ read_sub :: [read_five]) []
  = ([("/out/5.php", generate_php_code "http://x/a" "get" [] [] None [])],
     Gui.Failed "sub/readB" (OSError "/out/sub/readB.php")).
Proof.
  apply (proj1 (proj2 (generate_loop_fail_fast (missing_dir "/out/sub/") (JObj odd_ids_doc)
                         [] "PHP" true "/out" "/cwd" [read_five] [read_five] read_sub []
                         [("/out/5.php", generate_php_code "http://x/a" "get" [] [] None [])]
                         (Gui.KStr "sub/readB") eq_refl eq_refl))
           (generate_php_code "http://x/b" "get" [] [] None [])
           (OSError "/out/sub/readB.php"));
    reflexivity.
Defined.

(** X11. Whatever its outcome, [on_generate_script] only adds writes: at most
    one per selected endpoint, each at the path of a selected endpoint whose
    script was generated. It opens no other path. *)
Theorem on_generate_script_writes_targets :
  forall io_of spec pvs lang sep out cwd (eps : list Endpoint)
         (log log' : list Gui.write) (o : Gui.outcome),
    Gui.on_generate_script io_of spec pvs lang sep out cwd eps log = (log', o) ->
    exists added,
      log' = (log ++ added)%list
      /\ length added <= length eps
      /\ Forall (fun w => exists ep,
                     In ep eps
                     /\ fst w = script_path lang sep out cwd ep.(operationId)
                     /\ is_ok (script_of spec pvs lang ep) = true) added.
Proof.
  intros io_of spec pvs lang sep out cwd eps log log' o H.
  destruct (on_generate_script_loop io_of spec pvs lang sep out cwd eps log) as [E | [E _]].
  - rewrite E in H. exact (generate_loop_extends _ _ _ _ _ _ _ _ _ _ _ H).
  - rewrite H in E. simpl in E. subst log'. exists []. rewrite app_nil_r.
    repeat split; [simpl; lia | constructor].
Qed.

Lemma on_generate_script_writes_targets_witness :
  exists added,
    fst (Gui.on_generate_script (missing_dir "/out/sub/") (JObj odd_ids_doc) [] "PHP" true
           "/out" "/cwd" [read_five; read_sub] [("/out/kept", "x")])
    = ([("/out/kept", "x")] ++ added)%list
    /\ length added <= 2
    /\ Forall (fun w => exists ep,
                   In ep [read_five; read_sub]
                   /\ fst w = script_path "PHP" true "/out" "/cwd" ep.(operationId)
                   /\ is_ok (script_of (JObj odd_ids_doc) [] "PHP" ep) = true) added.
Proof.
  apply (on_generate_script_writes_targets (missing_dir "/out/sub/") (JObj odd_ids_doc) []
           "PHP" true "/out" "/cwd" [read_five; read_sub] [("/out/kept", "x")] _
           (snd (Gui.on_generate_script (missing_dir "/out/sub/") (JObj odd_ids_doc) [] "PHP"
                   true "/out" "/cwd" [read_five; read_sub] [("/out/kept", "x")]))).
  apply surjective_pairing.
Defined.

Lemma combine_constant {A B C : Type} (p : C) (l : list A) :
  forall (cs : list B),
    length l = length cs ->
    combine (map (fun _ => p) l) cs = map (fun c => (p, c)) cs.
Proof.
  induction l as [| a l IH]; intros [| c cs] Hlen; try discriminate Hlen; [reflexivity |].
  simpl. f_equal. apply IH. now injection Hlen.
Qed.

(** X12. In combined mode every endpoint is written to the one path
    [generated_script.<ext>] under the working directory: after a successful
    run the writes added are one per endpoint, all at that path, and the last
    of them is the script of the last selected endpoint. *)
Theorem combined_mode_keeps_last :
  forall io_of spec pvs lang out cwd (init : list Endpoint) (last : Endpoint)
         (log log' : list Gui.write),
    Gui.on_generate_script io_of spec pvs lang false out cwd (init ++ [last]) log
    = (log', Gui.Success) ->
    exists codes code,
      script_of spec pvs lang last = Ok code
      /\ length codes = length init
      /\ log' = (log ++ map (fun c => (Gui.path_join cwd
                                        ("generated_script." ++ Gui.get_file_extension lang),
                                      c))
                          (codes ++ [code]))%list.
Proof.
  intros io_of spec pvs lang out cwd init last log log' H.
  destruct (on_generate_script_loop io_of spec pvs lang false out cwd (init ++ [last]) log)
    as [E | [_ E]]; [| rewrite H in E; now elim E].
  rewrite E in H.
  destruct (generate_loop_success_inv _ _ _ _ _ _ _ _ _ _ H) as [codes [HF ->]].
  pose proof (Forall2_length HF) as Hlen.
  destruct (Forall2_app_inv_l _ _ HF) as [c1 [c2 [H1 [H2 ->]]]].
  inversion H2 as [| ? code ? cs Hc Hnil]; subst. inversion Hnil; subst.
  exists c1, code. split; [exact Hc |]. split; [symmetry; exact (Forall2_length H1) |].
  f_equal.
  exact (combine_constant (script_path lang false out cwd JNull) (init ++ [last])
           (c1 ++ [code]) ltac:(now rewrite length_map in Hlen || exact Hlen)).
Qed.

Lemma combined_mode_keeps_last_witness :
  exists codes code,
    script_of (JObj odd_ids_doc) [] "PHP" read_five = Ok code
    /\ length codes = 1
    /\ fst (Gui.on_generate_script always_stored (JObj odd_ids_doc) [] "PHP" false "" "/cwd"
              ([read_sub] ++ [read_five]) [])
       = ([] ++ map (fun c => (Gui.path_join "/cwd"
                                 ("generated_script." ++ Gui.get_file_extension "PHP"), c))
                  (codes ++ [code]))%list.
Proof.
  apply (combined_mode_keeps_last always_stored (JObj odd_ids_doc) [] "PHP" "" "/cwd"
           [read_sub] read_five []).
  reflexivity.
Defined.

(** X13. Whatever [on_generate_script] writes goes to a path that ends in
    the extension of one of the four languages, whatever the [operationId]
    is and whatever the file system does. *)
Theorem written_files_have_known_extension :
  forall io_of spec pvs lang sep out cwd (eps : list Endpoint)
         (log log' : list Gui.write) (o : Gui.outcome),
    Gui.on_generate_script io_of spec pvs lang sep out cwd eps log = (log', o) ->
    exists added,
      log' = (log ++ added)%list
      /\ Forall (fun w => exists ext,
                     In ext extensions /\ endswith ("." ++ ext) (fst w) = true) added.
Proof.
  intros io_of spec pvs lang sep out cwd eps log log' o H.
  assert (Hadd : exists added,
             log' = (log ++ added)%list
             /\ Forall (fun w => exists ep,
                            In ep eps
                            /\ fst w = script_path lang sep out cwd ep.(operationId)
                            /\ is_ok (script_of spec pvs lang ep) = true) added).
  { destruct (on_generate_script_loop io_of spec pvs lang sep out cwd eps log)
      as [E | [E _]].
    - rewrite E in H.
      destruct (generate_loop_extends _ _ _ _ _ _ _ _ _ _ _ H) as [added [-> [_ Hall]]].
      now exists added.
    - rewrite H in E. simpl in E. subst log'. exists []. rewrite app_nil_r.
      split; [reflexivity | constructor]. }
  destruct Hadd as [added [-> Hall]]. exists added. split; [reflexivity |].
  apply Forall_impl with (2 := Hall). intros w [ep [_ [Hw Hgen]]].
  exists (Gui.get_file_extension lang). split.
  - apply extension_of_language. exact (script_of_ok_language _ _ _ _ Hgen).
  - rewrite Hw. apply script_path_endswith.
Qed.

Lemma written_files_have_known_extension_witness :
  exists added,
    fst (Gui.on_generate_script always_stored (JObj odd_ids_doc) [] "C#" true "/out" "/cwd"
           [read_five; read_sub] [])
    = ([] ++ added)%list
    /\ Forall (fun w => exists ext,
                   In ext extensions /\ endswith ("." ++ ext) (fst w) = true) added.
Proof.
  apply (written_files_have_known_extension always_stored (JObj odd_ids_doc) [] "C#" true
           "/out" "/cwd" [read_five; read_sub] [] _
           (snd (Gui.on_generate_script always_stored (JObj odd_ids_doc) [] "C#" true "/out"
                   "/cwd" [read_five; read_sub] []))).
  apply surjective_pairing.
Defined.

(** X14. A run is successful only if every selected endpoint's script was
    generated and stored, in the order of the selection, each at its own
    path; and on a file system where every write goes through, a selection
    whose scripts all generate gives exactly those writes and succeeds. *)
Theorem successful_run_log :
  forall io_of spec pvs lang sep out cwd,
    (forall eps log log',
        Gui.generate_loop io_of spec pvs lang sep out cwd eps log = (log', Gui.Success) ->
        exists codes,
          Forall2 (fun ep code => script_of spec pvs lang ep = Ok code) eps codes
          /\ log' = (log ++ combine (map (fun ep => script_path lang sep out cwd
                                                     ep.(operationId)) eps) codes)%list)
    /\ (forall eps codes log,
          Forall2 (fun ep code => script_of spec pvs lang ep = Ok code) eps codes ->
          Gui.generate_loop always_stored spec pvs lang sep out cwd eps log
          = ((log ++ combine (map (fun ep => script_path lang sep out cwd
                                               ep.(operationId)) eps) codes)%list,
             Gui.Success)).
Proof.
  intros io_of spec pvs lang sep out cwd. split.
  - intros eps log log' H. exact (generate_loop_success_inv _ _ _ _ _ _ _ _ _ _ H).
  - intros eps codes log HF. now apply generate_loop_always_stored.
Qed.

Lemma successful_run_log_witness :
  Gui.generate_loop always_stored (JObj odd_ids_doc) [] "PHP" true "/out" "/cwd"
    [read_five; read_sub] [("/out/kept", "x")]
  = ([("/out/kept", "x");
      ("/out/5.php", generate_php_code "http://x/a" "get" [] [] None []);
      ("/out/sub/readB.php", generate_php_code "http://x/b" "get" [] [] None [])],
     Gui.Success).
Proof.
  apply (proj2 (successful_run_log always_stored (JObj odd_ids_doc) [] "PHP" true "/out"
                  "/cwd")
           [read_five; read_sub]
           [generate_php_code "http://x/a" "get" [] [] None [];
            generate_php_code "http://x/b" "get" [] [] None []]
           [("/out/kept", "x")]).
  repeat constructor.
Defined.


(** ** Substitution and the base URL *)

Lemma replace_keeps_prefix (name value base rest : string) :
  has_char "{" base = false ->
  replace (placeholder name) value (base ++ rest)
  = base ++ replace (placeholder name) value rest.
Proof.
  intros H. apply replace_copies.
  change (placeholder name) with (String "{" (name ++ "}")).
  now apply no_start_fresh.
Qed.

Lemma substitute_keeps_prefix (base : string) (pps : list (string * string)) :
  has_char "{" base = false ->
  forall rest, substitute_path pps (base ++ rest) = base ++ substitute_path pps rest.
Proof.
  intros H. induction pps as [| [n v] pps IH]; intros rest; [reflexivity |].
  change (substitute_path ((n, v) :: pps) (base ++ rest))
    with (substitute_path pps (replace (placeholder n) v (base ++ rest))).
  now rewrite (replace_keeps_prefix n v base rest H), IH.
Qed.

(** X15. Substitution runs over the whole URL, base included; a base URL
    without an opening brace comes through unchanged, so that the bound URL
    is the base followed by the substituted path. (A server URL template
    such as [https://{env}.example.com] is rewritten by a path parameter of
    the same name.) *)
Theorem bound_url_keeps_base :
  forall (doc : json) (ep : Endpoint) (pv : list (string * string)) (r : Request)
         (base : string),
    bind_request doc ep pv = Ok r ->
    base_url doc = Ok base ->
    has_char "{" base = false ->
    exists params b,
      bind_params pv empty_binding params = Ok b
      /\ r.(req_url) = base ++ substitute_path b.(path_params) ep.(path).
Proof.
  intros doc ep pv r base Hr Hbase Hfree.
  apply bind_request_ok_inv in Hr as [base' [params [b [Hbase' [Hb ->]]]]].
  rewrite Hbase in Hbase'. injection Hbase' as <-.
  exists params, b. split; [exact Hb |]. simpl.
  now apply substitute_keeps_prefix.
Qed.

Lemma bound_url_keeps_base_witness :
  exists params b,
    bind_params [("q", "rocq"); ("id", "7")] empty_binding params = Ok b
    /\ "https://h/items/7" = "https://h" ++ substitute_path b.(path_params) "/items/{id}".
Proof.
  exact (bound_url_keeps_base (JObj search_doc) get_item [("q", "rocq"); ("id", "7")]
           (mkRequest "https://h/items/7" "get" [("q", "rocq"); ("lang", "")] [] None [])
           "https://h" eq_refl eq_refl eq_refl).
Defined.

(** ** What generation reads of an operation *)

(** X16. Of the operation it looks up, [generate_script] reads the
    [parameters] only: two documents with the same base URL whose operations
    at the endpoint have the same parameter list give the same result,
    whatever else the operations hold ([requestBody], [consumes],
    [security], ...). *)
Theorem generate_script_reads_parameters_only :
  forall (doc1 doc2 : json) (ep : Endpoint) (pv : list (string * string)) (lang base : string)
         (paths1 item1 paths2 item2 : json) (op1 op2 : list (string * json)),
    base_url doc1 = Ok base -> base_url doc2 = Ok base ->
    py_getitem doc1 "paths" = Ok paths1 -> py_getitem paths1 ep.(path) = Ok item1 ->
    py_getitem item1 (lower ep.(method)) = Ok (JObj op1) ->
    py_getitem doc2 "paths" = Ok paths2 -> py_getitem paths2 ep.(path) = Ok item2 ->
    py_getitem item2 (lower ep.(method)) = Ok (JObj op2) ->
    Dict.get op1 "parameters" (JArr []) = Dict.get op2 "parameters" (JArr []) ->
    generate_script doc1 ep pv lang = generate_script doc2 ep pv lang.
Proof.
  intros doc1 doc2 ep pv lang base paths1 item1 paths2 item2 op1 op2
         Hb1 Hb2 Hp1 Hi1 Ho1 Hp2 Hi2 Ho2 Hparams.
  unfold generate_script, bind_request.
  rewrite Hb1, Hb2. simpl. rewrite Hp1, Hp2. simpl. rewrite Hi1, Hi2. simpl.
  rewrite Ho1, Ho2. simpl. now rewrite Hparams.
Qed.

Lemma generate_script_reads_parameters_only_witness :
  generate_script
    (JObj [("servers", JArr [JObj [("url", JStr "http://x")]]);
           ("paths", JObj [("/y", JObj [("post", JObj
              [("operationId", JStr "createY");
               ("requestBody", JObj [("required", JBool true)])])])])])
    create_y [] "Python"
  = generate_script (JObj openapi3_doc) create_y [] "Python".
Proof.
  apply (generate_script_reads_parameters_only
           (JObj [("servers", JArr [JObj [("url", JStr "http://x")]]);
                  ("paths", JObj [("/y", JObj [("post", JObj
                     [("operationId", JStr "createY");
                      ("requestBody", JObj [("required", JBool true)])])])])])
           (JObj openapi3_doc) create_y [] "Python" "http://x"
           (JObj [("/y", JObj [("post", JObj
                     [("operationId", JStr "createY");
                      ("requestBody", JObj [("required", JBool true)])])])])
           (JObj [("post", JObj
                     [("operationId", JStr "createY");
                      ("requestBody", JObj [("required", JBool true)])])])
           (JObj [("/y", JObj [("post", JObj [("operationId", JStr "createY")])])])
           (JObj [("post", JObj [("operationId", JStr "createY")])])
           [("operationId", JStr "createY");
            ("requestBody", JObj [("required", JBool true)])]
           [("operationId", JStr "createY")]);
    reflexivity.
Defined.

(** ** Renderers: a form without body *)

Lemma startswith_app_l (p a b : string) :
  startswith p a = true -> startswith p (a ++ b) = true.
Proof.
  revert a. induction p as [| x p IH]; intros a H; [reflexivity |].
  destruct a as [| y a]; [discriminate H |].
  simpl in *. apply andb_true_iff in H as [-> H]. now rewrite (IH a H).
Qed.

Lemma contains_app_l (p a b : string) :
  contains p a = true -> contains p (a ++ b) = true.
Proof.
  induction a as [| c a IH]; intros H.
  - simpl in H. rewrite orb_false_r in H.
    destruct p; [| discriminate H]. destruct b; reflexivity.
  - change (contains p (String c a)) with (startswith p (String c a) || contains p a) in H.
    change (contains p (String c a ++ b))
      with (startswith p (String c a ++ b) || contains p (a ++ b)).
    apply orb_true_iff in H as [H | H].
    + now rewrite (startswith_app_l p (String c a) b H).
    + now rewrite (IH H), orb_true_r.
Qed.

Ltac find_token :=
  repeat first
    [ (apply contains_app_l; reflexivity)
    | apply contains_app_skip ];
  try reflexivity.

Lemma has_char_none_free (c : ascii) (p s : string) :
  has_char c p = true -> has_char c s = false -> contains p s = false.
Proof.
  intros Hp Hs.
  assert (Hstart : forall s', has_char c s' = false -> startswith p s' = false).
  { clear Hs. induction p as [| x p IH]; intros s' Hs'; [discriminate Hp |].
    destruct s' as [| y s']; [reflexivity |].
    simpl in Hs'. apply orb_false_iff in Hs' as [Hy Hs'].
    simpl. destruct (Ascii.eqb_spec x y) as [-> | _]; [| reflexivity].
    simpl in Hp. rewrite Hy in Hp. simpl in Hp. simpl. exact (IH Hp s' Hs'). }
  induction s as [| y s IH].
  - simpl. now rewrite (Hstart "" eq_refl).
  - change (contains p (String y s)) with (startswith p (String y s) || contains p s).
    rewrite (Hstart _ Hs). simpl in Hs. apply orb_false_iff in Hs as [_ Hs].
    now rewrite (IH Hs).
Qed.

(** A character that occurs in [p] at the end only closes every occurrence:
    text is cut after it. *)
Lemma startswith_only_last (c : ascii) (p : string) :
  only_last c p = true ->
  forall a b, startswith p (a ++ String c b) = startswith p (a ++ String c "").
Proof.
  unfold only_last. induction p as [| x p IH]; intros H a b; [reflexivity |].
  destruct a as [| y a].
  - simpl. destruct (Ascii.eqb_spec x c) as [-> | _]; [| reflexivity].
    destruct p as [| x' p]; [reflexivity |].
    simpl in H. rewrite Ascii.eqb_refl in H. discriminate H.
  - simpl. f_equal. destruct p as [| x' p]; [reflexivity |].
    apply IH. simpl in H. apply negb_true_iff in H. apply orb_false_iff in H as [_ H].
    now apply negb_true_iff.
Qed.

Lemma contains_only_last (c : ascii) (p a b : string) :
  only_last c p = true ->
  contains p (a ++ String c b) = contains p (a ++ String c "") || contains p b.
Proof.
  intros H. induction a as [| y a IH].
  - change (contains p ("" ++ String c b))
      with (startswith p ("" ++ String c b) || contains p b).
    rewrite (startswith_only_last c p H "" b).
    change (contains p ("" ++ String c ""))
      with (startswith p ("" ++ String c "") || contains p "").
    destruct (startswith p ("" ++ String c "")); [reflexivity |]. simpl.
    destruct p as [| x p]; [destruct b; reflexivity | reflexivity].
  - change (contains p (String y a ++ String c b))
      with (startswith p (String y a ++ String c b) || contains p (a ++ String c b)).
    change (contains p (String y a ++ String c ""))
      with (startswith p (String y a ++ String c "") || contains p (a ++ String c "")).
    rewrite (startswith_only_last c p H (String y a) b), IH.
    now rewrite !orb_assoc.
Qed.

(** A closed line, then more text. *)
Lemma free_line (p lit rest : string) :
  only_last "010" p = true ->
  contains p (lit ++ nl) = false -> contains p rest = false ->
  contains p (lit ++ nl ++ rest) = false.
Proof.
  intros H Hl Hr.
  change (lit ++ nl ++ rest) with (lit ++ String "010" rest).
  rewrite (contains_only_last "010" p lit rest H).
  change (lit ++ String "010" "") with (lit ++ nl). now rewrite Hl, Hr.
Qed.

Lemma escape_char_no_newline (c : ascii) :
  has_char "010" (JsonDumps.escape_char c) = false.
Proof.
  destruct c as [[] [] [] [] [] [] [] []]; reflexivity.
Qed.

Lemma escape_no_newline (s : string) : has_char "010" (JsonDumps.escape s) = false.
Proof.
  induction s as [| c s IH]; [reflexivity |].
  simpl. now rewrite has_char_app, escape_char_no_newline, IH.
Qed.

Lemma dumps_str_no_newline (s : string) : has_char "010" (JsonDumps.dumps_str s) = false.
Proof.
  unfold JsonDumps.dumps_str. now rewrite !has_char_app, escape_no_newline.
Qed.

Lemma dumped_items_no_newline (d : list (string * string)) :
  has_char "010" (dumped_items d) = false.
Proof.
  unfold dumped_items. induction d as [| [k v] d IH]; [reflexivity |].
  destruct d as [| kv d].
  - change (has_char "010" (JsonDumps.dumps_str k ++ ": " ++ JsonDumps.dumps_str v)
            = false).
    now rewrite !has_char_app, !dumps_str_no_newline.
  - change (has_char "010"
              ((JsonDumps.dumps_str k ++ ": " ++ JsonDumps.dumps_str v) ++ ", "
               ++ join ", " (map (fun kv0 => JsonDumps.dumps_str (fst kv0) ++ ": "
                                             ++ JsonDumps.dumps_str (snd kv0)) (kv :: d)))
            = false).
    now rewrite !has_char_app, !dumps_str_no_newline, IH.
Qed.

Lemma dumps_items (d : list (string * string)) :
  JsonDumps.dumps d = "{" ++ dumped_items d ++ "}".
Proof. reflexivity. Qed.

Lemma lines_cons (line : string * string -> string) (kv : string * string)
    (d : list (string * string)) :
  lines line (kv :: d) = line kv ++ lines line d.
Proof. reflexivity. Qed.

Ltac lines_free :=
  let k := fresh "k" in
  let v := fresh "v" in
  let Hk := fresh "Hk" in
  let Hv := fresh "Hv" in
  induction 1 as [| [k v] ? [Hk Hv] ? ?];
  [ reflexivity
  | cbn [fst snd] in Hk, Hv; rewrite lines_cons; cbv beta; cbn [fst snd];
    right_nest; free_segments ].

Lemma csharp_header_lines_no_json (d : list (string * string)) :
  pairs_free "JsonConvert" d ->
  contains "JsonConvert"
    (lines (fun kv => "        client.DefaultRequestHeaders.Add(" ++ dq ++ fst kv
                      ++ dq ++ ", " ++ dq ++ snd kv ++ dq ++ ");" ++ nl) d) = false.
Proof. lines_free. Qed.

Lemma csharp_form_lines_no_json (d : list (string * string)) :
  pairs_free "JsonConvert" d ->
  contains "JsonConvert"
    (lines (fun kv => "            new KeyValuePair<string, string>(" ++ dq ++ fst kv
                      ++ dq ++ ", " ++ dq ++ snd kv ++ dq ++ ")," ++ nl) d) = false.
Proof. lines_free. Qed.

Lemma javascript_lines_no_json (d : list (string * string)) :
  pairs_free "JSON.stringify" d ->
  contains "JSON.stringify"
    (lines (fun kv => "        '" ++ fst kv ++ "': '" ++ snd kv ++ "'," ++ nl) d) = false.
Proof. lines_free. Qed.

Lemma php_header_lines_no_json (d : list (string * string)) :
  pairs_free "json_encode" d ->
  contains "json_encode"
    (lines (fun kv => "    '" ++ fst kv ++ ": " ++ snd kv ++ "'," ++ nl) d) = false.
Proof. lines_free. Qed.

Lemma php_form_lines_no_json (d : list (string * string)) :
  pairs_free "json_encode" d ->
  contains "json_encode"
    (lines (fun kv => "    '" ++ fst kv ++ "' => '" ++ snd kv ++ "'," ++ nl) d) = false.
Proof. lines_free. Qed.

Lemma csharp_form_only (url method : string) (query headers : list (string * string))
    (body : option string) (form : list (string * string)) :
  body_truthy body = false -> nonempty form = true ->
  contains "FormUrlEncodedContent"
    (generate_csharp_code url method query headers body form) = true
  /\ (bodyless_text_free "JsonConvert" url (capitalize method) query headers form ->
      contains "JsonConvert"
        (generate_csharp_code url method query headers body form) = false).
Proof.
  intros Hb Hf. unfold generate_csharp_code. cbv zeta. rewrite Hb, Hf.
  rewrite ?emit_each_lines. split.
  - destruct (nonempty query); destruct (nonempty headers); right_nest; find_token.
  - intros [Hurl Hmethod Hquery Hheaders Hform].
    apply (query_string_free "JsonConvert" eq_refl eq_refl eq_refl) in Hquery.
    apply csharp_header_lines_no_json in Hheaders.
    apply csharp_form_lines_no_json in Hform.
    destruct (nonempty query); destruct (nonempty headers); right_nest; free_segments.
Qed.

Lemma javascript_form_only (url method : string) (query headers : list (string * string))
    (body : option string) (form : list (string * string)) :
  body_truthy body = false -> nonempty form = true ->
  contains "URLSearchParams"
    (generate_javascript_code url method query headers body form) = true
  /\ (bodyless_text_free "JSON.stringify" url (upper method) query headers form ->
      contains "JSON.stringify"
        (generate_javascript_code url method query headers body form) = false).
Proof.
  intros Hb Hf. unfold generate_javascript_code. cbv zeta. rewrite Hb, Hf.
  rewrite ?emit_each_lines. split.
  - destruct (nonempty query); destruct (nonempty headers); right_nest; find_token.
  - intros [Hurl Hmethod Hquery Hheaders Hform].
    apply (query_string_free "JSON.stringify" eq_refl eq_refl eq_refl) in Hquery.
    apply javascript_lines_no_json in Hheaders.
    apply javascript_lines_no_json in Hform.
    destruct (nonempty query); destruct (nonempty headers); right_nest; free_segments.
Qed.

Lemma php_form_only (url method : string) (query headers : list (string * string))
    (body : option string) (form : list (string * string)) :
  body_truthy body = false -> nonempty form = true ->
  contains "http_build_query"
    (generate_php_code url method query headers body form) = true
  /\ (bodyless_text_free "json_encode" url (upper method) query headers form ->
      contains "json_encode"
        (generate_php_code url method query headers body form) = false).
Proof.
  intros Hb Hf. unfold generate_php_code. cbv zeta. rewrite Hb, Hf.
  rewrite ?emit_each_lines. split.
  - destruct (nonempty query); destruct (nonempty headers); right_nest; find_token.
  - intros [Hurl Hmethod Hquery Hheaders Hform].
    apply (query_string_free "json_encode" eq_refl eq_refl eq_refl) in Hquery.
    apply php_header_lines_no_json in Hheaders.
    apply php_form_lines_no_json in Hform.
    destruct (nonempty query); destruct (nonempty headers); right_nest; free_segments.
Qed.

Lemma free_newline (p rest : string) :
  only_last "010" p = true -> contains p nl = false -> contains p rest = false ->
  contains p (nl ++ rest) = false.
Proof.
  intros H Hn Hr. exact (free_line p "" rest H Hn Hr).
Qed.

Ltac free_lines :=
  repeat first
    [ assumption
    | reflexivity
    | apply free_line; [reflexivity | reflexivity |]
    | apply free_newline; [reflexivity | reflexivity |]
    | apply free_lit_app; [reflexivity | reflexivity |]
    | apply free_app_lit; [reflexivity | assumption |] ].

Lemma python_form_only (url method : string) (query headers : list (string * string))
    (body : option string) (form : list (string * string)) :
  body_truthy body = false -> nonempty form = true ->
  contains ("    data=data," ++ nl)
    (generate_python_code url method query headers body form) = true
  /\ (contains ("json=json_body," ++ nl) url = false ->
      contains ("json=json_body," ++ nl) method = false ->
      contains ("json=json_body," ++ nl)
        (generate_python_code url method query headers body form) = false).
Proof.
  intros Hb Hf. unfold generate_python_code. cbv zeta. rewrite Hb, Hf. split.
  - destruct (nonempty query); destruct (nonempty headers); right_nest; find_segment.
  - intros Hurl Hmethod.
    pose proof (has_char_none_free "010" ("json=json_body," ++ nl) (dumped_items query)
                  eq_refl (dumped_items_no_newline query)) as Hq.
    pose proof (has_char_none_free "010" ("json=json_body," ++ nl) (dumped_items headers)
                  eq_refl (dumped_items_no_newline headers)) as Hh.
    pose proof (has_char_none_free "010" ("json=json_body," ++ nl) (dumped_items form)
                  eq_refl (dumped_items_no_newline form)) as Hfo.
    rewrite !dumps_items.
    destruct (nonempty query); destruct (nonempty headers); right_nest; free_lines.
Qed.

(** X17. For a request without body and with form parameters, every renderer
    emits its form payload ([FormUrlEncodedContent], [URLSearchParams],
    [http_build_query], [data=data]) and no JSON-body code: the token of the
    body branch ([JsonConvert], [JSON.stringify], [json_encode], the
    [json=json_body,] argument line) is absent from the output unless the
    caller's own text holds it. *)
Theorem form_without_body :
  forall (url method : string) (query headers : list (string * string))
         (body : option string) (form : list (string * string)),
    body_truthy body = false ->
    nonempty form = true ->
    (contains ("    data=data," ++ nl)
       (generate_python_code url method query headers body form) = true
     /\ (contains ("json=json_body," ++ nl) url = false ->
         contains ("json=json_body," ++ nl) method = false ->
         contains ("json=json_body," ++ nl)
           (generate_python_code url method query headers body form) = false))
    /\ (contains "FormUrlEncodedContent"
          (generate_csharp_code url method query headers body form) = true
        /\ (bodyless_text_free "JsonConvert" url (capitalize method) query headers form ->
            contains "JsonConvert"
              (generate_csharp_code url method query headers body form) = false))
    /\ (contains "URLSearchParams"
          (generate_javascript_code url method query headers body form) = true
        /\ (bodyless_text_free "JSON.stringify" url (upper method) query headers form ->
            contains "JSON.stringify"
              (generate_javascript_code url method query headers body form) = false))
    /\ (contains "http_build_query"
          (generate_php_code url method query headers body form) = true
        /\ (bodyless_text_free "json_encode" url (upper method) query headers form ->
            contains "json_encode"
              (generate_php_code url method query headers body form) = false)).
Proof.
  intros url method query headers body form Hb Hf.
  split; [now apply python_form_only |].
  split; [now apply csharp_form_only |].
  split; [now apply javascript_form_only | now apply php_form_only].
Qed.

Lemma form_without_body_witness :
  contains "URLSearchParams"
    (generate_javascript_code "http://x/y" "post" [("a", "1")] [] None [("f", "v")]) = true
  /\ contains "JSON.stringify"
       (generate_javascript_code "http://x/y" "post" [("a", "1")] [] None [("f", "v")])
     = false
  /\ contains ("json=json_body," ++ nl)
       (generate_python_code "http://x/y" "post" [("a", "1")] [] (Some "") [("f", "v")])
     = false.
Proof.
  pose proof (form_without_body "http://x/y" "post" [("a", "1")] [] None [("f", "v")]
                eq_refl eq_refl) as [_ [_ [[Hjs1 Hjs2] _]]].
  pose proof (form_without_body "http://x/y" "post" [("a", "1")] [] (Some "") [("f", "v")]
                eq_refl eq_refl) as [[_ Hpy] _].
  split; [exact Hjs1 |]. split.
  - apply Hjs2. constructor; try reflexivity; repeat constructor.
  - apply Hpy; reflexivity.
Defined.

(** ** The request [generate_script] binds *)

Lemma last_of_cons (n : string) (l : list string) :
  last_of (n :: l) = match last_of l with Some m => Some m | None => Some n end.
Proof.
  unfold last_of. simpl. destruct (rev l); reflexivity.
Qed.

Lemma bucket_all_body (pv : list (string * string)) (views : list (string * json)) :
  forall b,
    body_param (bucket_all pv views b)
    = match last_of (names_at "body" views) with
      | Some n => Some (Dict.get pv n "")
      | None => body_param b
      end.
Proof.
  induction views as [| [n loc] views IH]; intros b; [reflexivity |].
  rewrite bucket_all_cons, IH, names_at_cons. cbn [fst snd].
  destruct (py_eq_str loc "body") eqn:Hloc.
  - rewrite last_of_cons. destruct (last_of (names_at "body" views)); [reflexivity |].
    destruct loc as [| | | s | |]; try discriminate Hloc.
    apply String.eqb_eq in Hloc. subst s. reflexivity.
  - destruct (last_of (names_at "body" views)); [reflexivity |].
    unfold bucket. rewrite Hloc.
    destruct (py_eq_str loc "path"), (py_eq_str loc "query"), (py_eq_str loc "header"),
      (py_eq_str loc "formData"); reflexivity.
Qed.

(** A bound request comes from the operation the document holds for the
    endpoint, whose parameters all carry a name and a location. *)
Lemma bind_request_ok_operation (doc : json) (ep : Endpoint)
    (pv : list (string * string)) (r : Request) :
  bind_request doc ep pv = Ok r ->
  exists base paths item operation parameters params views,
    base_url doc = Ok base
    /\ py_getitem doc "paths" = Ok paths
    /\ py_getitem paths ep.(path) = Ok item
    /\ py_getitem item (lower ep.(method)) = Ok operation
    /\ py_get operation "parameters" (JArr []) = Ok parameters
    /\ py_iter parameters = Ok params
    /\ Forall2 param_is params views
    /\ r = mkRequest
             (substitute_path (path_params (bucket_all pv views empty_binding))
                (base ++ ep.(path)))
             (lower ep.(method))
             (query_params (bucket_all pv views empty_binding))
             (header_params (bucket_all pv views empty_binding))
             (body_param (bucket_all pv views empty_binding))
             (form_params (bucket_all pv views empty_binding)).
Proof.
  unfold bind_request. intros H.
  destruct (base_url doc) as [base |] eqn:E1; simpl in H; [| discriminate].
  destruct (py_getitem doc "paths") as [paths |] eqn:E2; simpl in H; [| discriminate].
  destruct (py_getitem paths (path ep)) as [item |] eqn:E3; simpl in H; [| discriminate].
  destruct (py_getitem item (lower (method ep))) as [op |] eqn:E4; simpl in H;
    [| discriminate].
  destruct (py_get op "parameters" (JArr [])) as [ps |] eqn:E5; simpl in H;
    [| discriminate].
  destruct (py_iter ps) as [params |] eqn:E6; simpl in H; [| discriminate].
  destruct (bind_params pv empty_binding params) as [b |] eqn:E; simpl in H;
    [| discriminate].
  injection H as <-.
  destruct (bind_params_ok_inv pv params _ _ E) as [views [HF ->]].
  exists base, paths, item, op, ps, params, views. repeat split; assumption.
Qed.

(** C7, amended. In [generate_script], each parameter of the endpoint's
    operation that carries a name and an [in] field has its value looked up
    in [param_values] by name, the empty string when absent, and is bucketed
    by [in]: the path parameters make the ordered substitution list applied
    to the URL, the query, header and form maps hold exactly the names
    declared at their location, the body is the value of the last body
    parameter, and a parameter at any other location leaves no trace. A
    parameter object without [name], or with a name and without [in], is not
    dropped: the call raises [KeyError]. *)
Theorem generate_script_buckets_parameters :
  forall (doc : json) (ep : Endpoint) (pv : list (string * string)) (base : string)
         (paths item operation parameters : json) (params : list json),
    base_url doc = Ok base ->
    py_getitem doc "paths" = Ok paths ->
    py_getitem paths ep.(path) = Ok item ->
    py_getitem item (lower ep.(method)) = Ok operation ->
    py_get operation "parameters" (JArr []) = Ok parameters ->
    py_iter parameters = Ok params ->
    (forall views,
        Forall2 param_is params views ->
        exists r,
          bind_request doc ep pv = Ok r
          /\ (forall lang, In lang languages ->
                           generate_script doc ep pv lang = Ok (renderer_of lang r))
          /\ r.(req_url) = substitute_path (path_bindings pv views) (base ++ ep.(path))
          /\ (forall n, Dict.lookup n r.(req_query)
                        = if declares "query" views n then Some (Dict.get pv n "")
                          else None)
          /\ (forall n, Dict.lookup n r.(req_headers)
                        = if declares "header" views n then Some (Dict.get pv n "")
                          else None)
          /\ (forall n, Dict.lookup n r.(req_form)
                        = if declares "formData" views n then Some (Dict.get pv n "")
                          else None)
          /\ r.(req_body)
             = option_map (fun n => Dict.get pv n "") (last_of (names_at "body" views))
          /\ (forall n, Dict.get pv n ""
                        = match Dict.lookup n pv with Some v => v | None => "" end))
    /\ (forall before p after d,
          params = (before ++ p :: after)%list ->
          Forall param_ok before ->
          p = JObj d ->
          (Dict.lookup "name" d = None ->
           forall lang, generate_script doc ep pv lang = Err (KeyError "name"))
          /\ (forall n, Dict.lookup "name" d = Some (JStr n) ->
                        Dict.lookup "in" d = None ->
                        forall lang, generate_script doc ep pv lang = Err (KeyError "in"))).
Proof.
  intros doc ep pv base paths item operation parameters params Hb Hp Hi Ho Hps Hit.
  pose proof (bind_request_found doc ep pv base paths item operation parameters params
                Hb Hp Hi Ho Hps Hit) as Hreq.
  split.
  - intros views HF.
    rewrite (bind_params_views pv params views HF empty_binding) in Hreq. simpl in Hreq.
    eexists. split; [exact Hreq |].
    split; [intros lang Hin; exact (proj1 (generate_script_dispatch _ _ _ lang _ Hreq) Hin) |].
    cbn [req_url req_query req_headers req_form req_body].
    split; [now rewrite (bucket_all_path pv views empty_binding) |].
    split; [intros n; apply (bucket_all_query pv views n empty_binding) |].
    split; [intros n; apply (bucket_all_header pv views n empty_binding) |].
    split; [intros n; apply (bucket_all_form pv views n empty_binding) |].
    split; [| reflexivity].
    rewrite (bucket_all_body pv views empty_binding).
    now destruct (last_of (names_at "body" views)).
  - intros before p after d -> Hbefore ->.
    assert (Hgen : forall e lang, bind_param pv empty_binding (JObj d) = Err e ->
                                  generate_script doc ep pv lang = Err e).
    { intros e lang He. unfold generate_script. rewrite Hreq.
      now rewrite (bind_params_first_error pv before after (JObj d) e empty_binding
                     Hbefore He). }
    split.
    + intros Hn lang. apply Hgen. unfold bind_param. simpl. now rewrite Hn.
    + intros n Hn Hl lang. apply Hgen. unfold bind_param. simpl. rewrite Hn. simpl.
      now rewrite Hl.
Qed.

Lemma generate_script_buckets_parameters_witness :
  exists r,
    bind_request (JObj order_doc) post_order [("id", "7"); ("order", "{}"); ("sid", "s")]
    = Ok r
    /\ r.(req_url) = "https://h/orders/7"
    /\ Dict.lookup "q" r.(req_query) = Some ""
    /\ Dict.lookup "X-Trace" r.(req_headers) = Some ""
    /\ Dict.lookup "note" r.(req_form) = Some ""
    /\ r.(req_body) = Some "{}"
    /\ Dict.lookup "sid" r.(req_query) = None
    /\ Dict.lookup "sid" r.(req_headers) = None
    /\ Dict.lookup "sid" r.(req_form) = None.
Proof.
  destruct (proj1 (generate_script_buckets_parameters (JObj order_doc) post_order
                     [("id", "7"); ("order", "{}"); ("sid", "s")] "https://h"
                     _ _ _ _ _ eq_refl eq_refl eq_refl eq_refl eq_refl eq_refl)
              order_views)
    as [r [Hr [_ [Hurl [Hq [Hh [Hf [Hbody _]]]]]]]].
  - repeat constructor.
  - exists r. split; [exact Hr |].
    split; [rewrite Hurl; reflexivity |].
    split; [exact (Hq "q") |]. split; [exact (Hh "X-Trace") |].
    split; [exact (Hf "note") |]. split; [rewrite Hbody; reflexivity |].
    split; [exact (Hq "sid") |]. split; [exact (Hh "sid") | exact (Hf "sid")].
Defined.

(** C7, as stated, fails on a parameter that lacks [name] or [in]: such a
    parameter is neither bucketed nor dropped, the call raises. *)
Lemma generate_script_parameter_without_in_raises :
  generate_script (JObj no_in_doc) get_items [("q", "x"); ("limit", "9")] "Python"
  = Err (KeyError "in")
  /\ bind_request (JObj no_in_doc) get_items [("q", "x"); ("limit", "9")]
     = Err (KeyError "in")
  /\ generate_script (JObj ref_doc) get_items [("q", "x")] "Python"
     = Err (KeyError "name").
Proof. repeat split. Qed.

(** C5, amended. In [generate_script] the URL handed to the renderer is the
    base URL and path with one [str.replace] per path parameter of the
    operation, in declaration order, each by [param_values.get(name, '')]
    inserted as it is. For a path parameter whose name holds no opening
    brace, the URL it meets, cut at the occurrences of [{name}], comes back
    with the value between the pieces: every occurrence is replaced. A
    placeholder of a brace-free name that no path parameter carries (the
    path parameters' names being brace-free too) is still in the URL, and no
    error is raised. When no parameter's placeholder occurs the URL is
    unchanged, and once none remains substituting again changes nothing. *)
Theorem generate_script_substitutes_path :
  forall (doc : json) (ep : Endpoint) (pv : list (string * string)) (r : Request),
    bind_request doc ep pv = Ok r ->
    (forall lang, In lang languages ->
                  generate_script doc ep pv lang = Ok (renderer_of lang r))
    /\ exists base paths item operation parameters params views,
         base_url doc = Ok base
         /\ py_getitem doc "paths" = Ok paths
         /\ py_getitem paths ep.(path) = Ok item
         /\ py_getitem item (lower ep.(method)) = Ok operation
         /\ py_get operation "parameters" (JArr []) = Ok parameters
         /\ py_iter parameters = Ok params
         /\ Forall2 param_is params views
         /\ r.(req_url) = substitute_path (path_bindings pv views) (base ++ ep.(path))
         /\ (forall before n rest pieces,
                names_at "path" views = (before ++ n :: rest)%list ->
                has_char "{" n = false ->
                Forall (fun p => contains (placeholder n) p = false) pieces ->
                substitute_path (map (fun m => (m, Dict.get pv m "")) before)
                  (base ++ ep.(path))
                = join (placeholder n) pieces ->
                r.(req_url)
                = substitute_path (map (fun m => (m, Dict.get pv m "")) rest)
                    (join (Dict.get pv n "") pieces))
         /\ (forall x p q,
                brace_free x = true ->
                Forall (fun n => brace_free n = true /\ n <> x) (names_at "path" views) ->
                base ++ ep.(path) = p ++ placeholder x ++ q ->
                exists p' q', r.(req_url) = p' ++ placeholder x ++ q')
         /\ (Forall (fun n => contains (placeholder n) (base ++ ep.(path)) = false)
               (names_at "path" views) ->
             r.(req_url) = base ++ ep.(path))
         /\ (Forall (fun n => contains (placeholder n) r.(req_url) = false)
               (names_at "path" views) ->
             substitute_path (path_bindings pv views) r.(req_url) = r.(req_url)).
Proof.
  intros doc ep pv r H.
  split; [intros lang Hin; exact (proj1 (generate_script_dispatch _ _ _ lang _ H) Hin) |].
  destruct (bind_request_ok_operation doc ep pv r H)
    as [base [paths [item [op [ps [params [views
         [Hb [Hp [Hi [Ho [Hps [Hit [HF ->]]]]]]]]]]]]]].
  exists base, paths, item, op, ps, params, views.
  cbn [req_url]. rewrite (bucket_all_path pv views empty_binding).
  change (path_params empty_binding) with (@nil (string * string)). cbn [app].
  fold (path_bindings pv views).
  repeat (split; [assumption |]).
  split; [reflexivity |].
  split; [| split; [| split]].
  - intros before n rest pieces Hnames Hn Hpieces HU.
    unfold path_bindings. rewrite Hnames, map_app, substitute_path_app, HU.
    cbn [map substitute_path]. f_equal.
    destruct (placeholder_headed n Hn) as [Hpl Hfresh]. rewrite Hpl in *.
    now apply replace_join.
  - intros x p q Hx Hnames ->.
    apply substitute_keeps_placeholder; [exact Hx |].
    unfold path_bindings. apply Forall_map. exact Hnames.
  - intros Hnone. apply substitute_no_placeholder.
    unfold path_bindings. apply Forall_map. exact Hnone.
  - intros Hnone. apply substitute_no_placeholder.
    unfold path_bindings. apply Forall_map. exact Hnone.
Qed.

Lemma generate_script_substitutes_path_witness :
  generate_script (JObj search_doc) get_item [("q", "rocq"); ("id", "a b/c?")] "PHP"
  = Ok (renderer_of "PHP"
          (mkRequest "https://h/items/a b/c?" "get" [("q", "rocq"); ("lang", "")] []
             None []))
  /\ exists base views,
       base_url (JObj search_doc) = Ok base
       /\ "https://h/items/a b/c?"
          = substitute_path (path_bindings [("q", "rocq"); ("id", "a b/c?")] views)
              (base ++ "/items/{id}").
Proof.
  destruct (generate_script_substitutes_path (JObj search_doc) get_item
              [("q", "rocq"); ("id", "a b/c?")]
              (mkRequest "https://h/items/a b/c?" "get" [("q", "rocq"); ("lang", "")] []
                 None [])
              eq_refl)
    as [Hgen [base [paths [item [op [ps [params [views
         [Hb [_ [_ [_ [_ [_ [_ [Hurl _]]]]]]]]]]]]]]]].
  split.
  - apply Hgen. simpl. auto.
  - exists base, views. split; [exact Hb | exact Hurl].
Defined.

(** C5, as stated, fails for names that hold braces: [str.replace] takes the
    occurrences from the left without overlap, so of two overlapping
    occurrences of [{name}] the second stays; and a parameter's placeholder
    may span the placeholder of a name that no parameter carries, which then
    does not stay. *)
Lemma path_substitution_names_with_braces :
  bind_request (JObj braces_doc) get_overlapping [("}{", "X")]
  = Ok (mkRequest "https://h/aX{}" "get" [] [] None [])
  /\ "https://h" ++ path get_overlapping = "https://h/a{}" ++ placeholder "}{"
  /\ endswith "X" "https://h/aX{}" = false
  /\ bind_request (JObj braces_doc) get_spanning [("x}{x", "V")]
     = Ok (mkRequest "https://h/V" "get" [] [] None [])
  /\ "https://h" ++ path get_spanning = "https://h/" ++ placeholder "x" ++ "{x}"
  /\ contains (placeholder "x") "https://h/V" = false.
Proof. repeat split. Qed.
